(** * NuCachedSource2: the read-ahead cache of libstagefright

    A shallow embedding of [media/libstagefright/NuCachedSource2.cpp]: the
    paged byte cache [PageCache], and the engine [NuCachedSource2] with its
    prefetcher ([onFetch], [fetchInternal]), its eviction policy
    ([restartPrefetcherIfNecessary_l]) and its read path ([readAt],
    [readInternal], [seekInternal_l]).

    Integers are mathematical integers with the wrap-around of the C++ types
    written out.  The data model is LP64: [size_t] is an unsigned and
    [ssize_t] a signed 64-bit integer, [off64_t] and [int64_t] are signed
    64-bit integers, [status_t], [int] and [int32_t] are signed 32-bit
    integers.  An addition that mixes [off64_t] and [size_t] is carried out
    on unsigned 64-bit integers, as the usual arithmetic conversions have
    it. *)

From Stdlib Require Import ZArith List Bool Lia String Ascii.
From Stdlib Require Import Strings.Byte.
Import ListNotations.
Local Open Scope Z_scope.

(** ** Machine integers *)

(** Conversion to an unsigned 64-bit integer ([size_t]). *)
Definition u64 (x : Z) : Z := x mod 2 ^ 64.

(** Conversion to a signed 64-bit integer ([off64_t], [ssize_t]). *)
Definition s64 (x : Z) : Z := (x + 2 ^ 63) mod 2 ^ 64 - 2 ^ 63.

(** Conversion to a signed 32-bit integer ([status_t], [int32_t]). *)
Definition s32 (x : Z) : Z := (x + 2 ^ 31) mod 2 ^ 32 - 2 ^ 31.

(** Conversion to an unsigned 32-bit integer ([uint32_t]). *)
Definition u32 (x : Z) : Z := x mod 2 ^ 32.

(** ** Constants *)

(** Modelled from the spec: the enumerators of [include/NuCachedSource2.h],
    which is not among the sources.  The spec gives the page size (64 KiB),
    the default watermarks (2 MiB and 20 MiB), the default keep-alive
    period (15 s, kept in microseconds) and the number of retries (10). *)
Definition kPageSize : Z := 65536.
Definition kDefaultHighWaterThreshold : Z := 20 * 1024 * 1024.
Definition kDefaultLowWaterThreshold : Z := 2 * 1024 * 1024.
Definition kDefaultKeepAliveIntervalUs : Z := 15000000.
Definition kMaxNumRetries : Z := 10.

(** Modelled from the spec: the status codes the engine stores and returns
    (Ok, Eof, unsupported, broken pipe, EAGAIN).  They are declared in
    [MediaErrors.h], [utils/Errors.h] and [errno.h], which are not among the
    sources; the values are those of the platform. *)
Definition OK : Z := 0.
Definition ERROR_UNSUPPORTED : Z := -1010.
Definition ERROR_END_OF_STREAM : Z := -1011.
Definition EAGAIN : Z := 11.
Definition EPIPE : Z := 32.

(** ** PageCache *)

Module PageCache.

(** A page: its buffer [mData] (of [mPageSize] bytes) and the number
    [mSize] of meaningful bytes at its start. *)
Record Page : Type := mkPage {
  mData : list byte;
  mSize : Z
}.

Record t : Type := mk {
  mPageSize : Z;
  mTotalSize : Z;
  mActivePages : list Page;
  mFreePages : list Page
}.

(** [PageCache::PageCache(pageSize)] *)
Definition new (pageSize : Z) : t :=
  mk pageSize 0 [] [].

(** [acquirePage]: the first free page, or a fresh one.  The contents of
    a fresh buffer are not specified by [malloc]; zeros stand for them. *)
Definition acquirePage (c : t) : Page * t :=
  match mFreePages c with
  | page :: rest =>
      (page, mk (mPageSize c) (mTotalSize c) (mActivePages c) rest)
  | [] =>
      (mkPage (repeat x00 (Z.to_nat (mPageSize c))) 0, c)
  end.

(** [releasePage] *)
Definition releasePage (page : Page) (c : t) : t :=
  mk (mPageSize c) (mTotalSize c) (mActivePages c)
     (mFreePages c ++ [mkPage (mData page) 0]).

(** [appendPage] *)
Definition appendPage (page : Page) (c : t) : t :=
  mk (mPageSize c) (u64 (mTotalSize c + mSize page))
     (mActivePages c ++ [page]) (mFreePages c).

(** The loop of [releaseFromStart]: the pages left active, the free list,
    and the bytes released so far. *)
Fixpoint releaseLoop (active free : list Page) (maxBytes bytesReleased : Z)
  : list Page * list Page * Z :=
  match active with
  | [] => (active, free, bytesReleased)
  | page :: rest =>
      if maxBytes >? 0 then
        if maxBytes <? mSize page then (active, free, bytesReleased)
        else releaseLoop rest (free ++ [mkPage (mData page) 0])
               (u64 (maxBytes - mSize page))
               (u64 (bytesReleased + mSize page))
      else (active, free, bytesReleased)
  end.

(** [releaseFromStart]: the bytes released and the cache afterwards. *)
Definition releaseFromStart (maxBytes : Z) (c : t) : Z * t :=
  match releaseLoop (mActivePages c) (mFreePages c) maxBytes 0 with
  | (active, free, bytesReleased) =>
      (bytesReleased,
       mk (mPageSize c) (u64 (mTotalSize c - bytesReleased)) active free)
  end.

Definition totalSize (c : t) : Z := mTotalSize c.

(** [memcpy (data, page->mData + from, n)]: the bytes copied. *)
Definition memcpy (page : Page) (from n : Z) : list byte :=
  firstn (Z.to_nat n) (skipn (Z.to_nat from) (mData page)).

(** The first loop of [copy]: advance the iterator to the page that holds
    the byte at [from].  [None] when the iterator runs off the list. *)
Fixpoint copySeek (it : list Page) (from offset : Z)
  : option (list Page * Z) :=
  match it with
  | [] => None
  | page :: rest =>
      if from >=? u64 (offset + mSize page)
      then copySeek rest from (u64 (offset + mSize page))
      else Some (it, offset)
  end.

(** The last loop of [copy]: whole pages, then the head of the last one. *)
Fixpoint copyRest (it : list Page) (size : Z) : option (list byte) :=
  match it with
  | [] => if size >? 0 then None else Some []
  | page :: rest =>
      if size >? 0 then
        let copy := if mSize page >? size then size else mSize page in
        match copyRest rest (u64 (size - copy)) with
        | Some bytes => Some (memcpy page 0 copy ++ bytes)
        | None => None
        end
      else Some []
  end.

(** [copy (from, data, size)]: the bytes stored at [data]; [None] when
    [CHECK_LE] fails or an iterator leaves the list. *)
Definition copy (from size : Z) (c : t) : option (list byte) :=
  if size =? 0 then Some []
  else if negb (u64 (from + size) <=? mTotalSize c) then None
  else
    match copySeek (mActivePages c) from 0 with
    | Some (page :: rest, offset) =>
        let delta := u64 (from - offset) in
        let avail := u64 (mSize page - delta) in
        if avail >=? size then Some (memcpy page delta size)
        else
          match copyRest rest (u64 (size - avail)) with
          | Some bytes => Some (memcpy page delta avail ++ bytes)
          | None => None
          end
    | _ => None
    end.

End PageCache.

(** ** NuCachedSource2 *)

Module NuCachedSource2.

(** The members of the engine.  The upstream source [mSource], the looper
    and the handler are outside the engine; what they answer enters the
    operations below as arguments, what the engine asks of them leaves
    them as events. *)
Record t : Type := mk {
  mCache : PageCache.t;
  mCacheOffset : Z;
  mFinalStatus : Z;
  mLastAccessPos : Z;
  mAsyncResult : option Z;
  mFetching : bool;
  mDisconnecting : bool;
  mLastFetchTimeUs : Z;
  mNumRetriesLeft : Z;
  mHighwaterThresholdBytes : Z;
  mLowwaterThresholdBytes : Z;
  mKeepAliveIntervalUs : Z;
  mDisconnectAtHighwatermark : bool;
  mIsProxyConfigured : bool;
  mQueryAndSetProxy : bool;
  mSuspended : bool
}.

(** Assignments to single members. *)
Definition set_mCache (v : PageCache.t) (s : t) : t :=
  mk v (mCacheOffset s) (mFinalStatus s) (mLastAccessPos s)
     (mAsyncResult s) (mFetching s) (mDisconnecting s)
     (mLastFetchTimeUs s) (mNumRetriesLeft s) (mHighwaterThresholdBytes s)
     (mLowwaterThresholdBytes s) (mKeepAliveIntervalUs s)
     (mDisconnectAtHighwatermark s) (mIsProxyConfigured s)
     (mQueryAndSetProxy s) (mSuspended s).

Definition set_mCacheOffset (v : Z) (s : t) : t :=
  mk (mCache s) v (mFinalStatus s) (mLastAccessPos s) (mAsyncResult s)
     (mFetching s) (mDisconnecting s) (mLastFetchTimeUs s)
     (mNumRetriesLeft s) (mHighwaterThresholdBytes s)
     (mLowwaterThresholdBytes s) (mKeepAliveIntervalUs s)
     (mDisconnectAtHighwatermark s) (mIsProxyConfigured s)
     (mQueryAndSetProxy s) (mSuspended s).

Definition set_mFinalStatus (v : Z) (s : t) : t :=
  mk (mCache s) (mCacheOffset s) v (mLastAccessPos s) (mAsyncResult s)
     (mFetching s) (mDisconnecting s) (mLastFetchTimeUs s)
     (mNumRetriesLeft s) (mHighwaterThresholdBytes s)
     (mLowwaterThresholdBytes s) (mKeepAliveIntervalUs s)
     (mDisconnectAtHighwatermark s) (mIsProxyConfigured s)
     (mQueryAndSetProxy s) (mSuspended s).

Definition set_mLastAccessPos (v : Z) (s : t) : t :=
  mk (mCache s) (mCacheOffset s) (mFinalStatus s) v (mAsyncResult s)
     (mFetching s) (mDisconnecting s) (mLastFetchTimeUs s)
     (mNumRetriesLeft s) (mHighwaterThresholdBytes s)
     (mLowwaterThresholdBytes s) (mKeepAliveIntervalUs s)
     (mDisconnectAtHighwatermark s) (mIsProxyConfigured s)
     (mQueryAndSetProxy s) (mSuspended s).

Definition set_mAsyncResult (v : option Z) (s : t) : t :=
  mk (mCache s) (mCacheOffset s) (mFinalStatus s) (mLastAccessPos s) v
     (mFetching s) (mDisconnecting s) (mLastFetchTimeUs s)
     (mNumRetriesLeft s) (mHighwaterThresholdBytes s)
     (mLowwaterThresholdBytes s) (mKeepAliveIntervalUs s)
     (mDisconnectAtHighwatermark s) (mIsProxyConfigured s)
     (mQueryAndSetProxy s) (mSuspended s).

Definition set_mFetching (v : bool) (s : t) : t :=
  mk (mCache s) (mCacheOffset s) (mFinalStatus s) (mLastAccessPos s)
     (mAsyncResult s) v (mDisconnecting s) (mLastFetchTimeUs s)
     (mNumRetriesLeft s) (mHighwaterThresholdBytes s)
     (mLowwaterThresholdBytes s) (mKeepAliveIntervalUs s)
     (mDisconnectAtHighwatermark s) (mIsProxyConfigured s)
     (mQueryAndSetProxy s) (mSuspended s).

Definition set_mDisconnecting (v : bool) (s : t) : t :=
  mk (mCache s) (mCacheOffset s) (mFinalStatus s) (mLastAccessPos s)
     (mAsyncResult s) (mFetching s) v (mLastFetchTimeUs s)
     (mNumRetriesLeft s) (mHighwaterThresholdBytes s)
     (mLowwaterThresholdBytes s) (mKeepAliveIntervalUs s)
     (mDisconnectAtHighwatermark s) (mIsProxyConfigured s)
     (mQueryAndSetProxy s) (mSuspended s).

Definition set_mLastFetchTimeUs (v : Z) (s : t) : t :=
  mk (mCache s) (mCacheOffset s) (mFinalStatus s) (mLastAccessPos s)
     (mAsyncResult s) (mFetching s) (mDisconnecting s) v
     (mNumRetriesLeft s) (mHighwaterThresholdBytes s)
     (mLowwaterThresholdBytes s) (mKeepAliveIntervalUs s)
     (mDisconnectAtHighwatermark s) (mIsProxyConfigured s)
     (mQueryAndSetProxy s) (mSuspended s).

Definition set_mNumRetriesLeft (v : Z) (s : t) : t :=
  mk (mCache s) (mCacheOffset s) (mFinalStatus s) (mLastAccessPos s)
     (mAsyncResult s) (mFetching s) (mDisconnecting s)
     (mLastFetchTimeUs s) v (mHighwaterThresholdBytes s)
     (mLowwaterThresholdBytes s) (mKeepAliveIntervalUs s)
     (mDisconnectAtHighwatermark s) (mIsProxyConfigured s)
     (mQueryAndSetProxy s) (mSuspended s).

Definition set_mHighwaterThresholdBytes (v : Z) (s : t) : t :=
  mk (mCache s) (mCacheOffset s) (mFinalStatus s) (mLastAccessPos s)
     (mAsyncResult s) (mFetching s) (mDisconnecting s)
     (mLastFetchTimeUs s) (mNumRetriesLeft s) v
     (mLowwaterThresholdBytes s) (mKeepAliveIntervalUs s)
     (mDisconnectAtHighwatermark s) (mIsProxyConfigured s)
     (mQueryAndSetProxy s) (mSuspended s).

Definition set_mLowwaterThresholdBytes (v : Z) (s : t) : t :=
  mk (mCache s) (mCacheOffset s) (mFinalStatus s) (mLastAccessPos s)
     (mAsyncResult s) (mFetching s) (mDisconnecting s)
     (mLastFetchTimeUs s) (mNumRetriesLeft s) (mHighwaterThresholdBytes s)
     v (mKeepAliveIntervalUs s) (mDisconnectAtHighwatermark s)
     (mIsProxyConfigured s) (mQueryAndSetProxy s) (mSuspended s).

Definition set_mKeepAliveIntervalUs (v : Z) (s : t) : t :=
  mk (mCache s) (mCacheOffset s) (mFinalStatus s) (mLastAccessPos s)
     (mAsyncResult s) (mFetching s) (mDisconnecting s)
     (mLastFetchTimeUs s) (mNumRetriesLeft s) (mHighwaterThresholdBytes s)
     (mLowwaterThresholdBytes s) v (mDisconnectAtHighwatermark s)
     (mIsProxyConfigured s) (mQueryAndSetProxy s) (mSuspended s).

Definition set_mDisconnectAtHighwatermark (v : bool) (s : t) : t :=
  mk (mCache s) (mCacheOffset s) (mFinalStatus s) (mLastAccessPos s)
     (mAsyncResult s) (mFetching s) (mDisconnecting s)
     (mLastFetchTimeUs s) (mNumRetriesLeft s) (mHighwaterThresholdBytes s)
     (mLowwaterThresholdBytes s) (mKeepAliveIntervalUs s) v
     (mIsProxyConfigured s) (mQueryAndSetProxy s) (mSuspended s).

Definition set_mIsProxyConfigured (v : bool) (s : t) : t :=
  mk (mCache s) (mCacheOffset s) (mFinalStatus s) (mLastAccessPos s)
     (mAsyncResult s) (mFetching s) (mDisconnecting s)
     (mLastFetchTimeUs s) (mNumRetriesLeft s) (mHighwaterThresholdBytes s)
     (mLowwaterThresholdBytes s) (mKeepAliveIntervalUs s)
     (mDisconnectAtHighwatermark s) v (mQueryAndSetProxy s) (mSuspended s).

Definition set_mQueryAndSetProxy (v : bool) (s : t) : t :=
  mk (mCache s) (mCacheOffset s) (mFinalStatus s) (mLastAccessPos s)
     (mAsyncResult s) (mFetching s) (mDisconnecting s)
     (mLastFetchTimeUs s) (mNumRetriesLeft s) (mHighwaterThresholdBytes s)
     (mLowwaterThresholdBytes s) (mKeepAliveIntervalUs s)
     (mDisconnectAtHighwatermark s) (mIsProxyConfigured s) v
     (mSuspended s).

Definition set_mSuspended (v : bool) (s : t) : t :=
  mk (mCache s) (mCacheOffset s) (mFinalStatus s) (mLastAccessPos s)
     (mAsyncResult s) (mFetching s) (mDisconnecting s)
     (mLastFetchTimeUs s) (mNumRetriesLeft s) (mHighwaterThresholdBytes s)
     (mLowwaterThresholdBytes s) (mKeepAliveIntervalUs s)
     (mDisconnectAtHighwatermark s) (mIsProxyConfigured s)
     (mQueryAndSetProxy s) v.

(** What the engine asks of its collaborators: the upstream source, the
    looper's message queue and the condition variable. *)
Inductive Event : Type :=
| SourceReconnect (offset : Z)
| SourceRead (offset size : Z)
| SourceDisconnect
| PostFetch (delayUs : Z)
| PostRead (offset size delayUs : Z)
| Signal.

(** What the collaborators answer during one activation of [onFetch]:
    the clock at the keep-alive test and after the fetch, whether the
    source is HTTP based, the status of [reconnectAtOffset] together with
    the value it leaves in [mQueryAndSetProxy], and the result of the
    source's [readAt] together with the bytes it stored in the page. *)
Record FetchEnv : Type := mkFetchEnv {
  nowAtCheck : Z;
  nowAfterFetch : Z;
  sourceIsHTTP : bool;
  reconnectErr : Z;
  reconnectProxy : bool;
  readResult : Z;
  readBytes : list byte
}.

(** The constructor before it reads the configuration. *)
Definition init (disconnectAtHighwatermark isProxyConfigured : bool) : t :=
  mk (PageCache.new kPageSize) 0 OK 0 None true false (-1) kMaxNumRetries
     kDefaultHighWaterThreshold kDefaultLowWaterThreshold
     kDefaultKeepAliveIntervalUs disconnectAtHighwatermark isProxyConfigured
     false false.

(** *** Configuration *)

(** The C library's [sscanf] at the format ["%zd/%zd/%d"].  A conversion
    skips white space, takes an optional sign and then at least one
    decimal digit; the slash has to follow the number at once. *)
Definition isspace (c : ascii) : bool :=
  let n := Z.of_nat (nat_of_ascii c) in
  (n =? 32) || ((9 <=? n) && (n <=? 13)).

Definition digit (c : ascii) : option Z :=
  let n := Z.of_nat (nat_of_ascii c) in
  if (48 <=? n) && (n <=? 57) then Some (n - 48) else None.

Fixpoint skipSpace (s : string) : string :=
  match s with
  | String c rest => if isspace c then skipSpace rest else s
  | EmptyString => s
  end.

Fixpoint scanDigits (s : string) (acc : Z) : Z * string :=
  match s with
  | String c rest =>
      match digit c with
      | Some d => scanDigits rest (10 * acc + d)
      | None => (acc, s)
      end
  | EmptyString => (acc, s)
  end.

Definition scanSign (s : string) : bool * string :=
  match s with
  | String "-"%char rest => (true, rest)
  | String "+"%char rest => (false, rest)
  | _ => (false, s)
  end.

Definition scanInt (s : string) : option (Z * string) :=
  let (negative, s1) := scanSign (skipSpace s) in
  match s1 with
  | String c _ =>
      match digit c with
      | Some _ =>
          let (v, rest) := scanDigits s1 0 in
          Some (if negative then - v else v, rest)
      | None => None
      end
  | EmptyString => None
  end.

Definition scanSlash (s : string) : option string :=
  match s with
  | String "/"%char rest => Some rest
  | _ => None
  end.

(** The numbers the format matches in [s], as their digits spell them, up
    to the first conversion or slash that fails. *)
Definition scanTokens (s : string) : list Z :=
  match scanInt s with
  | None => []
  | Some (a, s1) =>
      match scanSlash s1 with
      | None => [a]
      | Some s2 =>
          match scanInt s2 with
          | None => [a]
          | Some (b, s3) =>
              match scanSlash s3 with
              | None => [a; b]
              | Some s4 =>
                  match scanInt s4 with
                  | None => [a; b]
                  | Some (c, _) => [a; b; c]
                  end
              end
          end
      end
  end.

(** The value a conversion gives a number: that of [strtoimax], which for
    a number outside of [intmax_t] is the nearest bound of the type. *)
Definition strtoimax (v : Z) : Z :=
  Z.max (- 2 ^ 63) (Z.min v (2 ^ 63 - 1)).

(** The values [sscanf] stores, whose number is what it returns (none also
    when it returns [EOF]): the value of the conversion, converted to the
    type of the variable, [ssize_t] for [%zd] and [int] for [%d]. *)
Definition sscanf_zd_zd_d (s : string) : list Z :=
  match scanTokens s with
  | [] => []
  | [a] => [s64 (strtoimax a)]
  | [a; b] => [s64 (strtoimax a); s64 (strtoimax b)]
  | a :: b :: c :: _ =>
      [s64 (strtoimax a); s64 (strtoimax b); s32 (strtoimax c)]
  end.

(** [updateCacheParamsFromString] *)
Definition updateCacheParamsFromString (str : string) (s : t) : t :=
  match sscanf_zd_zd_d str with
  | [lowwaterMarkKb; highwaterMarkKb; keepAliveSecs] =>
      let s1 :=
        if lowwaterMarkKb >=? 0
        then set_mLowwaterThresholdBytes (u64 (lowwaterMarkKb * 1024)) s
        else set_mLowwaterThresholdBytes kDefaultLowWaterThreshold s in
      let s2 :=
        if highwaterMarkKb >=? 0
        then set_mHighwaterThresholdBytes (u64 (highwaterMarkKb * 1024)) s1
        else set_mHighwaterThresholdBytes kDefaultHighWaterThreshold s1 in
      let s3 :=
        if mLowwaterThresholdBytes s2 >=? mHighwaterThresholdBytes s2
        then set_mHighwaterThresholdBytes kDefaultHighWaterThreshold
               (set_mLowwaterThresholdBytes kDefaultLowWaterThreshold s2)
        else s2 in
      if keepAliveSecs >=? 0
      then set_mKeepAliveIntervalUs (s64 (keepAliveSecs * 1000000)) s3
      else set_mKeepAliveIntervalUs kDefaultKeepAliveIntervalUs s3
  | _ => s
  end.

(** [updateCacheParamsFromSystemProperty]: the arguments are the values of
    [persist.sys.media.cache-params] and [media.stagefright.cache-params],
    empty when the property is not set. *)
Definition updateCacheParamsFromSystemProperty
    (persistValue mediaValue : string) (s : t) : t :=
  if 0 <? Z.of_nat (String.length persistValue)
  then updateCacheParamsFromString persistValue s
  else if 0 <? Z.of_nat (String.length mediaValue)
  then updateCacheParamsFromString mediaValue s
  else s.

(** The constructor: the engine it builds and the first FETCH message. *)
Definition new (persistValue mediaValue : string)
    (cacheConfig : option string)
    (disconnectAtHighwatermark isProxyConfigured : bool) : t * list Event :=
  let s0 := init disconnectAtHighwatermark isProxyConfigured in
  let s1 := updateCacheParamsFromSystemProperty persistValue mediaValue s0 in
  let s2 :=
    match cacheConfig with
    | Some str => updateCacheParamsFromString str s1
    | None => s1
    end in
  let s3 :=
    if mDisconnectAtHighwatermark s2 && negb (mIsProxyConfigured s2)
    then set_mKeepAliveIntervalUs 0 s2
    else s2 in
  (s3, [PostFetch 0]).

(** *** Disconnect and suspend *)

(** [disconnect]: the argument says whether the source's flags have
    [kIsHTTPBasedSource]. *)
Definition disconnect (sourceIsHTTPBased : bool) (s : t) : t * list Event :=
  if sourceIsHTTPBased
  then (set_mDisconnecting true s, [Signal; SourceDisconnect])
  else (s, []).

(** [disconnectWhileSuspend], for a source that is not [NULL]. *)
Definition disconnectWhileSuspend (s : t) : Z * t :=
  (OK, set_mSuspended true (set_mFinalStatus (- EAGAIN) s)).

(** [connectWhileResume] *)
Definition connectWhileResume (s : t) : Z * t * list Event :=
  (OK, set_mSuspended false s, [PostFetch 0]).

(** *** Eviction *)

Definition kGrayArea : Z := 1024 * 1024.

(** Out of retries with an error latched. *)
Definition exhausted (s : t) : bool :=
  negb (mFinalStatus s =? OK) && (mNumRetriesLeft s =? 0).

(** [restartPrefetcherIfNecessary_l] *)
Definition restartPrefetcherIfNecessary_l
    (ignoreLowWaterThreshold force : bool) (s : t) : t :=
  if mFetching s || exhausted s then s
  else if negb ignoreLowWaterThreshold && negb force
          && (u64 (mCacheOffset s + PageCache.totalSize (mCache s)
                   - mLastAccessPos s)
              >=? mLowwaterThresholdBytes s)
  then s
  else
    let maxBytes := u64 (mLastAccessPos s - mCacheOffset s) in
    if negb force && (maxBytes <? kGrayArea) then s
    else
      let maxBytes :=
        if negb force then u64 (maxBytes - kGrayArea) else maxBytes in
      let (actualBytes, cache) :=
        PageCache.releaseFromStart maxBytes (mCache s) in
      set_mFetching true
        (set_mCacheOffset (s64 (u64 (mCacheOffset s + actualBytes)))
           (set_mCache cache s)).

(** [resumeFetchingIfNecessary] *)
Definition resumeFetchingIfNecessary (s : t) : t :=
  restartPrefetcherIfNecessary_l true false s.

(** *** The prefetcher *)

(** The page buffer after the source has stored [bytes] at its start. *)
Definition storeBytes (bytes : list byte) (page : PageCache.Page)
  : PageCache.Page :=
  PageCache.mkPage
    (bytes ++ skipn (List.length bytes) (PageCache.mData page))
    (PageCache.mSize page).

(** The second half of [fetchInternal]: one read of the source into a page
    and what becomes of the page. *)
Definition fetchPage (e : FetchEnv) (s : t) : t * list Event :=
  let (page0, cache) := PageCache.acquirePage (mCache s) in
  let at_ := s64 (u64 (mCacheOffset s + PageCache.totalSize cache)) in
  let page := storeBytes (readBytes e) page0 in
  let n := readResult e in
  let s1 :=
    if (n =? 0) || mDisconnecting s then
      set_mCache (PageCache.releasePage page cache)
        (set_mFinalStatus ERROR_END_OF_STREAM (set_mNumRetriesLeft 0 s))
    else if n <? 0 then
      let s' := set_mFinalStatus (s32 n) s in
      let s'' :=
        if (n =? ERROR_UNSUPPORTED) || (n =? - EPIPE)
        then set_mNumRetriesLeft 0 s'
        else s' in
      set_mCache (PageCache.releasePage page cache) s''
    else
      set_mCache
        (PageCache.appendPage
           (PageCache.mkPage (PageCache.mData page) (u64 n)) cache)
        (set_mFinalStatus OK (set_mNumRetriesLeft kMaxNumRetries s)) in
  (s1, [SourceRead at_ kPageSize]).

(** [fetchInternal]; [None] when its [CHECK] fails. *)
Definition fetchInternal (e : FetchEnv) (s : t) : option (t * list Event) :=
  if negb ((mFinalStatus s =? OK) || (mNumRetriesLeft s >? 0)) then None
  else
    let reconnect := negb (mFinalStatus s =? OK) in
    let s1 :=
      if reconnect
      then set_mNumRetriesLeft (s32 (mNumRetriesLeft s - 1)) s
      else s in
    if reconnect && negb (mSuspended s1) then
      let at_ :=
        s64 (u64 (mCacheOffset s1 + PageCache.totalSize (mCache s1))) in
      let err := reconnectErr e in
      let s2 := set_mQueryAndSetProxy (reconnectProxy e) s1 in
      let s3 :=
        if mIsProxyConfigured s2 && negb (mQueryAndSetProxy s2)
           && mDisconnectAtHighwatermark s2
        then set_mKeepAliveIntervalUs 0 s2
        else s2 in
      let s4 := set_mIsProxyConfigured (mQueryAndSetProxy s3) s3 in
      if mDisconnecting s4 then
        Some (set_mFinalStatus ERROR_END_OF_STREAM
                (set_mNumRetriesLeft 0 s4),
              [SourceReconnect at_])
      else if (err =? ERROR_UNSUPPORTED) || (err =? - EPIPE) then
        Some (set_mNumRetriesLeft 0 s4, [SourceReconnect at_])
      else if negb (err =? OK) then
        Some (s4, [SourceReconnect at_])
      else
        let (s5, events) := fetchPage e s4 in
        Some (s5, SourceReconnect at_ :: events)
    else Some (fetchPage e s1).

(** The delay after which [onFetch] posts itself again. *)
Definition fetchDelayUs (s : t) : Z :=
  if mFetching s then
    if negb (mFinalStatus s =? OK) && (mNumRetriesLeft s >? 0)
    then 3000000
    else 0
  else 100000.

(** [onFetch]: one activation of the prefetcher. *)
Definition onFetch (e : FetchEnv) (s : t) : option (t * list Event) :=
  let s1 := if exhausted s then set_mFetching false s else s in
  let s2 :=
    if (negb (mFinalStatus s1 =? OK) && (mNumRetriesLeft s1 >? 0))
       && mIsProxyConfigured s1
    then set_mQueryAndSetProxy true s1
    else s1 in
  let keepAlive :=
    negb (mFetching s2)
    && (mFinalStatus s2 =? OK)
    && (mKeepAliveIntervalUs s2 >? 0)
    && (nowAtCheck e
        >=? s64 (mLastFetchTimeUs s2 + mKeepAliveIntervalUs s2)) in
  let fetched :=
    if mFetching s2 || keepAlive then
      match fetchInternal e s2 with
      | None => None
      | Some (s3, events) =>
          let s4 := set_mLastFetchTimeUs (nowAfterFetch e) s3 in
          if mFetching s4
             && (PageCache.totalSize (mCache s4)
                 >=? mHighwaterThresholdBytes s4)
          then
            let s5 := set_mFetching false s4 in
            if mDisconnectAtHighwatermark s5 && sourceIsHTTP e
               && negb (mIsProxyConfigured s5)
            then Some (set_mFinalStatus (- EAGAIN) s5,
                       events ++ [SourceDisconnect])
            else Some (s5, events)
          else Some (s4, events)
      end
    else Some (restartPrefetcherIfNecessary_l false false s2, []) in
  match fetched with
  | None => None
  | Some (s6, events) =>
      let delayUs := fetchDelayUs s6 in
      if mSuspended s6
      then Some (set_mFinalStatus (- EAGAIN) s6,
                 events ++ [SourceDisconnect])
      else Some (s6, events ++ [PostFetch delayUs])
  end.

(** A run of activations, each with the answers of its collaborators. *)
Fixpoint runFetches (envs : list FetchEnv) (s : t) : option t :=
  match envs with
  | [] => Some s
  | e :: rest =>
      match onFetch e s with
      | Some (s', _) => runFetches rest s'
      | None => None
      end
  end.

(** The engine each time [fetchInternal] releases [mLock]: at the end of
    its first block, at the end of the block of the reconnect, which is
    also where it returns when the reconnect fails, and at its end.  The
    members of the proxy are set between the first two without the lock. *)
Definition fetchInternalUnlocks (e : FetchEnv) (s : t) : list t :=
  if negb ((mFinalStatus s =? OK) || (mNumRetriesLeft s >? 0)) then []
  else
    let reconnect := negb (mFinalStatus s =? OK) in
    let s1 :=
      if reconnect
      then set_mNumRetriesLeft (s32 (mNumRetriesLeft s - 1)) s
      else s in
    if reconnect && negb (mSuspended s1) then
      let err := reconnectErr e in
      let s2 := set_mQueryAndSetProxy (reconnectProxy e) s1 in
      let s3 :=
        if mIsProxyConfigured s2 && negb (mQueryAndSetProxy s2)
           && mDisconnectAtHighwatermark s2
        then set_mKeepAliveIntervalUs 0 s2
        else s2 in
      let s4 := set_mIsProxyConfigured (mQueryAndSetProxy s3) s3 in
      if mDisconnecting s4 then
        [s1; set_mFinalStatus ERROR_END_OF_STREAM (set_mNumRetriesLeft 0 s4)]
      else if (err =? ERROR_UNSUPPORTED) || (err =? - EPIPE) then
        [s1; set_mNumRetriesLeft 0 s4]
      else if negb (err =? OK) then [s1; s4]
      else [s1; s4; fst (fetchPage e s4)]
    else [s1; fst (fetchPage e s1)].

(** The engine each time an activation of [onFetch] releases [mLock]: in
    [fetchInternal], or else after the restart of the prefetcher.  The
    rest of [onFetch] runs without the lock. *)
Definition onFetchUnlocks (e : FetchEnv) (s : t) : list t :=
  let s1 := if exhausted s then set_mFetching false s else s in
  let s2 :=
    if (negb (mFinalStatus s1 =? OK) && (mNumRetriesLeft s1 >? 0))
       && mIsProxyConfigured s1
    then set_mQueryAndSetProxy true s1
    else s1 in
  let keepAlive :=
    negb (mFetching s2)
    && (mFinalStatus s2 =? OK)
    && (mKeepAliveIntervalUs s2 >? 0)
    && (nowAtCheck e
        >=? s64 (mLastFetchTimeUs s2 + mKeepAliveIntervalUs s2)) in
  if mFetching s2 || keepAlive then fetchInternalUnlocks e s2
  else [restartPrefetcherIfNecessary_l false false s2].

(** The engine at every release of [mLock] during a run of activations. *)
Fixpoint runUnlocks (envs : list FetchEnv) (s : t) : list t :=
  match envs with
  | [] => []
  | e :: rest =>
      onFetchUnlocks e s
      ++ match onFetch e s with
         | Some (s', _) => runUnlocks rest s'
         | None => []
         end
  end.

(** *** Reading *)

(** [seekInternal_l]; [None] when [CHECK_EQ] fails. *)
Definition seekInternal_l (offset : Z) (s : t) : option (Z * t) :=
  let s1 := set_mLastAccessPos offset s in
  if (offset >=? mCacheOffset s1)
     && (offset
         <=? s64 (u64 (mCacheOffset s1 + PageCache.totalSize (mCache s1))))
  then Some (OK, s1)
  else
    let s2 := set_mCacheOffset offset s1 in
    let totalSize := PageCache.totalSize (mCache s2) in
    let (released, cache) :=
      PageCache.releaseFromStart totalSize (mCache s2) in
    if released =? totalSize
    then Some (OK,
               set_mFetching true
                 (set_mNumRetriesLeft kMaxNumRetries (set_mCache cache s2)))
    else None.

Definition kPadding : Z := 256 * 1024.

(** The end of [readInternal], from the computation of [delta] on: the
    value returned and the bytes stored at [data]; [None] when a [CHECK]
    of [copy] fails. *)
Definition readCached (offset size : Z) (s : t) : option (Z * list byte) :=
  let delta := u64 (offset - mCacheOffset s) in
  let total := PageCache.totalSize (mCache s) in
  if exhausted s then
    if delta >=? total then Some (mFinalStatus s, [])
    else
      let avail := u64 (total - delta) in
      let avail := if avail >? size then size else avail in
      match PageCache.copy delta avail (mCache s) with
      | Some bytes => Some (s64 avail, bytes)
      | None => None
      end
  else if u64 (offset + size) <=? u64 (mCacheOffset s + total) then
    match PageCache.copy delta size (mCache s) with
    | Some bytes => Some (s64 size, bytes)
    | None => None
    end
  else Some (- EAGAIN, []).

(** [readInternal]: the value returned, the bytes stored at [data] and the
    engine afterwards; [None] when a [CHECK] fails. *)
Definition readInternal (offset size : Z) (s : t)
  : option (Z * list byte * t) :=
  if negb (size <=? mHighwaterThresholdBytes s) then None
  else
    let s1 :=
      if negb (mFetching s)
      then restartPrefetcherIfNecessary_l false true
             (set_mLastAccessPos offset s)
      else s in
    let sought :=
      if (offset <? mCacheOffset s1)
         || (offset
             >=? s64 (u64 (mCacheOffset s1
                           + PageCache.totalSize (mCache s1))))
      then
        let seekOffset :=
          if offset >? kPadding then s64 (offset - kPadding) else 0 in
        match seekInternal_l seekOffset s1 with
        | Some (_, s') => Some s'
        | None => None
        end
      else Some s1 in
    match sought with
    | None => None
    | Some s2 =>
        match readCached offset size s2 with
        | Some (result, bytes) => Some (result, bytes, s2)
        | None => None
        end
    end.

(** [onRead]: the handler of a READ message. *)
Definition onRead (offset size : Z) (s : t)
  : option (list byte * t * list Event) :=
  match readInternal offset size s with
  | None => None
  | Some (result, bytes, s1) =>
      if (result =? - EAGAIN) && negb (mDisconnecting s1)
         && negb (mSuspended s1)
      then Some (bytes, s1, [PostRead offset size 50000])
      else if mDisconnecting s1 then Some (bytes, s1, [Signal])
      else
        match mAsyncResult s1 with
        | Some _ => None
        | None =>
            Some (bytes, set_mAsyncResult (Some (s32 result)) s1, [Signal])
        end
  end.

(** How a call of [readAt] leaves its first critical section: it has
    returned, or it has posted a READ message and waits on the condition,
    or a [CHECK] has failed. *)
Inductive ReadAt : Type :=
| Returned (result : Z) (bytes : list byte) (s : t)
| Waiting (s : t) (events : list Event)
| Aborted.

(** [readAt] up to its wait. *)
Definition readAt (offset size : Z) (s : t) : ReadAt :=
  if mDisconnecting s then Returned ERROR_END_OF_STREAM [] s
  else if (offset >=? mCacheOffset s)
          && (u64 (offset + size)
              <=? u64 (mCacheOffset s + PageCache.totalSize (mCache s)))
  then
    let delta := u64 (offset - mCacheOffset s) in
    match PageCache.copy delta size (mCache s) with
    | Some bytes =>
        Returned (s64 size) bytes (set_mLastAccessPos (s64 (offset + size)) s)
    | None => Aborted
    end
  else
    match mAsyncResult s with
    | None => Waiting s [PostRead offset size 0]
    | Some _ => Aborted
    end.

(** [readAt] from its wait on: what the waiter does when it holds the lock
    again.  [None] when it goes back to waiting. *)
Definition readAtWake (offset : Z) (s : t) : option (Z * t) :=
  match mAsyncResult s, mDisconnecting s with
  | None, false => None
  | _, true => Some (ERROR_END_OF_STREAM, set_mAsyncResult None s)
  | Some result, false =>
      let s1 := set_mAsyncResult None s in
      if result >? 0
      then Some (result, set_mLastAccessPos (s64 (offset + result)) s1)
      else Some (result, s1)
  end.

(** [cachedSize] *)
Definition cachedSize (s : t) : Z :=
  u64 (mCacheOffset s + PageCache.totalSize (mCache s)).

(** [approxDataRemaining_l]: the value returned and the status stored
    through [finalStatus]. *)
Definition approxDataRemaining_l (s : t) : Z * Z :=
  let finalStatus :=
    if negb (mFinalStatus s =? OK) && (mNumRetriesLeft s >? 0)
    then OK
    else mFinalStatus s in
  let lastBytePosCached :=
    s64 (u64 (mCacheOffset s + PageCache.totalSize (mCache s))) in
  if mLastAccessPos s <? lastBytePosCached
  then (u64 (lastBytePosCached - mLastAccessPos s), finalStatus)
  else (0, finalStatus).

(** *** Flags *)

Section Flags.

(** The enumerators of [DataSource::Flags] that [flags] names; they are
    declared in [DataSource.h], which is not among the sources. *)
Variables kWantsPrefetching kIsCachingDataSource kIsHTTPBasedSource : Z.

(** [flags]: the argument is what the source's [flags] returns. *)
Definition flags (sourceFlags : Z) : Z :=
  let flags :=
    Z.land sourceFlags
      (u32 (Z.lnot (Z.lor kWantsPrefetching kIsHTTPBasedSource))) in
  Z.lor flags (u32 kIsCachingDataSource).

End Flags.

(** *** Headers *)

(** The headers are a [KeyedVector] of strings.  [utils/KeyedVector.h] is
    not among the sources: a vector of pairs, with the three operations
    [RemoveCacheSpecificHeaders] uses.  [indexOfKey] yields no index where
    the container yields a negative one. *)
Definition KeyedVector : Type := list (string * string).

Fixpoint indexOfKey (key : string) (v : KeyedVector) : option nat :=
  match v with
  | [] => None
  | (k, _) :: rest =>
      if String.eqb k key then Some 0%nat
      else match indexOfKey key rest with
           | Some index => Some (S index)
           | None => None
           end
  end.

Definition valueAt (index : nat) (v : KeyedVector) : string :=
  snd (nth index v (EmptyString, EmptyString)).

Fixpoint removeItemsAt (index : nat) (v : KeyedVector) : KeyedVector :=
  match v with
  | [] => []
  | item :: rest =>
      match index with
      | O => rest
      | S index' => item :: removeItemsAt index' rest
      end
  end.

(** [RemoveCacheSpecificHeaders]: the headers afterwards ([None] for a
    [NULL] pointer), and what is stored through [cacheConfig] and
    [disconnectAtHighwatermark]. *)
Definition RemoveCacheSpecificHeaders (headers : option KeyedVector)
  : option KeyedVector * string * bool :=
  match headers with
  | None => (None, EmptyString, false)
  | Some h =>
      let (h1, cacheConfig) :=
        match indexOfKey "x-cache-config" h with
        | Some index => (removeItemsAt index h, valueAt index h)
        | None => (h, EmptyString)
        end in
      let (h2, disconnectAtHighwatermark) :=
        match indexOfKey "x-disconnect-at-highwatermark" h1 with
        | Some index => (removeItemsAt index h1, true)
        | None => (h1, false)
        end in
      (Some h2, cacheConfig, disconnectAtHighwatermark)
  end.

End NuCachedSource2.

(** * Well-formed caches and engines *)

Import PageCache.

(** The bytes the active pages stand for: of each page, its first [mSize]
    bytes. *)
Definition pageBytes (page : Page) : list byte :=
  firstn (Z.to_nat (mSize page)) (mData page).

Definition pagesBytes (pages : list Page) : list byte :=
  flat_map pageBytes pages.

Fixpoint sumSizes (pages : list Page) : Z :=
  match pages with
  | [] => 0
  | page :: rest => mSize page + sumSizes rest
  end.

(** A page's fill lies within its buffer. *)
Definition pageOk (page : Page) : Prop :=
  0 <= mSize page <= Z.of_nat (List.length (mData page)).

(** The invariant of [PageCache]: [mTotalSize] is the sum of the fills of
    the active pages. *)
Definition cacheOk (c : PageCache.t) : Prop :=
  Forall pageOk (mActivePages c) /\ mTotalSize c = sumSizes (mActivePages c).

Import NuCachedSource2.

(** The bytes in the cache, the first of them at offset [mCacheOffset]. *)
Definition cachedBytes (s : NuCachedSource2.t) : list byte :=
  pagesBytes (mActivePages (mCache s)).

(** The offsets of the window are file offsets: they do not leave the
    non-negative half of [off64_t]. *)
Definition windowOk (s : NuCachedSource2.t) : Prop :=
  cacheOk (mCache s)
  /\ 0 <= mCacheOffset s
  /\ mCacheOffset s + totalSize (mCache s) < 2 ^ 63.

(** What a run of activations of the prefetcher keeps when keep-alive is
    off: the window is well formed and no page holds more than
    [kPageSize] bytes, the retries are in range, the prefetcher runs only
    below the high-water mark, and the cache exceeds the mark by a page
    at most.  For this no restart of the prefetcher may set it running at
    or above the mark: either the reader is within [kGrayArea] of the
    start of the cache, where nothing restarts, or the watermarks are far
    enough apart for a restart to leave less than the high-water mark. *)
Definition fetchInvariant (s : NuCachedSource2.t) : Prop :=
  windowOk s
  /\ Forall (fun page => mSize page <= kPageSize) (mActivePages (mCache s))
  /\ mKeepAliveIntervalUs s <= 0
  /\ 0 <= mNumRetriesLeft s <= kMaxNumRetries
  /\ (mFetching s = true ->
      totalSize (mCache s) < mHighwaterThresholdBytes s)
  /\ totalSize (mCache s) <= mHighwaterThresholdBytes s + kPageSize
  /\ (u64 (mLastAccessPos s - mCacheOffset s) < kGrayArea
      \/ (mCacheOffset s <= mLastAccessPos s < 2 ^ 63
          /\ 0 <= mLowwaterThresholdBytes s
          /\ mLowwaterThresholdBytes s + kGrayArea + kPageSize
             <= mHighwaterThresholdBytes s)).

(** What an activation of the prefetcher leaves alone, and what it may do
    to the keep-alive period, the retries and the size of the cache. *)
Definition fetchStep (e : FetchEnv) (s s' : NuCachedSource2.t) : Prop :=
  mCacheOffset s' = mCacheOffset s
  /\ mLastAccessPos s' = mLastAccessPos s
  /\ mFetching s' = mFetching s
  /\ mHighwaterThresholdBytes s' = mHighwaterThresholdBytes s
  /\ (mKeepAliveIntervalUs s' = mKeepAliveIntervalUs s
      \/ mKeepAliveIntervalUs s' = 0)
  /\ (0 <= mNumRetriesLeft s <= kMaxNumRetries ->
      0 <= mNumRetriesLeft s' <= kMaxNumRetries)
  /\ (totalSize (mCache s') = totalSize (mCache s)
      \/ (0 < readResult e
          /\ totalSize (mCache s')
             = u64 (totalSize (mCache s) + u64 (readResult e)))).

(** A page as [releasePage] leaves it. *)
Definition emptied (page : Page) : Page := mkPage (mData page) 0.

(** The key of an entry of the headers is neither of the two keys that
    [RemoveCacheSpecificHeaders] takes out. *)
Definition passesThrough (item : string * string) : bool :=
  negb (String.eqb (fst item) "x-cache-config")
  && negb (String.eqb (fst item) "x-disconnect-at-highwatermark").

(** The value the headers give for a key, if any. *)
Fixpoint headerOf (key : string) (v : KeyedVector) : option string :=
  match v with
  | [] => None
  | (k, value) :: rest =>
      if String.eqb k key then Some value else headerOf key rest
  end.

(** Events that call the upstream source for data. *)
Definition asksSource (ev : Event) : bool :=
  match ev with
  | SourceReconnect _ | SourceRead _ _ => true
  | _ => false
  end.

Definition isPostFetch (ev : Event) : bool :=
  match ev with
  | PostFetch _ => true
  | _ => false
  end.

Definition isReconnect (ev : Event) : bool :=
  match ev with
  | SourceReconnect _ => true
  | _ => false
  end.

(** * Example engines *)

(** What the collaborators answer when the source delivers [bytes] at time
    [now]; the source is HTTP based and no reconnect takes place. *)
Definition delivers (now : Z) (bytes : list byte) : FetchEnv :=
  mkFetchEnv now now true OK false (Z.of_nat (List.length bytes)) bytes.

(** The engine after a run of activations. *)
Definition afterFetches (envs : list FetchEnv) (s : NuCachedSource2.t)
  : NuCachedSource2.t :=
  match runFetches envs s with
  | Some s' => s'
  | None => s
  end.

(** The engine as the constructor leaves it when no property is set, no
    configuration is passed and the source is read through no proxy. *)
Definition defaultEngine : NuCachedSource2.t :=
  fst (NuCachedSource2.new "" "" None false false).

(** A page that holds [bytes] at the start of its buffer. *)
Definition pageOf (bytes : list byte) : Page :=
  mkPage
    (bytes ++ repeat x00 (Z.to_nat (kPageSize - Z.of_nat (List.length bytes))))
    (Z.of_nat (List.length bytes)).

(** The engine after two short reads of the source, of ["abcdefg"] and of
    ["hij"]: two pages, ten bytes. *)
Definition smallEngine : NuCachedSource2.t :=
  NuCachedSource2.mk
    (PageCache.mk kPageSize 10
       [pageOf [x61; x62; x63; x64; x65; x66; x67]; pageOf [x68; x69; x6a]]
       [])
    0 OK 0 None true false 0 kMaxNumRetries
    kDefaultHighWaterThreshold kDefaultLowWaterThreshold
    kDefaultKeepAliveIntervalUs false false false false.

(** A page of the source, full. *)
Definition fullPage : list byte := repeat x00 (Z.to_nat kPageSize).

(** The engine built with the configuration ["1/1088/15"] (low water
    1 KiB, high water 17 pages) once seventeen full pages have filled the
    cache and the prefetcher has stopped at the high-water mark, with the
    last access at [pos]. *)
Definition filledEngine (pos : Z) : NuCachedSource2.t :=
  NuCachedSource2.mk
    (PageCache.mk kPageSize (17 * kPageSize)
       (repeat (mkPage fullPage kPageSize) 17) [])
    0 OK pos None false false 0 kMaxNumRetries
    (1088 * 1024) 1024 15000000 false false false false.

(** An engine without the contents of its buffers: the fills of the
    active pages, the number of free pages, and every other member. *)
Definition outline (s : NuCachedSource2.t) :=
  (map mSize (mActivePages (mCache s)),
   List.length (mFreePages (mCache s)),
   (mPageSize (mCache s), mTotalSize (mCache s)),
   (mCacheOffset s, mFinalStatus s, mLastAccessPos s, mAsyncResult s),
   (mFetching s, mDisconnecting s, mLastFetchTimeUs s, mNumRetriesLeft s),
   (mHighwaterThresholdBytes s, mLowwaterThresholdBytes s,
    mKeepAliveIntervalUs s),
   (mDisconnectAtHighwatermark s, mIsProxyConfigured s,
    mQueryAndSetProxy s, mSuspended s)).

(** The engine after a seek to offset 737856, one read of ["abcdefg"] and
    the end of the stream, with the last access at [pos]. *)
Definition endedEngine (pos : Z) : NuCachedSource2.t :=
  NuCachedSource2.mk
    (PageCache.mk kPageSize 7
       [pageOf [x61; x62; x63; x64; x65; x66; x67]] [pageOf []])
    737856 ERROR_END_OF_STREAM pos None false false 0 0
    kDefaultHighWaterThreshold kDefaultLowWaterThreshold
    kDefaultKeepAliveIntervalUs false false false false.

(** An engine at rest with ten bytes cached from offset 100 on and the
    last access at [pos]; with [pos] below 100 it is what [readInternal]
    hands to the eviction when a read lies before the window. *)
Definition idleEngine (pos : Z) : NuCachedSource2.t :=
  set_mLastAccessPos pos
    (set_mFetching false (set_mCacheOffset 100 smallEngine)).

(** Boolean comparisons among the hypotheses, as propositions. *)
Ltac zbool :=
  repeat match goal with
  | H : (_ >? _) = _ |- _ => rewrite Z.gtb_ltb in H
  | H : (_ >=? _) = _ |- _ => rewrite Z.geb_leb in H
  | H : (_ <? _) = true |- _ => apply Z.ltb_lt in H
  | H : (_ <? _) = false |- _ => apply Z.ltb_ge in H
  | H : (_ <=? _) = true |- _ => apply Z.leb_le in H
  | H : (_ <=? _) = false |- _ => apply Z.leb_gt in H
  | H : (_ =? _) = true |- _ => apply Z.eqb_eq in H
  | H : (_ =? _) = false |- _ => apply Z.eqb_neq in H
  end.

(** The members of an engine written as a chain of assignments. *)
Ltac fields :=
  cbn [fst snd
       mCache mCacheOffset mFinalStatus mLastAccessPos mAsyncResult
       mFetching mDisconnecting mLastFetchTimeUs mNumRetriesLeft
       mHighwaterThresholdBytes mLowwaterThresholdBytes
       mKeepAliveIntervalUs mDisconnectAtHighwatermark mIsProxyConfigured
       mQueryAndSetProxy mSuspended
       set_mCache set_mCacheOffset set_mFinalStatus set_mLastAccessPos
       set_mAsyncResult set_mFetching set_mDisconnecting
       set_mLastFetchTimeUs set_mNumRetriesLeft
       set_mHighwaterThresholdBytes set_mLowwaterThresholdBytes
       set_mKeepAliveIntervalUs set_mDisconnectAtHighwatermark
       set_mIsProxyConfigured set_mQueryAndSetProxy set_mSuspended
       totalSize mTotalSize mActivePages mFreePages mPageSize
       appendPage releasePage mSize mData] in *.

(** * Machine integers: conversions that change nothing *)

Lemma u64_small (x : Z) : 0 <= x < 2 ^ 64 -> u64 x = x.
Proof. intros H. unfold u64. now apply Z.mod_small. Qed.

Lemma s64_small (x : Z) : - 2 ^ 63 <= x < 2 ^ 63 -> s64 x = x.
Proof.
  intros H. unfold s64. rewrite Z.mod_small; lia.
Qed.

Lemma s32_small (x : Z) : - 2 ^ 31 <= x < 2 ^ 31 -> s32 x = x.
Proof.
  intros H. unfold s32. rewrite Z.mod_small; lia.
Qed.

Lemma s64_u64 (x : Z) : s64 (u64 x) = s64 x.
Proof.
  unfold s64, u64.
  rewrite Zplus_mod_idemp_l. reflexivity.
Qed.

Lemma u64_range (x : Z) : 0 <= u64 x < 2 ^ 64.
Proof. unfold u64. apply Z.mod_pos_bound. lia. Qed.

Lemma u64_le (x : Z) : 0 <= x -> u64 x <= x.
Proof. intros H. unfold u64. apply Z.mod_le; lia. Qed.

(** The difference of two offsets, the first below the second, as a
    [size_t]. *)
Lemma u64_negative (x : Z) : - 2 ^ 64 <= x < 0 -> u64 x = x + 2 ^ 64.
Proof.
  intros H. unfold u64.
  rewrite <- (Z.mod_add x 1 (2 ^ 64)) by lia.
  rewrite Z.mod_small; lia.
Qed.

(** * PageCache *)

Lemma sumSizes_nonneg (pages : list Page) :
  Forall pageOk pages -> 0 <= sumSizes pages.
Proof.
  induction 1 as [|p l Hp _ IH]; simpl; [lia|].
  unfold pageOk in Hp. lia.
Qed.

Lemma pageBytes_length (page : Page) :
  pageOk page -> Z.of_nat (List.length (pageBytes page)) = mSize page.
Proof.
  unfold pageOk, pageBytes. intros H.
  rewrite length_firstn. lia.
Qed.

Lemma pagesBytes_length (pages : list Page) :
  Forall pageOk pages ->
  Z.of_nat (List.length (pagesBytes pages)) = sumSizes pages.
Proof.
  induction 1 as [|p l Hp _ IH]; simpl; [reflexivity|].
  rewrite length_app, Nat2Z.inj_add, IH, pageBytes_length; auto.
Qed.

Lemma memcpy_pageBytes (page : Page) (from n : Z) :
  0 <= from -> 0 <= n -> from + n <= mSize page ->
  memcpy page from n
  = firstn (Z.to_nat n) (skipn (Z.to_nat from) (pageBytes page)).
Proof.
  intros Hf Hn Hle. unfold memcpy, pageBytes.
  rewrite skipn_firstn_comm, firstn_firstn.
  f_equal. lia.
Qed.

(** The last loop of [copy] yields the first [size] bytes of the pages it
    walks. *)
Lemma copyRest_correct (it : list Page) :
  forall size : Z,
    Forall pageOk it -> sumSizes it < 2 ^ 64 ->
    0 <= size <= sumSizes it ->
    copyRest it size = Some (firstn (Z.to_nat size) (pagesBytes it)).
Proof.
  induction it as [|p rest IH]; intros size Hok Hsum Hsize; simpl in *.
  - assert (size = 0) by lia. subst. reflexivity.
  - inversion Hok as [|? ? Hp Hrest]; subst.
    pose proof (sumSizes_nonneg rest Hrest) as Hnn.
    pose proof (pageBytes_length p Hp) as Hlen.
    destruct Hp as [Hp0 Hp1].
    destruct (size >? 0) eqn:Hpos.
    2:{ zbool. assert (size = 0) by lia. subst. reflexivity. }
    destruct (mSize p >? size) eqn:Hcmp; zbool.
    + rewrite Z.sub_diag. change (u64 0) with 0.
      rewrite IH by (auto; lia). simpl. rewrite app_nil_r.
      rewrite memcpy_pageBytes by lia. simpl.
      rewrite firstn_app.
      replace (Z.to_nat size - List.length (pageBytes p))%nat with 0%nat
        by lia.
      simpl. now rewrite app_nil_r.
    + rewrite u64_small by lia.
      rewrite IH by (auto; lia).
      rewrite memcpy_pageBytes by lia. simpl.
      rewrite firstn_app. f_equal. f_equal.
      * transitivity (pageBytes p);
          [apply firstn_all2 | symmetry; apply firstn_all2]; lia.
      * f_equal. f_equal. lia.
Qed.

(** The first loop of [copy] stops at the page that holds the byte at
    [from], with [offset] the logical offset of that page. *)
Lemma copySeek_correct (it : list Page) :
  forall from offset : Z,
    Forall pageOk it -> 0 <= offset -> offset + sumSizes it < 2 ^ 64 ->
    offset <= from < offset + sumSizes it ->
    exists page rest offset',
      copySeek it from offset = Some (page :: rest, offset')
      /\ Forall pageOk (page :: rest)
      /\ offset' <= from < offset' + mSize page
      /\ 0 <= offset'
      /\ offset' + sumSizes (page :: rest) = offset + sumSizes it
      /\ skipn (Z.to_nat (from - offset)) (pagesBytes it)
         = skipn (Z.to_nat (from - offset')) (pagesBytes (page :: rest)).
Proof.
  induction it as [|p rest IH]; intros from offset Hok Hoff Hsum Hfrom;
    simpl in *.
  - lia.
  - inversion Hok as [|? ? Hp Hrest]; subst.
    pose proof (sumSizes_nonneg rest Hrest) as Hnn.
    pose proof (pageBytes_length p Hp) as Hlen.
    destruct Hp as [Hp0 Hp1].
    rewrite u64_small by lia.
    destruct (from >=? offset + mSize p) eqn:Hcmp; zbool.
    + destruct (IH from (offset + mSize p) Hrest) as
        (page & rest' & offset' & Hseek & Hok' & Hin & Hpos & Hsum' & Hskip);
        try lia.
      exists page, rest', offset'. repeat split; auto; try lia.
      rewrite <- Hskip. rewrite skipn_app.
      rewrite skipn_all2 by lia. simpl.
      f_equal. lia.
    + exists p, rest, offset. repeat split; auto; try lia.
Qed.

(** [copy] yields the [size] bytes at logical offset [from] of the
    cache. *)
Lemma copy_correct (c : PageCache.t) (from size : Z) :
  cacheOk c -> mTotalSize c < 2 ^ 64 ->
  0 <= from -> 0 <= size -> from + size <= mTotalSize c ->
  copy from size c
  = Some (firstn (Z.to_nat size)
            (skipn (Z.to_nat from) (pagesBytes (mActivePages c)))).
Proof.
  intros [Hok Htotal] Hlt Hfrom Hsize Hle. unfold copy.
  destruct (size =? 0) eqn:Hz; zbool.
  { subst. reflexivity. }
  rewrite u64_small by lia.
  replace (from + size <=? mTotalSize c) with true
    by (symmetry; apply Z.leb_le; lia).
  simpl.
  destruct (copySeek_correct (mActivePages c) from 0 Hok) as
    (page & rest & offset & Hseek & Hok' & Hin & Hpos & Hsum & Hskip);
    try lia.
  rewrite Hseek. rewrite Z.sub_0_r in Hskip. rewrite Hskip.
  inversion Hok' as [|? ? Hp Hrest]; subst.
  pose proof (sumSizes_nonneg rest Hrest) as Hnn.
  pose proof (pageBytes_length page Hp) as Hlen.
  destruct Hp as [Hp0 Hp1]. simpl in Hsum.
  rewrite (u64_small (from - offset)) by lia.
  rewrite (u64_small (mSize page - (from - offset))) by lia.
  simpl pagesBytes. rewrite skipn_app.
  replace (Z.to_nat (from - offset) - List.length (pageBytes page))%nat
    with 0%nat by lia.
  simpl skipn at 2.
  assert (Hlskip :
    Z.of_nat (List.length (skipn (Z.to_nat (from - offset)) (pageBytes page)))
    = mSize page - (from - offset)) by (rewrite length_skipn; lia).
  destruct (mSize page - (from - offset) >=? size) eqn:Hcmp; zbool.
  - rewrite memcpy_pageBytes by lia.
    rewrite firstn_app.
    replace (Z.to_nat size
             - List.length (skipn (Z.to_nat (from - offset))
                              (pageBytes page)))%nat
      with 0%nat by lia.
    simpl. now rewrite app_nil_r.
  - rewrite u64_small by lia.
    rewrite copyRest_correct by (auto; lia).
    rewrite memcpy_pageBytes by lia.
    rewrite firstn_app. f_equal. f_equal.
    + transitivity (skipn (Z.to_nat (from - offset)) (pageBytes page));
        [apply firstn_all2 | symmetry; apply firstn_all2]; lia.
    + f_equal. lia.
Qed.

(** [releaseFromStart] releases whole pages from the front: at most
    [maxBytes] bytes, everything when the budget covers the cache, and each
    page (also an empty one) when the budget exceeds it. *)
Lemma releaseLoop_spec (active : list Page) :
  forall (free : list Page) (maxBytes bytesReleased : Z),
    Forall pageOk active ->
    0 <= maxBytes < 2 ^ 64 -> 0 <= bytesReleased ->
    bytesReleased + sumSizes active < 2 ^ 64 ->
    exists active' free' n,
      releaseLoop active free maxBytes bytesReleased
      = (active', free', bytesReleased + n)
      /\ 0 <= n <= maxBytes /\ n <= sumSizes active
      /\ sumSizes active' = sumSizes active - n
      /\ Forall pageOk active'
      /\ pagesBytes active' = skipn (Z.to_nat n) (pagesBytes active)
      /\ (sumSizes active <= maxBytes -> n = sumSizes active)
      /\ (sumSizes active < maxBytes -> active' = []).
Proof.
  induction active as [|p rest IH];
    intros free maxBytes released Hok Hmax Hrel Hsum.
  - exists [], free, 0. cbn [releaseLoop sumSizes pagesBytes flat_map].
    rewrite Z.add_0_r. repeat split; auto; lia.
  - inversion Hok as [|? ? Hp Hrest]; subst.
    pose proof (sumSizes_nonneg rest Hrest) as Hnn.
    pose proof (pageBytes_length p Hp) as Hlen.
    destruct Hp as [Hp0 Hp1].
    cbn [releaseLoop sumSizes] in *.
    destruct (maxBytes >? 0) eqn:Hpos; zbool.
    2:{ exists (p :: rest), free, 0. cbn [sumSizes]. rewrite Z.add_0_r.
        repeat split; auto; lia. }
    destruct (maxBytes <? mSize p) eqn:Hcmp; zbool.
    { exists (p :: rest), free, 0. cbn [sumSizes]. rewrite Z.add_0_r.
      repeat split; auto; lia. }
    rewrite !u64_small by lia.
    destruct (IH (free ++ [mkPage (mData p) 0]) (maxBytes - mSize p)
                 (released + mSize p) Hrest)
      as (a' & f' & n & Hloop & Hn & Hle & Hsum' & Hok' & Hbytes & Hall & Hnil);
      try lia.
    exists a', f', (mSize p + n). rewrite Hloop, Z.add_assoc.
    repeat split; auto; try lia.
    + rewrite Hbytes. cbn [pagesBytes flat_map]. fold (pagesBytes rest).
      rewrite skipn_app, (@skipn_all2 _ _ (pageBytes p)) by lia.
      simpl. f_equal. lia.
    + intros H. apply Hnil. lia.
Qed.

Lemma releaseFromStart_spec (c : PageCache.t) (maxBytes : Z) :
  cacheOk c -> mTotalSize c < 2 ^ 64 -> 0 <= maxBytes < 2 ^ 64 ->
  exists c' n,
    releaseFromStart maxBytes c = (n, c')
    /\ 0 <= n <= maxBytes /\ n <= mTotalSize c
    /\ mTotalSize c' = mTotalSize c - n
    /\ mPageSize c' = mPageSize c
    /\ cacheOk c'
    /\ pagesBytes (mActivePages c')
       = skipn (Z.to_nat n) (pagesBytes (mActivePages c))
    /\ (mTotalSize c <= maxBytes -> n = mTotalSize c)
    /\ (mTotalSize c < maxBytes -> mActivePages c' = []).
Proof.
  intros [Hok Htotal] Hlt Hmax. unfold releaseFromStart.
  destruct (releaseLoop_spec (mActivePages c) (mFreePages c) maxBytes 0 Hok)
    as (a' & f' & n & Hloop & Hn & Hle & Hsum' & Hok' & Hbytes & Hall & Hnil);
    try lia.
  rewrite Hloop. rewrite Z.add_0_l.
  exists (PageCache.mk (mPageSize c) (u64 (mTotalSize c - n)) a' f'), n.
  cbn [mTotalSize mPageSize mActivePages].
  rewrite u64_small by lia.
  repeat split; auto; try lia.
  all: cbn [mTotalSize mActivePages]; rewrite ?Htotal in *; auto; lia.
Qed.

(** * The engine *)

Lemma windowOk_total (s : NuCachedSource2.t) :
  windowOk s -> 0 <= totalSize (mCache s) < 2 ^ 63.
Proof.
  intros ((Hok & Htotal) & Hoff & Hend). unfold totalSize in *.
  pose proof (sumSizes_nonneg _ Hok). lia.
Qed.

(** C2: a call of [readAt] made while [mDisconnecting] is false, for a
    request that lies inside the window, returns [size], stores at [data]
    the cached bytes of the offsets from [offset] to [offset + size], sets
    [mLastAccessPos] to [offset + size] and changes no other member. *)
Theorem readAt_fast_path (offset size : Z) (s : NuCachedSource2.t) :
  windowOk s -> 0 <= size ->
  mDisconnecting s = false ->
  mCacheOffset s <= offset ->
  offset + size <= mCacheOffset s + totalSize (mCache s) ->
  readAt offset size s
  = Returned size
      (firstn (Z.to_nat size)
         (skipn (Z.to_nat (offset - mCacheOffset s)) (cachedBytes s)))
      (set_mLastAccessPos (offset + size) s).
Proof.
  intros Hw Hsize Hdis Hlo Hhi.
  pose proof (windowOk_total s Hw) as Htot.
  destruct Hw as (Hc & Hoff & Hend).
  unfold readAt. unfold totalSize in *. rewrite Hdis.
  rewrite !u64_small by lia.
  replace (offset >=? mCacheOffset s) with true
    by (symmetry; rewrite Z.geb_leb; apply Z.leb_le; lia).
  replace (offset + size <=? mCacheOffset s + mTotalSize (mCache s))
    with true by (symmetry; apply Z.leb_le; lia).
  cbn [andb].
  rewrite copy_correct by (auto; lia).
  rewrite !s64_small by lia.
  reflexivity.
Qed.

Lemma pageOf_ok (bytes : list byte) :
  Z.of_nat (List.length bytes) <= kPageSize -> pageOk (pageOf bytes).
Proof.
  intros H. unfold pageOk, pageOf. cbn [mSize mData].
  rewrite length_app, repeat_length. lia.
Qed.

(** [smallEngine] is what two activations of the prefetcher make of the
    engine the constructor builds. *)
Example smallEngine_reached :
  afterFetches
    [delivers 0 [x61; x62; x63; x64; x65; x66; x67];
     delivers 0 [x68; x69; x6a]]
    defaultEngine
  = smallEngine.
Proof. vm_cast_no_check (eq_refl smallEngine). Qed.

Lemma smallEngine_ok : windowOk smallEngine.
Proof.
  unfold windowOk, cacheOk, smallEngine.
  cbn [mCache mActivePages mTotalSize mCacheOffset totalSize].
  repeat split; try (cbn; lia).
  repeat constructor; apply pageOf_ok; cbn; unfold kPageSize; lia.
Qed.

Lemma readAt_fast_path_witness :
  readAt 2 6 smallEngine
  = Returned 6 [x63; x64; x65; x66; x67; x68]
      (set_mLastAccessPos 8 smallEngine).
Proof.
  apply (readAt_fast_path 2 6 smallEngine).
  - exact smallEngine_ok.
  - lia.
  - reflexivity.
  - cbn. lia.
  - cbn. lia.
Defined.

(** [seekInternal_l] on a well-formed window: inside the window (its end
    included) it only moves [mLastAccessPos]; elsewhere it empties the
    cache and restarts the prefetcher at [offset]. *)
Lemma seekInternal_l_cases (offset : Z) (s : NuCachedSource2.t) :
  windowOk s -> - 2 ^ 63 <= offset < 2 ^ 63 ->
  (mCacheOffset s <= offset <= mCacheOffset s + totalSize (mCache s)
   /\ seekInternal_l offset s = Some (OK, set_mLastAccessPos offset s))
  \/ (~ mCacheOffset s <= offset <= mCacheOffset s + totalSize (mCache s)
      /\ exists cache,
          seekInternal_l offset s
          = Some (OK,
                  set_mFetching true
                    (set_mNumRetriesLeft kMaxNumRetries
                       (set_mCache cache
                          (set_mCacheOffset offset
                             (set_mLastAccessPos offset s)))))
          /\ totalSize cache = 0
          /\ pagesBytes (mActivePages cache) = []
          /\ cacheOk cache).
Proof.
  intros Hw Hoff.
  pose proof (windowOk_total s Hw) as Htot.
  destruct Hw as (Hc & Hlo & Hend).
  unfold seekInternal_l, totalSize in *.
  cbn [mCacheOffset set_mLastAccessPos mCache set_mCacheOffset].
  rewrite s64_u64, s64_small by lia.
  destruct (offset >=? mCacheOffset s) eqn:H1;
    destruct (offset <=? mCacheOffset s + mTotalSize (mCache s)) eqn:H2;
    zbool; cbn [andb].
  1: left; split; [lia | reflexivity].
  all: right; split; [lia|].
  all: destruct (releaseFromStart_spec (mCache s) (mTotalSize (mCache s)) Hc)
         as (c' & n & Hrel & Hn & Hle & Htotal' & Hps & Hok' & Hbytes
             & Hall & _); try lia.
  all: rewrite Hrel; rewrite (Hall (Z.le_refl _)) in *.
  all: rewrite Z.eqb_refl; exists c'; repeat split; auto; try lia.
  all: try apply Hok'.
  all: rewrite Hbytes; apply skipn_all2.
  all: destruct Hc as [Hpages Hsum];
    pose proof (pagesBytes_length _ Hpages); lia.
Qed.

(** C3: [seekInternal_l] sets [mLastAccessPos] to [offset]; when [offset]
    lies in the window, its end included, it changes nothing else and
    returns [OK]; otherwise it sets [mCacheOffset] to [offset], releases
    every byte of the cache, sets [mNumRetriesLeft] to [kMaxNumRetries] and
    [mFetching] to true. *)
Theorem seekInternal_l_spec (offset : Z) (s : NuCachedSource2.t) :
  windowOk s -> - 2 ^ 63 <= offset < 2 ^ 63 ->
  exists s',
    seekInternal_l offset s = Some (OK, s')
    /\ mLastAccessPos s' = offset
    /\ (mCacheOffset s <= offset <= mCacheOffset s + totalSize (mCache s) ->
        s' = set_mLastAccessPos offset s)
    /\ (~ mCacheOffset s <= offset <= mCacheOffset s + totalSize (mCache s) ->
        exists cache,
          s' = set_mFetching true
                 (set_mNumRetriesLeft kMaxNumRetries
                    (set_mCache cache
                       (set_mCacheOffset offset
                          (set_mLastAccessPos offset s))))
          /\ mCacheOffset s' = offset
          /\ totalSize (mCache s') = 0
          /\ cachedBytes s' = []
          /\ mNumRetriesLeft s' = kMaxNumRetries
          /\ mFetching s' = true).
Proof.
  intros Hw Hoff.
  destruct (seekInternal_l_cases offset s Hw Hoff)
    as [[Hin Hseek] | (Hout & cache & Hseek & Htotal & Hbytes & Hok)];
    rewrite Hseek; eexists; split; try reflexivity.
  - repeat split; auto. intros H. contradiction.
  - repeat split; auto; try contradiction.
    intros _. exists cache. repeat split; auto.
Qed.

Lemma seekInternal_l_spec_witness :
  exists s',
    seekInternal_l 500 smallEngine = Some (OK, s')
    /\ mLastAccessPos s' = 500
    /\ mCacheOffset s' = 500
    /\ totalSize (mCache s') = 0
    /\ mFetching s' = true.
Proof.
  destruct (seekInternal_l_spec 500 smallEngine smallEngine_ok)
    as (s' & Hseek & Hlast & _ & Hout); [lia|].
  destruct Hout as (cache & _ & Hoff & Htotal & _ & _ & Hfetch);
    [cbn; lia|].
  exists s'. repeat split; assumption.
Defined.

(** When [releaseFromStart] releases [mTotalSize] bytes, none is left. *)
Lemma releaseFromStart_total (maxBytes : Z) (c : PageCache.t) :
  fst (releaseFromStart maxBytes c) = mTotalSize c ->
  mTotalSize (snd (releaseFromStart maxBytes c)) = 0.
Proof.
  unfold releaseFromStart.
  destruct (releaseLoop (mActivePages c) (mFreePages c) maxBytes 0)
    as [[active free] released].
  cbn [fst snd mTotalSize]. intros ->. now rewrite Z.sub_diag.
Qed.

(** C9: [seekInternal_l] run twice at the same offset leaves the engine
    as the first run leaves it; and on a well-formed window the first run
    does return. *)
Theorem seekInternal_l_idempotent (offset : Z) (s : NuCachedSource2.t) :
  - 2 ^ 63 <= offset < 2 ^ 63 ->
  (forall r s',
      seekInternal_l offset s = Some (r, s') ->
      seekInternal_l offset s' = Some (r, s'))
  /\ (windowOk s -> exists s', seekInternal_l offset s = Some (OK, s')).
Proof.
  intros Hoff. split.
  - intros r s'. unfold seekInternal_l at 1.
    cbn [mCacheOffset mCache set_mLastAccessPos set_mCacheOffset].
    destruct ((offset >=? mCacheOffset s)
              && (offset
                  <=? s64 (u64 (mCacheOffset s + totalSize (mCache s)))))
      eqn:Hin.
    + (* the second run reads the members the first one left alone *)
      intros [= <- <-]. unfold seekInternal_l.
      cbn [mCacheOffset mCache set_mLastAccessPos]. now rewrite Hin.
    + pose proof (releaseFromStart_total (totalSize (mCache s)) (mCache s))
        as Hzero.
      destruct (releaseFromStart (totalSize (mCache s)) (mCache s))
        as [released cache].
      cbn [fst snd] in Hzero.
      destruct (released =? totalSize (mCache s)) eqn:Hall; [|discriminate].
      zbool. intros [= <- <-].
      unfold seekInternal_l, totalSize.
      cbn [mCacheOffset mCache set_mLastAccessPos set_mFetching
           set_mNumRetriesLeft set_mCache set_mCacheOffset].
      rewrite (Hzero Hall), Z.add_0_r, s64_u64, s64_small by lia.
      replace (offset >=? offset) with true
        by (symmetry; rewrite Z.geb_leb; apply Z.leb_refl).
      rewrite Z.leb_refl. reflexivity.
  - intros Hw.
    destruct (seekInternal_l_cases offset s Hw Hoff)
      as [[_ Hseek] | (_ & cache & Hseek & _)];
      rewrite Hseek; eexists; reflexivity.
Qed.

Lemma seekInternal_l_idempotent_witness :
  exists s',
    seekInternal_l 500 smallEngine = Some (OK, s')
    /\ seekInternal_l 500 s' = Some (OK, s').
Proof.
  destruct (seekInternal_l_idempotent 500 smallEngine) as [Htwice Hruns];
    [lia|].
  destruct (Hruns smallEngine_ok) as [s' Hseek].
  exists s'. split; [exact Hseek | exact (Htwice OK s' Hseek)].
Defined.

(** C7: [approxDataRemaining_l] returns the number of cached bytes past
    [mLastAccessPos], or none when there is none, and stores the engine's
    [mFinalStatus] through [finalStatus], except that a status other than
    [OK] held while retries are left is stored as [OK]. *)
Theorem approxDataRemaining_l_spec (s : NuCachedSource2.t) :
  windowOk s -> - 2 ^ 63 <= mLastAccessPos s < 2 ^ 63 ->
  fst (approxDataRemaining_l s)
  = Z.max 0 (mCacheOffset s + totalSize (mCache s) - mLastAccessPos s)
  /\ (mFinalStatus s <> OK -> 0 < mNumRetriesLeft s ->
      snd (approxDataRemaining_l s) = OK)
  /\ (mFinalStatus s = OK \/ mNumRetriesLeft s <= 0 ->
      snd (approxDataRemaining_l s) = mFinalStatus s).
Proof.
  intros Hw Hlast.
  pose proof (windowOk_total s Hw) as Htot.
  destruct Hw as (Hc & Hlo & Hend).
  unfold approxDataRemaining_l, totalSize in *.
  rewrite s64_u64, s64_small by lia.
  split; [|split].
  - destruct (mLastAccessPos s <? mCacheOffset s + mTotalSize (mCache s))
      eqn:Hcmp; zbool; cbn [fst].
    + rewrite u64_small by lia. lia.
    + lia.
  - intros Hne Hpos.
    replace (mFinalStatus s =? OK) with false
      by (symmetry; apply Z.eqb_neq; exact Hne).
    replace (mNumRetriesLeft s >? 0) with true
      by (symmetry; rewrite Z.gtb_ltb; apply Z.ltb_lt; exact Hpos).
    cbn [negb andb].
    destruct (mLastAccessPos s <? _); reflexivity.
  - intros Hcase.
    assert (Hstatus :
      (if negb (mFinalStatus s =? OK) && (mNumRetriesLeft s >? 0)
       then OK else mFinalStatus s) = mFinalStatus s).
    { destruct (mFinalStatus s =? OK) eqn:Hok; zbool; cbn [negb andb].
      - reflexivity.
      - destruct (mNumRetriesLeft s >? 0) eqn:Hr; zbool; [lia|reflexivity]. }
    rewrite Hstatus.
    destruct (mLastAccessPos s <? _); reflexivity.
Qed.

Lemma approxDataRemaining_l_spec_witness :
  fst (approxDataRemaining_l (set_mLastAccessPos 8 smallEngine)) = 2.
Proof.
  apply (approxDataRemaining_l_spec (set_mLastAccessPos 8 smallEngine)).
  - exact smallEngine_ok.
  - cbn. lia.
Defined.

(** ** Disconnect *)

(** C4, as stated, fails for a source that is not HTTP based: [disconnect]
    leaves [mDisconnecting] false and signals nothing, and a caller that
    waits in [readAt] goes on waiting. *)
Lemma disconnect_counterexample :
  readAt 0 16 defaultEngine = Waiting defaultEngine [PostRead 0 16 0]
  /\ mDisconnecting (fst (disconnect false defaultEngine)) = false
  /\ snd (disconnect false defaultEngine) = []
  /\ readAtWake 0 (fst (disconnect false defaultEngine)) = None.
Proof. vm_compute. repeat split. Qed.

(** C4, amended: for a source that is HTTP based, [disconnect] sets
    [mDisconnecting], signals the condition and disconnects the source, and
    a caller that waits in [readAt] returns [ERROR_END_OF_STREAM]; for any
    other source it changes nothing.  In both cases a second [disconnect]
    leaves the engine as the first left it. *)
Theorem disconnect_spec (s : NuCachedSource2.t) (offset : Z) (http : bool) :
  disconnect true s = (set_mDisconnecting true s, [Signal; SourceDisconnect])
  /\ mDisconnecting (fst (disconnect true s)) = true
  /\ readAtWake offset (fst (disconnect true s))
     = Some (ERROR_END_OF_STREAM,
             set_mAsyncResult None (fst (disconnect true s)))
  /\ disconnect false s = (s, [])
  /\ fst (disconnect http (fst (disconnect http s)))
     = fst (disconnect http s).
Proof.
  repeat split.
  - unfold readAtWake. cbn. destruct (mAsyncResult s); reflexivity.
  - destruct http; reflexivity.
Qed.

(** ** Configuration *)

Lemma s64_range (x : Z) : - 2 ^ 63 <= s64 x < 2 ^ 63.
Proof.
  unfold s64. pose proof (Z.mod_pos_bound (x + 2 ^ 63) (2 ^ 64)). lia.
Qed.

Lemma s32_range (x : Z) : - 2 ^ 31 <= s32 x < 2 ^ 31.
Proof.
  unfold s32. pose proof (Z.mod_pos_bound (x + 2 ^ 31) (2 ^ 32)). lia.
Qed.

(** [scanTokens] matches three numbers at most. *)
Lemma scanTokens_length (str : string) :
  (List.length (scanTokens str) <= 3)%nat.
Proof.
  unfold scanTokens.
  destruct (scanInt str) as [[a s1]|]; [|cbn; lia].
  destruct (scanSlash s1) as [s2|]; [|cbn; lia].
  destruct (scanInt s2) as [[b s3]|]; [|cbn; lia].
  destruct (scanSlash s3) as [s4|]; [|cbn; lia].
  destruct (scanInt s4) as [[c s5]|]; cbn; lia.
Qed.

Lemma strtoimax_range (v : Z) : - 2 ^ 63 <= strtoimax v < 2 ^ 63.
Proof. unfold strtoimax. lia. Qed.

Lemma strtoimax_small (v : Z) :
  - 2 ^ 63 <= v < 2 ^ 63 -> strtoimax v = v.
Proof. unfold strtoimax. lia. Qed.

(** The values [sscanf] stores fit their variables. *)
Lemma sscanf_zd_zd_d_range (str : string) (lo hi ka : Z) :
  sscanf_zd_zd_d str = [lo; hi; ka] ->
  - 2 ^ 63 <= lo < 2 ^ 63 /\ - 2 ^ 63 <= hi < 2 ^ 63
  /\ - 2 ^ 31 <= ka < 2 ^ 31.
Proof.
  unfold sscanf_zd_zd_d.
  destruct (scanTokens str) as [|a [|b [|c rest]]]; try discriminate.
  intros [= <- <- <-].
  auto using s64_range, s32_range.
Qed.

(** [sscanf] stores three values when the format matches three numbers. *)
Lemma sscanf_zd_zd_d_length (str : string) :
  List.length (sscanf_zd_zd_d str) = List.length (scanTokens str).
Proof.
  pose proof (scanTokens_length str) as Hlen.
  unfold sscanf_zd_zd_d.
  destruct (scanTokens str) as [|a [|b [|c [|d rest]]]]; cbn in *;
    try reflexivity; lia.
Qed.

(** C8, as stated, fails for a string that lacks a token: ["10/20"] has
    two tokens that are not negative, yet the low-water mark is not set
    from the first; and after the property ["1/2/1"] has set a keep-alive
    of one second, the configuration ["10/20"], where that token is
    absent, does not bring the default back. *)
Lemma updateCacheParamsFromString_counterexample :
  sscanf_zd_zd_d "10/20" = [10; 20]
  /\ mLowwaterThresholdBytes
       (updateCacheParamsFromString "10/20" defaultEngine)
     <> 10 * 1024
  /\ mKeepAliveIntervalUs
       (fst (NuCachedSource2.new "1/2/1" "" (Some "10/20"%string)
               false false))
     <> kDefaultKeepAliveIntervalUs.
Proof. vm_compute. repeat split; discriminate. Qed.

(** A number too large for its variable is not stored as written: the
    conversion gives the largest [intmax_t], whose low half, stored in the
    [int], is [-1], so that a keep-alive of 2^63 seconds yields the
    default; and a low-water mark of 2^64 + 1 KiB, stored as the largest
    [ssize_t], makes both watermarks revert. *)
Example updateCacheParamsFromString_saturates :
  sscanf_zd_zd_d "1/2/9223372036854775808" = [1; 2; -1]
  /\ mKeepAliveIntervalUs
       (updateCacheParamsFromString "1/2/9223372036854775808" defaultEngine)
     = kDefaultKeepAliveIntervalUs
  /\ sscanf_zd_zd_d "18446744073709551617/2/3"
     = [9223372036854775807; 2; 3]
  /\ mLowwaterThresholdBytes
       (updateCacheParamsFromString "18446744073709551617/2/3"
          defaultEngine)
     = kDefaultLowWaterThreshold
  /\ mHighwaterThresholdBytes
       (updateCacheParamsFromString "18446744073709551617/2/3"
          defaultEngine)
     = kDefaultHighWaterThreshold.
Proof. vm_compute. repeat split. Qed.

(** C8, amended: when the format matches all three numbers, with
    [lo * 1024] and [hi * 1024] fitting [ssize_t] and [ka] fitting [int],
    a number that is not negative sets its parameter ([lo * 1024] and
    [hi * 1024] bytes, [ka] seconds kept in microseconds), a negative
    number yields the default of its parameter, and watermarks with the
    low one not below the high one both revert to their defaults; when the
    format matches fewer than three numbers, no parameter changes. *)
Theorem updateCacheParamsFromString_spec (str : string)
    (s : NuCachedSource2.t) :
  (forall lo hi ka : Z,
      scanTokens str = [lo; hi; ka] ->
      lo * 1024 < 2 ^ 63 -> hi * 1024 < 2 ^ 63 ->
      - 2 ^ 31 <= ka < 2 ^ 31 ->
      let lowwater := if lo >=? 0 then lo * 1024
                      else kDefaultLowWaterThreshold in
      let highwater := if hi >=? 0 then hi * 1024
                       else kDefaultHighWaterThreshold in
      let keepAlive := if ka >=? 0 then ka * 1000000
                       else kDefaultKeepAliveIntervalUs in
      updateCacheParamsFromString str s
      = set_mKeepAliveIntervalUs keepAlive
          (set_mHighwaterThresholdBytes
             (if lowwater >=? highwater then kDefaultHighWaterThreshold
              else highwater)
             (set_mLowwaterThresholdBytes
                (if lowwater >=? highwater then kDefaultLowWaterThreshold
                 else lowwater)
                s)))
  /\ (List.length (scanTokens str) <> 3%nat ->
      updateCacheParamsFromString str s = s).
Proof.
  split.
  - intros lo hi ka Hscan Hlo Hhi Hka.
    unfold updateCacheParamsFromString, sscanf_zd_zd_d. rewrite Hscan.
    rewrite (strtoimax_small ka) by lia.
    rewrite (s32_small ka) by lia.
    rewrite (s64_small (ka * 1000000)) by lia.
    pose proof (strtoimax_range lo) as Hlo'.
    pose proof (strtoimax_range hi) as Hhi'.
    rewrite (s64_small (strtoimax lo)), (s64_small (strtoimax hi)) by lia.
    assert (Hsl : (strtoimax lo >=? 0) = (lo >=? 0)).
    { unfold strtoimax. destruct (lo >=? 0) eqn:H; zbool;
        [apply Z.geb_le | rewrite Z.geb_leb; apply Z.leb_gt]; lia. }
    assert (Hsh : (strtoimax hi >=? 0) = (hi >=? 0)).
    { unfold strtoimax. destruct (hi >=? 0) eqn:H; zbool;
        [apply Z.geb_le | rewrite Z.geb_leb; apply Z.leb_gt]; lia. }
    rewrite Hsl, Hsh.
    destruct (lo >=? 0) eqn:Hl; destruct (hi >=? 0) eqn:Hh; zbool;
      rewrite ?(strtoimax_small lo), ?(strtoimax_small hi) by lia;
      rewrite ?u64_small by lia;
      cbn [mLowwaterThresholdBytes mHighwaterThresholdBytes
           set_mLowwaterThresholdBytes set_mHighwaterThresholdBytes];
      cbv zeta.
    all: repeat match goal with
                | |- context [if ?b then _ else _] => destruct b
                end; reflexivity.
  - intros Hlen. rewrite <- sscanf_zd_zd_d_length in Hlen.
    unfold updateCacheParamsFromString.
    destruct (sscanf_zd_zd_d str) as [|a [|b [|c [|d l]]]];
      try reflexivity.
    now contradiction Hlen.
Qed.

Lemma updateCacheParamsFromString_spec_witness :
  updateCacheParamsFromString "1/2/-1" defaultEngine
  = set_mKeepAliveIntervalUs kDefaultKeepAliveIntervalUs
      (set_mHighwaterThresholdBytes 2048
         (set_mLowwaterThresholdBytes 1024 defaultEngine))
  /\ updateCacheParamsFromString "10/20" defaultEngine = defaultEngine.
Proof.
  split.
  - apply (proj1 (updateCacheParamsFromString_spec "1/2/-1" defaultEngine)
             1 2 (-1)).
    + reflexivity.
    + lia.
    + lia.
    + lia.
  - apply (proj2 (updateCacheParamsFromString_spec "10/20" defaultEngine)).
    vm_compute. intros H. discriminate H.
Defined.

(** ** Eviction *)

(** [filledEngine] is reached: the constructor, seventeen activations of
    the prefetcher and one read from the cache lead to an engine with its
    members and page fills; the pages hold what the source delivered. *)
Example filledEngine_reached :
  match
    readAt 1048576 1024
      (afterFetches (repeat (delivers 0 fullPage) 17)
         (fst (NuCachedSource2.new "" "" (Some "1/1088/15"%string)
                 false false)))
  with
  | Returned 1024 _ s => outline s = outline (filledEngine 1049600)
  | _ => False
  end.
Proof. vm_compute. reflexivity. Qed.

(** [endedEngine] is reached: a read far ahead makes the constructor's
    engine seek, the source delivers seven bytes and then ends, and the
    next activation puts the prefetcher to rest. *)
Example endedEngine_reached :
  match readInternal 1000000 16 defaultEngine with
  | Some (_, _, s) =>
      afterFetches
        [delivers 0 [x61; x62; x63; x64; x65; x66; x67];
         delivers 0 []; delivers 0 []]
        s
  | None => defaultEngine
  end
  = endedEngine 737856.
Proof. vm_cast_no_check (eq_refl (endedEngine 737856)). Qed.

(** What an eviction with a budget of [maxBytes] makes of the engine. *)
Lemma releaseFromStart_window (s : NuCachedSource2.t) (maxBytes : Z) :
  windowOk s -> 0 <= maxBytes < 2 ^ 64 ->
  exists cache actual,
    releaseFromStart maxBytes (mCache s) = (actual, cache)
    /\ 0 <= actual <= maxBytes
    /\ actual <= totalSize (mCache s)
    /\ totalSize cache = totalSize (mCache s) - actual
    /\ pagesBytes (mActivePages cache)
       = skipn (Z.to_nat actual) (cachedBytes s)
    /\ s64 (u64 (mCacheOffset s + actual)) = mCacheOffset s + actual
    /\ windowOk
         (set_mFetching true
            (set_mCacheOffset (mCacheOffset s + actual) (set_mCache cache s)))
    /\ (totalSize (mCache s) < maxBytes ->
        mActivePages cache = [] /\ actual = totalSize (mCache s)).
Proof.
  intros Hw Hmax.
  pose proof (windowOk_total s Hw) as Htot.
  destruct Hw as (Hc & Hlo & Hend). unfold totalSize in *.
  destruct (releaseFromStart_spec (mCache s) maxBytes Hc)
    as (c' & n & Hrel & Hn & Hle & Htotal' & Hps & Hok' & Hbytes
        & Hall & Hnil); try lia.
  exists c', n. rewrite Hrel.
  rewrite s64_u64, s64_small by lia.
  repeat split; auto; try lia; try apply Hok'.
  all: cbn [mCacheOffset mCache set_mFetching set_mCacheOffset set_mCache].
  all: unfold totalSize; lia.
Qed.


(** C6, as stated, fails when enough data lies ahead of the reader: in
    [filledEngine] the last access is more than [kGrayArea] past the start
    of the cache, the prefetcher is at rest and no error is latched, yet
    [restartPrefetcherIfNecessary_l] leaves [mFetching] false, since the
    bytes ahead are not below the low-water mark. *)
Lemma restartPrefetcherIfNecessary_l_counterexample :
  mFetching (filledEngine 1049600) = false
  /\ exhausted (filledEngine 1049600) = false
  /\ kGrayArea
     <= mLastAccessPos (filledEngine 1049600)
        - mCacheOffset (filledEngine 1049600)
  /\ mFetching
       (restartPrefetcherIfNecessary_l false false (filledEngine 1049600))
     = false.
Proof. vm_compute. repeat split. discriminate. Qed.

(** C6, amended: when [restartPrefetcherIfNecessary_l (false, false)]
    runs with the prefetcher at rest, no error latched and the last access
    inside the window, it leaves the engine alone if the bytes ahead of the
    last access are not below the low-water mark or the last access is
    less than [kGrayArea] past the start of the cache; otherwise it
    releases at most [mLastAccessPos - mCacheOffset - kGrayArea] bytes
    from the front, advances [mCacheOffset] by what it released, and sets
    [mFetching]. *)
Theorem restartPrefetcherIfNecessary_l_spec (s : NuCachedSource2.t) :
  windowOk s ->
  mFetching s = false -> exhausted s = false ->
  mCacheOffset s <= mLastAccessPos s
  <= mCacheOffset s + totalSize (mCache s) ->
  let behind := mLastAccessPos s - mCacheOffset s in
  let ahead := mCacheOffset s + totalSize (mCache s) - mLastAccessPos s in
  let s' := restartPrefetcherIfNecessary_l false false s in
  (mLowwaterThresholdBytes s <= ahead \/ behind < kGrayArea -> s' = s)
  /\ (ahead < mLowwaterThresholdBytes s -> kGrayArea <= behind ->
      exists cache actual,
        s' = set_mFetching true
               (set_mCacheOffset (mCacheOffset s + actual)
                  (set_mCache cache s))
        /\ 0 <= actual <= behind - kGrayArea
        /\ totalSize cache = totalSize (mCache s) - actual
        /\ cachedBytes s' = skipn (Z.to_nat actual) (cachedBytes s)
        /\ mCacheOffset s' + totalSize (mCache s')
           = mCacheOffset s + totalSize (mCache s)
        /\ mFetching s' = true).
Proof.
  intros Hw Hfetch Hexh Hpos behind ahead s'.
  pose proof (windowOk_total s Hw) as Htot.
  assert (Hgray : kGrayArea = 1048576) by reflexivity.
  subst s'. unfold restartPrefetcherIfNecessary_l.
  rewrite Hfetch, Hexh. cbn [orb negb andb].
  destruct Hw as (Hc & Hlo & Hend).
  rewrite !u64_small by (unfold totalSize in *; lia).
  fold ahead behind.
  destruct (ahead >=? mLowwaterThresholdBytes s) eqn:Hlow; zbool.
  { split; [reflexivity | lia]. }
  destruct (behind <? kGrayArea) eqn:Hbehind; zbool.
  { split; [reflexivity | lia]. }
  split; [lia|]. intros _ _.
  rewrite u64_small by (unfold behind, totalSize in *; lia).
  destruct (releaseFromStart_window s (behind - kGrayArea))
    as (cache & actual & Hrel & Hn & Hle & Htotal & Hbytes & Hoff & _ & _).
  { unfold windowOk. auto. }
  { unfold behind, totalSize in *. lia. }
  rewrite Hrel, Hoff. exists cache, actual.
  repeat split; auto; try lia.
  cbn [mCacheOffset mCache set_mFetching set_mCacheOffset set_mCache].
  lia.
Qed.

Lemma filledEngine_ok (pos : Z) : windowOk (filledEngine pos).
Proof.
  unfold windowOk, cacheOk, filledEngine.
  cbn [mCache mActivePages mTotalSize mCacheOffset totalSize].
  repeat split; try (cbn; lia).
  apply Forall_forall. intros page Hin.
  apply repeat_spec in Hin. subst page.
  unfold pageOk, fullPage. cbn [mSize mData].
  rewrite repeat_length. unfold kPageSize. lia.
Qed.

Lemma restartPrefetcherIfNecessary_l_spec_witness :
  exists cache actual,
    restartPrefetcherIfNecessary_l false false (filledEngine 1114112)
    = set_mFetching true
        (set_mCacheOffset actual (set_mCache cache (filledEngine 1114112)))
    /\ 0 <= actual <= 65536.
Proof.
  destruct (restartPrefetcherIfNecessary_l_spec (filledEngine 1114112))
    as [_ Hevict].
  - apply filledEngine_ok.
  - reflexivity.
  - reflexivity.
  - cbn. lia.
  - destruct Hevict as (cache & actual & Heq & Hactual & _).
    + cbn. lia.
    + cbn. lia.
    + exists cache, actual. split; [exact Heq | cbn in Hactual; lia].
Defined.

(** C10, as stated, fails when an error is latched and no retry is left:
    in [endedEngine], with the last access put before the window as
    [readInternal] does, [restartPrefetcherIfNecessary_l] with [force]
    returns at its first test; the page stays active and [mCacheOffset]
    stays where it was. *)
Lemma restartPrefetcherIfNecessary_l_force_counterexample :
  mLastAccessPos (endedEngine 0) < mCacheOffset (endedEngine 0)
  /\ restartPrefetcherIfNecessary_l false true (endedEngine 0)
     = endedEngine 0
  /\ List.length (mActivePages (mCache (endedEngine 0))) = 1%nat
  /\ totalSize (mCache (endedEngine 0)) = 7
  /\ mCacheOffset
       (restartPrefetcherIfNecessary_l false true (endedEngine 0))
     <> mCacheOffset (endedEngine 0) + totalSize (mCache (endedEngine 0)).
Proof.
  repeat split; try reflexivity. vm_compute. discriminate.
Qed.

(** C10, amended: when [restartPrefetcherIfNecessary_l] runs with [force]
    while the prefetcher is at rest, no exhausted error is latched and
    [mLastAccessPos] lies below [mCacheOffset], the budget
    [mLastAccessPos - mCacheOffset] wraps around to more than [2 ^ 63]
    as a [size_t], every active page is released and [mCacheOffset]
    advances by the whole former [mTotalSize]. *)
Theorem restartPrefetcherIfNecessary_l_wraps
    (ignoreLowWaterThreshold : bool) (s : NuCachedSource2.t) :
  windowOk s ->
  mFetching s = false -> exhausted s = false ->
  0 <= mLastAccessPos s < mCacheOffset s ->
  let s' := restartPrefetcherIfNecessary_l ignoreLowWaterThreshold true s in
  u64 (mLastAccessPos s - mCacheOffset s)
  = 2 ^ 64 - (mCacheOffset s - mLastAccessPos s)
  /\ 2 ^ 63 < u64 (mLastAccessPos s - mCacheOffset s)
  /\ mActivePages (mCache s') = []
  /\ totalSize (mCache s') = 0
  /\ mCacheOffset s' = mCacheOffset s + totalSize (mCache s)
  /\ mFetching s' = true.
Proof.
  intros Hw Hfetch Hexh Hpos s'.
  pose proof (windowOk_total s Hw) as Htot.
  assert (Hbudget :
    u64 (mLastAccessPos s - mCacheOffset s)
    = 2 ^ 64 - (mCacheOffset s - mLastAccessPos s)).
  { destruct Hw as (_ & Hlo & Hend).
    rewrite u64_negative by lia. lia. }
  split; [exact Hbudget|].
  split; [destruct Hw as (_ & Hlo & Hend); lia|].
  subst s'. unfold restartPrefetcherIfNecessary_l.
  rewrite Hfetch, Hexh, andb_false_r. cbn [orb negb andb].
  destruct (releaseFromStart_window s
              (u64 (mLastAccessPos s - mCacheOffset s)) Hw)
    as (cache & actual & Hrel & Hn & Hle & Htotal & _ & Hoff & _ & Hall).
  { apply u64_range. }
  destruct Hall as [Hnil Hactual].
  { destruct Hw as (_ & Hlo & Hend). lia. }
  rewrite Hrel, Hoff.
  cbn [mCacheOffset mCache set_mFetching set_mCacheOffset set_mCache
       mFetching].
  repeat split; auto; lia.
Qed.

Lemma idleEngine_ok (pos : Z) : windowOk (idleEngine pos).
Proof.
  destruct smallEngine_ok as (Hc & _ & _).
  unfold windowOk. repeat split; try apply Hc; cbn; lia.
Qed.

Lemma restartPrefetcherIfNecessary_l_wraps_witness :
  mActivePages
    (mCache (restartPrefetcherIfNecessary_l false true (idleEngine 40)))
  = []
  /\ mCacheOffset (restartPrefetcherIfNecessary_l false true (idleEngine 40))
     = 110.
Proof.
  destruct (restartPrefetcherIfNecessary_l_wraps false (idleEngine 40))
    as (_ & _ & Hnil & _ & Hoff & _).
  - apply idleEngine_ok.
  - reflexivity.
  - reflexivity.
  - cbn. lia.
  - split; [exact Hnil | exact Hoff].
Defined.

(** ** Reading through the prefetcher's thread *)



Lemma endedEngine_ok (pos : Z) : windowOk (endedEngine pos).
Proof.
  unfold windowOk, cacheOk, endedEngine.
  cbn [mCache mActivePages mTotalSize mCacheOffset totalSize].
  repeat split; try (cbn; lia).
  repeat constructor; apply pageOf_ok; cbn; unfold kPageSize; lia.
Qed.

(** The four cases on engines at hand.  At the end of the stream a read
    inside the window is cut short and a read past it returns the latched
    status; before the end a read in the window is served and a read that
    leaves it is deferred. *)
Example readInternal_short_read :
  match readInternal 737858 16 (endedEngine 737856) with
  | Some (r, bytes, _) => r = 5 /\ bytes = [x63; x64; x65; x66; x67]
  | None => False
  end.
Proof. vm_compute. split; reflexivity. Qed.

Example readInternal_past_end :
  match
    readInternal 10 16
      (afterFetches [delivers 0 []; delivers 0 []] smallEngine)
  with
  | Some (r, bytes, _) => r = ERROR_END_OF_STREAM /\ bytes = []
  | None => False
  end.
Proof. vm_compute. split; reflexivity. Qed.

Example readInternal_served :
  match readInternal 2 6 smallEngine with
  | Some (r, bytes, _) => r = 6 /\ bytes = [x63; x64; x65; x66; x67; x68]
  | None => False
  end.
Proof. vm_compute. split; reflexivity. Qed.

Example readInternal_deferred :
  match readInternal 2 16 smallEngine with
  | Some (r, bytes, _) => r = - EAGAIN /\ bytes = []
  | None => False
  end.
Proof. vm_compute. split; reflexivity. Qed.

(** ** One step of the prefetcher *)

Lemma fetchPage_step (e : FetchEnv) (s : NuCachedSource2.t) :
  fetchStep e s (fst (fetchPage e s)).
Proof.
  assert (Hmax : kMaxNumRetries = 10) by reflexivity.
  unfold fetchPage, acquirePage.
  destruct (mFreePages (mCache s)) as [|page rest].
  all: destruct ((readResult e =? 0) || mDisconnecting s) eqn:Heos.
  all: try destruct (readResult e <? 0) eqn:Hneg.
  all: try destruct ((readResult e =? ERROR_UNSUPPORTED)
                     || (readResult e =? - EPIPE)).
  all: unfold fetchStep; fields; repeat split; auto; try lia.
  all: right; split; [|reflexivity].
  all: apply orb_false_iff in Heos; destruct Heos as [Hz _]; zbool; lia.
Qed.

(** An activation that changes neither window nor watermark before it
    reads the source. *)
Lemma fetchStep_after (e : FetchEnv) (s s1 s2 : NuCachedSource2.t) :
  mCacheOffset s1 = mCacheOffset s ->
  mLastAccessPos s1 = mLastAccessPos s ->
  mFetching s1 = mFetching s ->
  mHighwaterThresholdBytes s1 = mHighwaterThresholdBytes s ->
  totalSize (mCache s1) = totalSize (mCache s) ->
  mKeepAliveIntervalUs s1 = mKeepAliveIntervalUs s
  \/ mKeepAliveIntervalUs s1 = 0 ->
  (0 <= mNumRetriesLeft s <= kMaxNumRetries ->
   0 <= mNumRetriesLeft s1 <= kMaxNumRetries) ->
  fetchStep e s1 s2 -> fetchStep e s s2.
Proof.
  unfold fetchStep.
  intros Ho Hl Hf Hh Ht Hk Hr (Ho' & Hl' & Hf' & Hh' & Hk' & Hr' & Ht').
  rewrite Ho, Hl, Hf, Hh, Ht in *.
  repeat split; auto.
  all: try (destruct Hk as [Hk | Hk], Hk' as [Hk' | Hk'];
            rewrite ?Hk in *; now auto).
  all: match goal with
       | H : _ <= _ <= _ |- _ => destruct (Hr' (Hr H)); assumption
       end.
Qed.

Lemma fetchInternal_step (e : FetchEnv) (s : NuCachedSource2.t) :
  mFinalStatus s = OK \/ 0 < mNumRetriesLeft s ->
  exists s' events,
    fetchInternal e s = Some (s', events) /\ fetchStep e s s'.
Proof.
  intros Hcheck.
  assert (Hmax : kMaxNumRetries = 10) by reflexivity.
  unfold fetchInternal.
  replace ((mFinalStatus s =? OK) || (mNumRetriesLeft s >? 0)) with true.
  2:{ symmetry. apply orb_true_iff.
      destruct Hcheck as [H | H]; [left | right].
      - now apply Z.eqb_eq.
      - rewrite Z.gtb_ltb. now apply Z.ltb_lt. }
  cbn [negb].
  destruct (mFinalStatus s =? OK) eqn:Hok; zbool; cbn [negb andb].
  { (* no reconnect *)
    destruct (fetchPage e s) as [s' events] eqn:Hpage.
    exists s', events. split; [reflexivity|].
    change s' with (fst (s', events)). rewrite <- Hpage.
    apply fetchPage_step. }
  assert (Hpos : 0 < mNumRetriesLeft s) by (destruct Hcheck; [contradiction | assumption]).
  set (s1 := set_mNumRetriesLeft (s32 (mNumRetriesLeft s - 1)) s).
  assert (Hr1 : 0 <= mNumRetriesLeft s <= kMaxNumRetries ->
                0 <= mNumRetriesLeft s1 <= kMaxNumRetries).
  { intros Hr. subst s1. fields. rewrite s32_small; lia. }
  destruct (mSuspended s1) eqn:Hsusp; cbn [negb].
  { destruct (fetchPage e s1) as [s' events] eqn:Hpage.
    exists s', events. split; [reflexivity|].
    apply (fetchStep_after e s s1); auto.
    change s' with (fst (s', events)). rewrite <- Hpage.
    apply fetchPage_step. }
  match goal with
  | |- context [set_mIsProxyConfigured ?b ?s3] =>
      set (s4 := set_mIsProxyConfigured b s3)
  end.
  assert (H4 :
    mCacheOffset s4 = mCacheOffset s
    /\ mLastAccessPos s4 = mLastAccessPos s
    /\ mFetching s4 = mFetching s
    /\ mHighwaterThresholdBytes s4 = mHighwaterThresholdBytes s
    /\ totalSize (mCache s4) = totalSize (mCache s)
    /\ (mKeepAliveIntervalUs s4 = mKeepAliveIntervalUs s
        \/ mKeepAliveIntervalUs s4 = 0)
    /\ mNumRetriesLeft s4 = mNumRetriesLeft s1).
  { subst s4 s1.
    destruct (_ && mDisconnectAtHighwatermark _); fields;
      repeat split; auto. }
  destruct H4 as (Ho & Hl & Hf & Hh & Ht & Hk & Hr4).
  assert (Hstep : forall s',
    mCacheOffset s' = mCacheOffset s4 ->
    mLastAccessPos s' = mLastAccessPos s4 ->
    mFetching s' = mFetching s4 ->
    mHighwaterThresholdBytes s' = mHighwaterThresholdBytes s4 ->
    totalSize (mCache s') = totalSize (mCache s4) ->
    mKeepAliveIntervalUs s' = mKeepAliveIntervalUs s4 ->
    mNumRetriesLeft s' = mNumRetriesLeft s4 \/ mNumRetriesLeft s' = 0 ->
    fetchStep e s s').
  { intros s' Ho' Hl' Hf' Hh' Ht' Hk' Hr'. unfold fetchStep.
    rewrite Ho', Hl', Hf', Hh', Ht', Hk', Ho, Hl, Hf, Hh, Ht.
    repeat apply conj; auto. intros Hr. specialize (Hr1 Hr).
    destruct Hr' as [Hr' | Hr']; rewrite Hr', ?Hr4; lia. }
  destruct (mDisconnecting s4).
  { do 2 eexists. split; [reflexivity|]. apply Hstep; fields; auto. }
  destruct ((reconnectErr e =? ERROR_UNSUPPORTED)
            || (reconnectErr e =? - EPIPE)).
  { do 2 eexists. split; [reflexivity|]. apply Hstep; fields; auto. }
  destruct (negb (reconnectErr e =? OK)).
  { do 2 eexists. split; [reflexivity|]. apply Hstep; auto. }
  destruct (fetchPage e s4) as [s' events] eqn:Hpage.
  do 2 eexists. split; [reflexivity|].
  apply (fetchStep_after e s s4); auto.
  { intros Hr. rewrite Hr4. auto. }
  change s' with (fst (s', events)). rewrite <- Hpage.
  apply fetchPage_step.
Qed.

(** Below [kGrayArea] nothing is evicted and the prefetcher stays at
    rest. *)
Lemma restartPrefetcherIfNecessary_l_gray (s : NuCachedSource2.t) :
  u64 (mLastAccessPos s - mCacheOffset s) < kGrayArea ->
  restartPrefetcherIfNecessary_l false false s = s.
Proof.
  intros Hgray. unfold restartPrefetcherIfNecessary_l.
  destruct (mFetching s || exhausted s); [reflexivity|].
  destruct (negb false && negb false && _); [reflexivity|].
  replace (u64 (mLastAccessPos s - mCacheOffset s) <? kGrayArea) with true
    by (symmetry; apply Z.ltb_lt; exact Hgray).
  reflexivity.
Qed.

(** The configuration leaves a high-water mark above zero. *)
Lemma updateCacheParamsFromString_highwater (str : string)
    (s : NuCachedSource2.t) :
  0 < mHighwaterThresholdBytes s ->
  0 < mHighwaterThresholdBytes (updateCacheParamsFromString str s).
Proof.
  intros Hpos. unfold updateCacheParamsFromString.
  destruct (sscanf_zd_zd_d str) as [|lo [|hi [|ka [|x l]]]]; auto.
  assert (Hdef : 0 < kDefaultHighWaterThreshold) by reflexivity.
  assert (Hdef' : 0 <= kDefaultLowWaterThreshold) by discriminate.
  pose proof (u64_range (lo * 1024)).
  repeat match goal with
         | |- context [if ?b then _ else _] => destruct b eqn:?
         end; fields; zbool; lia.
Qed.

(** * Further properties of the code *)

(** ** PageCache *)

(** Past the last page the first loop of [copy] leaves the list. *)
Lemma copySeek_past (it : list Page) :
  forall from offset : Z,
    Forall pageOk it -> 0 <= offset -> offset + sumSizes it < 2 ^ 64 ->
    offset + sumSizes it <= from ->
    copySeek it from offset = None.
Proof.
  induction it as [|p rest IH]; intros from offset Hok Hoff Hsum Hfrom;
    simpl in *; [reflexivity|].
  inversion Hok as [|? ? Hp Hrest]; subst.
  pose proof (sumSizes_nonneg rest Hrest) as Hnn.
  destruct Hp as [Hp0 Hp1].
  rewrite u64_small by lia.
  replace (from >=? offset + mSize p) with true
    by (symmetry; apply Z.geb_le; lia).
  apply IH; auto; lia.
Qed.

(** With more to copy than the pages hold the last loop of [copy] leaves
    the list. *)
Lemma copyRest_short (it : list Page) :
  forall size : Z,
    Forall pageOk it -> sumSizes it < size < 2 ^ 64 ->
    copyRest it size = None.
Proof.
  induction it as [|p rest IH]; intros size Hok Hsize; simpl in *.
  - replace (size >? 0) with true
      by (symmetry; rewrite Z.gtb_ltb; apply Z.ltb_lt; lia).
    reflexivity.
  - inversion Hok as [|? ? Hp Hrest]; subst.
    pose proof (sumSizes_nonneg rest Hrest) as Hnn.
    destruct Hp as [Hp0 Hp1].
    replace (size >? 0) with true
      by (symmetry; rewrite Z.gtb_ltb; apply Z.ltb_lt; lia).
    replace (mSize p >? size) with false
      by (symmetry; rewrite Z.gtb_ltb; apply Z.ltb_ge; lia).
    rewrite u64_small.
    + rewrite IH by (auto; lia). reflexivity.
    + pose proof (sumSizes_nonneg rest Hrest). lia.
Qed.

(** X1: [copy] returns the bytes of a request inside the cache and of no
    other.  On a cache that satisfies its invariant, for every [from] and
    [size] of a [size_t], a request of no bytes stores nothing, whatever
    [from] is; a request with [from + size <= mTotalSize] stores the bytes
    at the logical offsets from [from] to [from + size]; and a request of
    [size > 0] bytes that ends past [mTotalSize] does not return: it fails
    the [CHECK_LE], or, when the sum [from + size] wraps around and passes
    the check, an iterator leaves the list of pages. *)
Theorem copy_checked (c : PageCache.t) (from size : Z) :
  cacheOk c -> mTotalSize c < 2 ^ 64 ->
  0 <= from < 2 ^ 64 -> 0 <= size < 2 ^ 64 ->
  (size = 0 -> copy from size c = Some [])
  /\ (0 < size -> mTotalSize c < from + size -> copy from size c = None)
  /\ (from + size <= mTotalSize c ->
      copy from size c
      = Some (firstn (Z.to_nat size)
                (skipn (Z.to_nat from) (pagesBytes (mActivePages c))))).
Proof.
  intros Hok Htotal Hfrom Hsize. split; [|split].
  - intros ->. reflexivity.
  - intros Hpos Hpast. unfold copy.
    replace (size =? 0) with false by (symmetry; apply Z.eqb_neq; lia).
    destruct (u64 (from + size) <=? mTotalSize c) eqn:Hcheck; zbool;
      [|reflexivity].
    cbn [negb].
    destruct Hok as [Hpages Hsum].
    destruct (Z.le_gt_cases (mTotalSize c) from) as [Hout | Hin].
    { rewrite copySeek_past; auto; lia. }
    destruct (copySeek_correct (mActivePages c) from 0 Hpages)
      as (page & rest & offset & Hseek & Hok' & Hat & Hoff & Hsum' & _);
      try lia.
    rewrite Hseek.
    inversion Hok' as [|? ? Hp Hrest]; subst.
    pose proof (sumSizes_nonneg rest Hrest) as Hnn.
    destruct Hp as [Hp0 Hp1]. simpl in Hsum'.
    rewrite (u64_small (from - offset)) by lia.
    rewrite (u64_small (mSize page - (from - offset))) by lia.
    replace (mSize page - (from - offset) >=? size) with false
      by (symmetry; rewrite Z.geb_leb; apply Z.leb_gt; lia).
    rewrite u64_small by lia.
    rewrite copyRest_short; auto; lia.
  - intros Hin. apply copy_correct; auto; lia.
Qed.

Lemma copy_checked_witness :
  copy 5 4 (mCache smallEngine) = Some [x66; x67; x68; x69]
  /\ copy 8 4 (mCache smallEngine) = None
  /\ (u64 (2 ^ 64 - 5 + 10) <=? mTotalSize (mCache smallEngine)) = true
  /\ copy (2 ^ 64 - 5) 10 (mCache smallEngine) = None.
Proof.
  destruct smallEngine_ok as (Hok & _ & _).
  split; [|split; [|split]].
  - apply (copy_checked (mCache smallEngine) 5 4); auto; cbn; lia.
  - apply (copy_checked (mCache smallEngine) 8 4); auto; cbn; lia.
  - reflexivity.
  - apply (copy_checked (mCache smallEngine) (2 ^ 64 - 5) 10);
      auto; cbn; lia.
Defined.

Lemma sumSizes_app (l1 l2 : list Page) :
  sumSizes (l1 ++ l2) = sumSizes l1 + sumSizes l2.
Proof.
  induction l1 as [|p l IH]; cbn [sumSizes app]; [reflexivity|].
  rewrite IH. lia.
Qed.

Lemma pagesBytes_app (l1 l2 : list Page) :
  pagesBytes (l1 ++ l2) = pagesBytes l1 ++ pagesBytes l2.
Proof. unfold pagesBytes. apply flat_map_app. Qed.

(** The loop of [releaseFromStart] takes a run of whole pages off the
    front and puts them, emptied, at the back of the free list. *)
Lemma releaseLoop_pages (active : list Page) :
  forall (free : list Page) (maxBytes bytesReleased : Z),
    Forall pageOk active ->
    0 <= maxBytes < 2 ^ 64 -> 0 <= bytesReleased ->
    bytesReleased + sumSizes active < 2 ^ 64 ->
    exists gone kept,
      active = gone ++ kept
      /\ releaseLoop active free maxBytes bytesReleased
         = (kept, free ++ map emptied gone, bytesReleased + sumSizes gone)
      /\ sumSizes gone <= maxBytes
      /\ match kept with
         | [] => True
         | page :: _ =>
             maxBytes - sumSizes gone = 0
             \/ maxBytes - sumSizes gone < mSize page
         end.
Proof.
  induction active as [|p rest IH];
    intros free maxBytes rel Hok Hmax Hrel Hsum.
  - exists [], []. cbn [releaseLoop sumSizes map app].
    rewrite app_nil_r, Z.add_0_r. repeat split; auto; lia.
  - inversion Hok as [|? ? Hp Hrest]; subst.
    pose proof (sumSizes_nonneg rest Hrest) as Hnn.
    destruct Hp as [Hp0 Hp1].
    cbn [releaseLoop sumSizes] in *.
    destruct (maxBytes >? 0) eqn:Hpos; zbool.
    2:{ exists [], (p :: rest). cbn [sumSizes map app].
        rewrite app_nil_r, Z.add_0_r. repeat split; auto; lia. }
    destruct (maxBytes <? mSize p) eqn:Hcmp; zbool.
    { exists [], (p :: rest). cbn [sumSizes map app].
      rewrite app_nil_r, Z.add_0_r. repeat split; auto; lia. }
    rewrite !u64_small by lia.
    destruct (IH (free ++ [mkPage (mData p) 0]) (maxBytes - mSize p)
                 (rel + mSize p) Hrest)
      as (gone & kept & Hsplit & Hloop & Hle & Hstop); try lia.
    exists (p :: gone), kept. rewrite Hloop, Hsplit.
    cbn [sumSizes map app]. rewrite <- app_assoc. cbn [app].
    repeat split; auto; try lia.
    + f_equal. lia.
    + destruct kept; auto. lia.
Qed.

(** X2: [releaseFromStart] releases whole pages only.  The pages it
    releases are a run from the front of the active list; they reach the
    back of the free list with their fill at zero and their buffers kept,
    so no page is lost or made; the bytes released are their fills, at most
    [maxBytes]; and it stops only when no page is left, the budget is used
    up, or the next page is larger than what is left of the budget. *)
Theorem releaseFromStart_pages (c : PageCache.t) (maxBytes : Z) :
  cacheOk c -> mTotalSize c < 2 ^ 64 -> 0 <= maxBytes < 2 ^ 64 ->
  exists gone kept,
    mActivePages c = gone ++ kept
    /\ releaseFromStart maxBytes c
       = (sumSizes gone,
          PageCache.mk (mPageSize c) (mTotalSize c - sumSizes gone) kept
            (mFreePages c ++ map emptied gone))
    /\ sumSizes gone <= maxBytes
    /\ match kept with
       | [] => True
       | page :: _ =>
           maxBytes - sumSizes gone = 0
           \/ maxBytes - sumSizes gone < mSize page
       end.
Proof.
  intros [Hok Htotal] Hlt Hmax. unfold releaseFromStart.
  destruct (releaseLoop_pages (mActivePages c) (mFreePages c) maxBytes 0 Hok)
    as (gone & kept & Hsplit & Hloop & Hle & Hstop); try lia.
  exists gone, kept. rewrite Hloop, Z.add_0_l.
  assert (Hgone : 0 <= sumSizes gone <= mTotalSize c).
  { rewrite Htotal, Hsplit, sumSizes_app. rewrite Hsplit in Hok.
    apply Forall_app in Hok. destruct Hok as [Hg Hk].
    pose proof (sumSizes_nonneg gone Hg).
    pose proof (sumSizes_nonneg kept Hk). lia. }
  rewrite u64_small by lia.
  repeat split; auto.
Qed.

Lemma releaseFromStart_pages_witness :
  exists gone kept,
    mActivePages (mCache smallEngine) = gone ++ kept
    /\ fst (releaseFromStart 8 (mCache smallEngine)) = sumSizes gone
    /\ sumSizes gone <= 8.
Proof.
  destruct smallEngine_ok as (Hok & _ & _).
  destruct (releaseFromStart_pages (mCache smallEngine) 8 Hok)
    as (gone & kept & Hsplit & Hrel & Hle & _).
  - cbn. lia.
  - lia.
  - exists gone, kept. rewrite Hrel. auto.
Defined.

(** ** The prefetcher *)

(** A read of the source that returns [n] bytes appends a page with those
    bytes. *)
Lemma fetchPage_appends (e : FetchEnv) (s : NuCachedSource2.t) :
  windowOk s -> mDisconnecting s = false ->
  0 < readResult e <= Z.of_nat (List.length (readBytes e)) ->
  mCacheOffset s + totalSize (mCache s) + readResult e < 2 ^ 63 ->
  exists s',
    fetchPage e s
    = (s', [SourceRead (mCacheOffset s + totalSize (mCache s)) kPageSize])
    /\ windowOk s'
    /\ cachedBytes s'
       = cachedBytes s ++ firstn (Z.to_nat (readResult e)) (readBytes e)
    /\ totalSize (mCache s') = totalSize (mCache s) + readResult e
    /\ mCacheOffset s' = mCacheOffset s
    /\ mLastAccessPos s' = mLastAccessPos s
    /\ mFinalStatus s' = OK
    /\ mNumRetriesLeft s' = kMaxNumRetries
    /\ mFetching s' = mFetching s
    /\ mDisconnecting s' = false.
Proof.
  intros Hw Hdis Hn Hend.
  pose proof (windowOk_total s Hw) as Htot.
  destruct Hw as ((Hpages & Hsum) & Hlo & Hhi).
  unfold fetchPage.
  assert (Hacq : exists page0 cache0,
    acquirePage (mCache s) = (page0, cache0)
    /\ mActivePages cache0 = mActivePages (mCache s)
    /\ mTotalSize cache0 = mTotalSize (mCache s)).
  { unfold acquirePage. destruct (mFreePages (mCache s));
      do 2 eexists; split; try reflexivity; split; reflexivity. }
  destruct Hacq as (page0 & cache0 & -> & Hactive & Htotal0).
  unfold totalSize in *. rewrite Htotal0, Hdis.
  replace (readResult e =? 0) with false by (symmetry; apply Z.eqb_neq; lia).
  replace (readResult e <? 0) with false by (symmetry; apply Z.ltb_ge; lia).
  cbn [orb]. rewrite s64_u64, s64_small by lia.
  eexists. split; [reflexivity|].
  assert (Hbytes :
    pageBytes (mkPage (mData (storeBytes (readBytes e) page0))
                 (readResult e))
    = firstn (Z.to_nat (readResult e)) (readBytes e)).
  { unfold pageBytes, storeBytes. cbn [mSize mData].
    rewrite firstn_app.
    replace (Z.to_nat (readResult e) - List.length (readBytes e))%nat
      with 0%nat by lia.
    cbn [firstn]. apply app_nil_r. }
  unfold windowOk, cacheOk, cachedBytes. fields.
  rewrite Hactive, Htotal0, !u64_small by (rewrite ?u64_small; lia).
  rewrite pagesBytes_app, sumSizes_app. cbn [pagesBytes flat_map sumSizes].
  rewrite app_nil_r, Hbytes. fields.
  repeat apply conj; auto; try lia.
  apply Forall_app. split; [exact Hpages|].
  constructor; [|constructor].
  unfold pageOk, storeBytes. fields.
  rewrite length_app. lia.
Qed.

(** The fast path of [readAt], for a request inside the window. *)
Lemma readAt_in_window (offset size : Z) (s : NuCachedSource2.t) :
  windowOk s -> 0 <= size ->
  mDisconnecting s = false ->
  mCacheOffset s <= offset ->
  offset + size <= mCacheOffset s + totalSize (mCache s) ->
  readAt offset size s
  = Returned size
      (firstn (Z.to_nat size)
         (skipn (Z.to_nat (offset - mCacheOffset s)) (cachedBytes s)))
      (set_mLastAccessPos (offset + size) s).
Proof.
  intros Hw Hsize Hdis Hlo Hhi.
  pose proof (windowOk_total s Hw) as Htot.
  destruct Hw as (Hc & Hoff & Hend).
  unfold readAt. unfold totalSize in *. rewrite Hdis.
  rewrite !u64_small by lia.
  replace (offset >=? mCacheOffset s) with true
    by (symmetry; rewrite Z.geb_leb; apply Z.leb_le; lia).
  replace (offset + size <=? mCacheOffset s + mTotalSize (mCache s))
    with true by (symmetry; apply Z.leb_le; lia).
  cbn [andb].
  rewrite copy_correct by (auto; lia).
  rewrite !s64_small by lia.
  reflexivity.
Qed.

(** X3: a fetch that succeeds appends what the source delivered.  With no
    error latched and no disconnect under way, [fetchInternal] asks the
    source for one page at the end of the window and, when the source
    returns [n > 0] bytes, appends exactly these bytes to the cached ones:
    the start of the window stays, its end moves by [n], the status is
    [OK] and the retries are back at [kMaxNumRetries]. *)
Theorem fetchInternal_appends (e : FetchEnv) (s : NuCachedSource2.t) :
  windowOk s -> mFinalStatus s = OK -> mDisconnecting s = false ->
  0 < readResult e <= Z.of_nat (List.length (readBytes e)) ->
  mCacheOffset s + totalSize (mCache s) + readResult e < 2 ^ 63 ->
  exists s',
    fetchInternal e s
    = Some (s',
            [SourceRead (mCacheOffset s + totalSize (mCache s)) kPageSize])
    /\ windowOk s'
    /\ cachedBytes s'
       = cachedBytes s ++ firstn (Z.to_nat (readResult e)) (readBytes e)
    /\ mCacheOffset s' = mCacheOffset s
    /\ totalSize (mCache s') = totalSize (mCache s) + readResult e
    /\ mFinalStatus s' = OK
    /\ mNumRetriesLeft s' = kMaxNumRetries.
Proof.
  intros Hw Hok Hdis Hn Hend.
  destruct (fetchPage_appends e s Hw Hdis Hn Hend)
    as (s' & Hpage & Hw' & Hbytes & Htotal & Hoff & _ & Hfinal & Hretries & _).
  exists s'. unfold fetchInternal. rewrite Hok.
  cbn [Z.eqb OK orb negb andb]. rewrite Hpage.
  split; [reflexivity|]. split; [exact Hw'|]. split; [exact Hbytes|].
  split; [exact Hoff|]. split; [exact Htotal|]. split; assumption.
Qed.

Lemma fetchInternal_appends_witness :
  exists s',
    fetchInternal (delivers 0 [x6b; x6c]) smallEngine
    = Some (s', [SourceRead 10 kPageSize])
    /\ cachedBytes s' = cachedBytes smallEngine ++ [x6b; x6c].
Proof.
  destruct (fetchInternal_appends (delivers 0 [x6b; x6c]) smallEngine)
    as (s' & Hfetch & _ & Hbytes & _).
  - exact smallEngine_ok.
  - reflexivity.
  - reflexivity.
  - cbn. lia.
  - cbn. lia.
  - exists s'. split; [exact Hfetch | exact Hbytes].
Defined.

(** X4: what the prefetcher has appended, [readAt] returns.  After a fetch
    that succeeded, a [readAt] of the bytes from the former end of the
    window on is served from the cache and stores exactly the bytes the
    source delivered. *)
Theorem fetchInternal_then_readAt (e : FetchEnv) (s : NuCachedSource2.t) :
  windowOk s -> mFinalStatus s = OK -> mDisconnecting s = false ->
  0 < readResult e <= Z.of_nat (List.length (readBytes e)) ->
  mCacheOffset s + totalSize (mCache s) + readResult e < 2 ^ 63 ->
  exists s' events,
    fetchInternal e s = Some (s', events)
    /\ readAt (mCacheOffset s + totalSize (mCache s)) (readResult e) s'
       = Returned (readResult e)
           (firstn (Z.to_nat (readResult e)) (readBytes e))
           (set_mLastAccessPos
              (mCacheOffset s + totalSize (mCache s) + readResult e) s').
Proof.
  intros Hw Hok Hdis Hn Hend.
  pose proof (windowOk_total s Hw) as Htot.
  destruct (fetchPage_appends e s Hw Hdis Hn Hend)
    as (s' & Hpage & Hw' & Hbytes & Htotal & Hoff & _ & _ & _ & _ & Hdis').
  exists s'. eexists. split.
  { unfold fetchInternal. rewrite Hok.
    cbn [Z.eqb OK orb negb andb]. rewrite Hpage. reflexivity. }
  rewrite readAt_in_window; auto; try lia.
  f_equal. rewrite Hoff, Hbytes.
  assert (Hlen : Z.of_nat (List.length (cachedBytes s))
                 = totalSize (mCache s)).
  { destruct Hw as ((Hpages & Hsum) & _).
    unfold cachedBytes, totalSize. rewrite Hsum.
    apply pagesBytes_length. exact Hpages. }
  rewrite skipn_app, skipn_all2 by lia. cbn [app].
  replace (Z.to_nat (mCacheOffset s + totalSize (mCache s) - mCacheOffset s)
           - List.length (cachedBytes s))%nat with 0%nat by lia.
  cbn [skipn]. rewrite firstn_firstn. f_equal. lia.
Qed.

Lemma fetchInternal_then_readAt_witness :
  exists s' events,
    fetchInternal (delivers 0 [x6b; x6c]) smallEngine = Some (s', events)
    /\ readAt 10 2 s'
       = Returned 2 [x6b; x6c] (set_mLastAccessPos 12 s').
Proof.
  apply (fetchInternal_then_readAt (delivers 0 [x6b; x6c]) smallEngine).
  - exact smallEngine_ok.
  - reflexivity.
  - reflexivity.
  - cbn. lia.
  - cbn. lia.
Defined.

(** ** Eviction, whatever its arguments *)

(** Whatever [restartPrefetcherIfNecessary_l] is asked, it only trims the
    front of the cache. *)
Lemma restartPrefetcherIfNecessary_l_front
    (ignoreLowWaterThreshold force : bool) (s : NuCachedSource2.t) :
  windowOk s -> mLastAccessPos s < 2 ^ 63 ->
  exists actual,
    0 <= actual <= totalSize (mCache s)
    /\ windowOk (restartPrefetcherIfNecessary_l ignoreLowWaterThreshold
                   force s)
    /\ mCacheOffset (restartPrefetcherIfNecessary_l ignoreLowWaterThreshold
                       force s)
       = mCacheOffset s + actual
    /\ totalSize (mCache (restartPrefetcherIfNecessary_l
                            ignoreLowWaterThreshold force s))
       = totalSize (mCache s) - actual
    /\ cachedBytes (restartPrefetcherIfNecessary_l ignoreLowWaterThreshold
                      force s)
       = skipn (Z.to_nat actual) (cachedBytes s)
    /\ (mCacheOffset s <= mLastAccessPos s ->
        actual <= mLastAccessPos s - mCacheOffset s
                  - (if force then 0 else kGrayArea)
        \/ actual = 0).
Proof.
  intros Hw Hlast.
  pose proof (windowOk_total s Hw) as Htot.
  assert (Hgray : kGrayArea = 1048576) by reflexivity.
  assert (Hsame : exists actual,
    0 <= actual <= totalSize (mCache s)
    /\ windowOk s /\ mCacheOffset s = mCacheOffset s + actual
    /\ totalSize (mCache s) = totalSize (mCache s) - actual
    /\ cachedBytes s = skipn (Z.to_nat actual) (cachedBytes s)
    /\ (mCacheOffset s <= mLastAccessPos s ->
        actual <= mLastAccessPos s - mCacheOffset s
                  - (if force then 0 else kGrayArea)
        \/ actual = 0)).
  { exists 0. split; [lia|]. split; [exact Hw|]. split; [lia|].
    split; [lia|]. split; [reflexivity|]. intros _. right. reflexivity. }
  unfold restartPrefetcherIfNecessary_l.
  destruct (mFetching s || exhausted s); [exact Hsame|].
  destruct (negb ignoreLowWaterThreshold && negb force && _);
    [exact Hsame|].
  destruct (negb force && (u64 (mLastAccessPos s - mCacheOffset s)
                           <? kGrayArea)) eqn:Hcond; [exact Hsame|].
  clear Hsame.
  match goal with
  | |- context [releaseFromStart ?m (mCache s)] =>
      set (maxBytes := m);
      destruct (releaseFromStart_window s maxBytes Hw)
        as (cache & actual & Hrel & Hn & Hle & Htotal & Hbytes & Hoff
            & Hw' & _)
  end.
  { subst maxBytes. destruct (negb force); apply u64_range. }
  rewrite Hrel, Hoff. exists actual.
  split; [lia|]. split; [exact Hw'|]. fields.
  split; [reflexivity|]. split; [exact Htotal|]. split; [exact Hbytes|].
  intros Hpos. left.
  destruct Hw as (_ & Hlo & _).
  assert (Hbehind : u64 (mLastAccessPos s - mCacheOffset s)
                    = mLastAccessPos s - mCacheOffset s)
    by (apply u64_small; lia).
  subst maxBytes. rewrite Hbehind in *.
  destruct force; cbn [negb andb] in *.
  - lia.
  - zbool. rewrite u64_small in Hn by lia. lia.
Qed.

(** X5: eviction only trims the front of the cache.  Whatever its
    arguments, [restartPrefetcherIfNecessary_l] leaves the end of the
    window where it was and the bytes it keeps as they were; and with the
    last access inside the window it releases nothing at or after
    [mLastAccessPos], and without [force] nothing within [kGrayArea]
    before it. *)
Theorem restartPrefetcherIfNecessary_l_trims
    (ignoreLowWaterThreshold force : bool) (s : NuCachedSource2.t) :
  windowOk s -> mLastAccessPos s < 2 ^ 63 ->
  let s' := restartPrefetcherIfNecessary_l ignoreLowWaterThreshold force s in
  windowOk s'
  /\ mCacheOffset s <= mCacheOffset s'
  /\ mCacheOffset s' + totalSize (mCache s')
     = mCacheOffset s + totalSize (mCache s)
  /\ cachedBytes s'
     = skipn (Z.to_nat (mCacheOffset s' - mCacheOffset s)) (cachedBytes s)
  /\ (mCacheOffset s <= mLastAccessPos s ->
      mCacheOffset s' = mCacheOffset s
      \/ mCacheOffset s'
         <= mLastAccessPos s - (if force then 0 else kGrayArea)).
Proof.
  intros Hw Hlast s'. subst s'.
  destruct (restartPrefetcherIfNecessary_l_front ignoreLowWaterThreshold
              force s Hw Hlast)
    as (actual & Hactual & Hw' & Hoff & Htotal & Hbytes & Hkeep).
  rewrite Hoff, Htotal, Hbytes.
  replace (mCacheOffset s + actual - mCacheOffset s) with actual by lia.
  split; [exact Hw'|]. split; [lia|]. split; [lia|].
  split; [reflexivity|].
  intros Hpos. destruct (Hkeep Hpos) as [Hle | ->]; [right | left]; lia.
Qed.

Lemma restartPrefetcherIfNecessary_l_trims_witness :
  mCacheOffset (restartPrefetcherIfNecessary_l true false
                  (filledEngine 1114112))
  + totalSize (mCache (restartPrefetcherIfNecessary_l true false
                         (filledEngine 1114112)))
  = 1114112.
Proof.
  destruct (restartPrefetcherIfNecessary_l_trims true false
              (filledEngine 1114112))
    as (_ & _ & Hend & _).
  - apply filledEngine_ok.
  - cbn. lia.
  - exact Hend.
Defined.

(** ** Reading on the prefetcher's thread *)

(** Neither eviction nor seek touches the mailbox or the flags of
    disconnect and suspend. *)
Lemma restartPrefetcherIfNecessary_l_keeps
    (ignoreLowWaterThreshold force : bool) (s : NuCachedSource2.t) :
  mAsyncResult (restartPrefetcherIfNecessary_l ignoreLowWaterThreshold
                  force s) = mAsyncResult s
  /\ mDisconnecting (restartPrefetcherIfNecessary_l ignoreLowWaterThreshold
                       force s) = mDisconnecting s
  /\ mSuspended (restartPrefetcherIfNecessary_l ignoreLowWaterThreshold
                   force s) = mSuspended s
  /\ mLastAccessPos (restartPrefetcherIfNecessary_l ignoreLowWaterThreshold
                       force s) = mLastAccessPos s.
Proof.
  unfold restartPrefetcherIfNecessary_l.
  destruct (mFetching s || exhausted s); [auto|].
  destruct (negb ignoreLowWaterThreshold && negb force && _); [auto|].
  destruct (negb force && _); [auto|].
  destruct (releaseFromStart _ (mCache s)) as [actual cache].
  fields. auto.
Qed.













(** ** Activations of the prefetcher *)

(** What [fetchInternal] asks of the source, it asks at the end of the
    window: a reconnect there, then a read of one page there. *)
Lemma fetchInternal_events (e : FetchEnv) (s s' : NuCachedSource2.t)
    (events : list Event) :
  windowOk s ->
  fetchInternal e s = Some (s', events) ->
  let end_ := mCacheOffset s + totalSize (mCache s) in
  events = [SourceRead end_ kPageSize]
  \/ (mSuspended s = false
      /\ (events = [SourceReconnect end_]
          \/ events = [SourceReconnect end_; SourceRead end_ kPageSize])).
Proof.
  intros Hw.
  pose proof (windowOk_total s Hw) as Htot.
  destruct Hw as (_ & Hlo & Hhi).
  assert (Hpage : forall s0,
    mCacheOffset s0 = mCacheOffset s ->
    totalSize (mCache s0) = totalSize (mCache s) ->
    snd (fetchPage e s0)
    = [SourceRead (mCacheOffset s + totalSize (mCache s)) kPageSize]).
  { intros s0 Ho Ht. unfold fetchPage, acquirePage, totalSize in *.
    destruct (mFreePages (mCache s0)); cbn [snd mTotalSize];
      rewrite Ho, Ht, s64_u64, s64_small by lia; reflexivity. }
  unfold fetchInternal.
  destruct (negb _); [discriminate|].
  destruct (negb (mFinalStatus s =? OK)); cbn [andb].
  2:{ intros [= Hp]. left.
      rewrite <- (Hpage s eq_refl eq_refl), Hp. reflexivity. }
  set (s1 := set_mNumRetriesLeft _ s).
  destruct (mSuspended s1) eqn:Hsusp; cbn [negb].
  { intros [= Hp]. left.
    rewrite <- (Hpage s1 eq_refl eq_refl), Hp. reflexivity. }
  change (mSuspended s1) with (mSuspended s) in Hsusp.
  match goal with
  | |- context [set_mIsProxyConfigured ?b ?s3] =>
      set (s4 := set_mIsProxyConfigured b s3)
  end.
  assert (H4 : mCacheOffset s4 = mCacheOffset s
               /\ totalSize (mCache s4) = totalSize (mCache s)).
  { subst s4 s1. destruct (_ && mDisconnectAtHighwatermark _); fields; auto. }
  destruct H4 as [Ho4 Ht4].
  change (mCacheOffset s1) with (mCacheOffset s).
  change (mCache s1) with (mCache s).
  rewrite s64_u64, s64_small by lia.
  destruct (mDisconnecting s4).
  { intros [= <- <-]. right. auto. }
  destruct ((reconnectErr e =? ERROR_UNSUPPORTED)
            || (reconnectErr e =? - EPIPE)).
  { intros [= <- <-]. right. auto. }
  destruct (negb (reconnectErr e =? OK)).
  { intros [= <- <-]. right. auto. }
  pose proof (Hpage s4 Ho4 Ht4) as Hev.
  destruct (fetchPage e s4) as [s5 ev5]. cbn [snd] in Hev.
  intros [= <- <-]. right. rewrite Hev. auto.
Qed.

(** X9: the prefetcher asks the source only for what follows the window.
    On a well-formed window, with no exhausted error latched,
    [fetchInternal] goes through, and what it asks of the source is a read
    of one page at the end of the window, or a reconnect there, or the
    reconnect followed by the read; a suspended engine does not
    reconnect. *)
Theorem fetchInternal_asks_at_end (e : FetchEnv) (s : NuCachedSource2.t) :
  windowOk s ->
  mFinalStatus s = OK \/ 0 < mNumRetriesLeft s ->
  exists s' events,
    fetchInternal e s = Some (s', events)
    /\ (events
        = [SourceRead (mCacheOffset s + totalSize (mCache s)) kPageSize]
        \/ (mSuspended s = false
            /\ (events
                = [SourceReconnect (mCacheOffset s + totalSize (mCache s))]
                \/ events
                   = [SourceReconnect
                        (mCacheOffset s + totalSize (mCache s));
                      SourceRead (mCacheOffset s + totalSize (mCache s))
                        kPageSize]))).
Proof.
  intros Hw Hcheck.
  destruct (fetchInternal_step e s Hcheck) as (s' & events & Hfetch & _).
  exists s', events. split; [exact Hfetch|].
  exact (fetchInternal_events e s s' events Hw Hfetch).
Qed.

Lemma fetchInternal_asks_at_end_witness :
  exists s' events,
    fetchInternal (delivers 0 []) smallEngine = Some (s', events)
    /\ (events = [SourceRead 10 kPageSize]
        \/ events = [SourceReconnect 10]
        \/ events = [SourceReconnect 10; SourceRead 10 kPageSize]).
Proof.
  destruct (fetchInternal_asks_at_end (delivers 0 []) smallEngine)
    as (s' & events & Hfetch & Hev).
  - exact smallEngine_ok.
  - left. reflexivity.
  - exists s', events. split; [exact Hfetch|].
    destruct Hev as [Hev | [_ [Hev | Hev]]]; auto.
Defined.

Lemma fetchPage_asks (e : FetchEnv) (s : NuCachedSource2.t) :
  mSuspended (fst (fetchPage e s)) = mSuspended s
  /\ exists at_, snd (fetchPage e s) = [SourceRead at_ kPageSize].
Proof.
  unfold fetchPage, acquirePage.
  destruct (mFreePages (mCache s)) as [|page rest].
  all: destruct ((readResult e =? 0) || mDisconnecting s).
  all: try destruct (readResult e <? 0).
  all: try destruct ((readResult e =? ERROR_UNSUPPORTED)
                     || (readResult e =? - EPIPE)).
  all: fields; split; [reflexivity | eexists; reflexivity].
Qed.

(** [fetchInternal] only calls the source, and does not reconnect a
    suspended engine. *)
Lemma fetchInternal_asks (e : FetchEnv) (s s' : NuCachedSource2.t)
    (events : list Event) :
  fetchInternal e s = Some (s', events) ->
  mSuspended s' = mSuspended s
  /\ Forall (fun ev => asksSource ev = true) events
  /\ (mSuspended s = true ->
      Forall (fun ev => isReconnect ev = false) events).
Proof.
  assert (Hpage : forall s0,
    mSuspended s0 = mSuspended s ->
    mSuspended (fst (fetchPage e s0)) = mSuspended s
    /\ Forall (fun ev => asksSource ev = true) (snd (fetchPage e s0))
    /\ Forall (fun ev => isReconnect ev = false) (snd (fetchPage e s0))).
  { intros s0 Hs0. destruct (fetchPage_asks e s0) as (Hs & at_ & ->).
    rewrite Hs, Hs0. repeat split; repeat constructor. }
  unfold fetchInternal.
  destruct (negb _); [discriminate|].
  destruct (negb (mFinalStatus s =? OK)); cbn [andb].
  2:{ intros [= Hp]. destruct (Hpage s eq_refl) as (H1 & H2 & H3).
      rewrite Hp in *. cbn [fst snd] in *. auto. }
  set (s1 := set_mNumRetriesLeft _ s).
  destruct (mSuspended s1) eqn:Hsusp; cbn [negb].
  { intros [= Hp]. destruct (Hpage s1 eq_refl) as (H1 & H2 & H3).
    rewrite Hp in *. cbn [fst snd] in *. auto. }
  change (mSuspended s1) with (mSuspended s) in Hsusp.
  match goal with
  | |- context [set_mIsProxyConfigured ?b ?s3] =>
      set (s4 := set_mIsProxyConfigured b s3)
  end.
  assert (H4 : mSuspended s4 = mSuspended s).
  { subst s4 s1. destruct (_ && mDisconnectAtHighwatermark _); reflexivity. }
  destruct (mDisconnecting s4).
  { intros [= <- <-]. fields. rewrite H4, Hsusp.
    repeat split; try discriminate; repeat constructor. }
  destruct ((reconnectErr e =? ERROR_UNSUPPORTED)
            || (reconnectErr e =? - EPIPE)).
  { intros [= <- <-]. fields. rewrite H4, Hsusp.
    repeat split; try discriminate; repeat constructor. }
  destruct (negb (reconnectErr e =? OK)).
  { intros [= <- <-]. rewrite H4, Hsusp.
    repeat split; try discriminate; repeat constructor. }
  destruct (Hpage s4 H4) as (H1 & H2 & _).
  destruct (fetchPage e s4) as [s5 ev5]. cbn [fst snd] in *.
  intros [= <- <-]. rewrite H1, Hsusp.
  repeat split; try discriminate. constructor; [reflexivity | exact H2].
Qed.

(** An activation in two stages: the fetch or the eviction, and then the
    next message or, for a suspended engine, the disconnect. *)
Lemma onFetch_stages (e : FetchEnv) (s : NuCachedSource2.t) :
  0 <= mNumRetriesLeft s <= kMaxNumRetries ->
  exists s5 events,
    onFetch e s
    = Some (if mSuspended s
            then (set_mFinalStatus (- EAGAIN) s5,
                  events ++ [SourceDisconnect])
            else (s5, events ++ [PostFetch (fetchDelayUs s5)]))
    /\ 0 <= mNumRetriesLeft s5 <= kMaxNumRetries
    /\ Forall (fun ev => isPostFetch ev = false) events
    /\ (mSuspended s = true ->
        Forall (fun ev => isReconnect ev = false) events).
Proof.
  intros Hretries. unfold onFetch.
  set (s1 := if exhausted s then set_mFetching false s else s).
  assert (H1 : mNumRetriesLeft s1 = mNumRetriesLeft s
               /\ mFinalStatus s1 = mFinalStatus s
               /\ mSuspended s1 = mSuspended s
               /\ (mFetching s1 = true -> exhausted s = false)).
  { subst s1. destruct (exhausted s); fields; repeat split; auto;
      discriminate. }
  destruct H1 as (Hr1 & Hf1 & Hs1 & Hfetch1).
  set (s2 := if (negb (mFinalStatus s1 =? OK) && (mNumRetriesLeft s1 >? 0))
                && mIsProxyConfigured s1
             then set_mQueryAndSetProxy true s1 else s1).
  assert (H2 : mNumRetriesLeft s2 = mNumRetriesLeft s
               /\ mFinalStatus s2 = mFinalStatus s
               /\ mSuspended s2 = mSuspended s
               /\ mFetching s2 = mFetching s1).
  { subst s2. destruct (_ && mIsProxyConfigured s1); fields;
      repeat split; auto. }
  destruct H2 as (Hr2 & Hf2 & Hs2 & Hfetch2).
  rewrite <- Hfetch2 in Hfetch1. clearbody s2. clear Hr1 Hf1 Hs1 Hfetch2.
  clearbody s1.
  set (keepAlive := negb (mFetching s2) && _ && _ && _).
  assert (Hkeep : keepAlive = true -> mFinalStatus s = OK).
  { subst keepAlive. rewrite Hf2. intros H.
    apply andb_prop in H. destruct H as [H _].
    apply andb_prop in H. destruct H as [H _].
    apply andb_prop in H. destruct H as [_ H]. zbool. exact H. }
  assert (Hfinish : forall s5 events,
    mSuspended s5 = mSuspended s ->
    0 <= mNumRetriesLeft s5 <= kMaxNumRetries ->
    Forall (fun ev => isPostFetch ev = false) events ->
    (mSuspended s = true ->
     Forall (fun ev => isReconnect ev = false) events) ->
    exists s6 events',
      (if mSuspended s5
       then Some (set_mFinalStatus (- EAGAIN) s5,
                  events ++ [SourceDisconnect])
       else Some (s5, events ++ [PostFetch (fetchDelayUs s5)]))
      = Some (if mSuspended s
              then (set_mFinalStatus (- EAGAIN) s6,
                    events' ++ [SourceDisconnect])
              else (s6, events' ++ [PostFetch (fetchDelayUs s6)]))
      /\ 0 <= mNumRetriesLeft s6 <= kMaxNumRetries
      /\ Forall (fun ev => isPostFetch ev = false) events'
      /\ (mSuspended s = true ->
          Forall (fun ev => isReconnect ev = false) events')).
  { intros s5 events Hs5 Hr5 Hp5 Hc5. exists s5, events.
    rewrite Hs5. destruct (mSuspended s); auto. }
  destruct (mFetching s2 || keepAlive) eqn:Hgo.
  - assert (Hcheck : mFinalStatus s2 = OK \/ 0 < mNumRetriesLeft s2).
    { rewrite Hf2, Hr2. apply orb_prop in Hgo. destruct Hgo as [Hf | Hk].
      - specialize (Hfetch1 Hf). unfold exhausted in Hfetch1.
        destruct (mFinalStatus s =? OK) eqn:Hok; zbool; [left; assumption|].
        right. cbn [negb andb] in Hfetch1. zbool. lia.
      - left. auto. }
    destruct (fetchInternal_step e s2 Hcheck)
      as (s3 & events & Hfi & Hstep).
    destruct (fetchInternal_asks e s2 s3 events Hfi) as (Hs3 & Hask & Hrec).
    rewrite Hfi.
    destruct Hstep as (_ & _ & _ & _ & _ & Hr3 & _).
    rewrite Hr2 in Hr3. specialize (Hr3 Hretries).
    assert (Hnopost : Forall (fun ev => isPostFetch ev = false) events).
    { revert Hask. apply Forall_impl. intros [] H; try discriminate;
        reflexivity. }
    rewrite Hs2 in Hs3, Hrec.
    destruct (mFetching (set_mLastFetchTimeUs (nowAfterFetch e) s3)
              && _).
    + destruct (mDisconnectAtHighwatermark _ && sourceIsHTTP e
                && negb (mIsProxyConfigured _)).
      * apply Hfinish; fields; auto.
        -- apply Forall_app. split; [exact Hnopost|].
           repeat constructor.
        -- intros H. apply Forall_app. split; [auto|]. repeat constructor.
      * apply Hfinish; fields; auto.
    + apply Hfinish; fields; auto.
  - apply Hfinish; auto.
    + destruct (restartPrefetcherIfNecessary_l_keeps false false s2)
        as (_ & _ & -> & _). exact Hs2.
    + assert (Hsame : mNumRetriesLeft
                        (restartPrefetcherIfNecessary_l false false s2)
                      = mNumRetriesLeft s2).
      { unfold restartPrefetcherIfNecessary_l.
        destruct (mFetching s2 || exhausted s2); [reflexivity|].
        destruct (negb false && negb false && _); [reflexivity|].
        destruct (negb false && _); [reflexivity|].
        destruct (releaseFromStart _ (mCache s2)). reflexivity. }
      rewrite Hsame, Hr2. exact Hretries.
Qed.

(** X10: an activation goes through and posts the next one.  With the
    retries in range, [onFetch] never fails the [CHECK] of [fetchInternal]
    and leaves the retries in range; on an engine that is not suspended its
    last act is to post one FETCH message, after 0, 100 ms or 3 s, and it
    posts no other. *)
Theorem onFetch_reposts (e : FetchEnv) (s : NuCachedSource2.t) :
  0 <= mNumRetriesLeft s <= kMaxNumRetries ->
  mSuspended s = false ->
  exists s' events delayUs,
    onFetch e s = Some (s', events ++ [PostFetch delayUs])
    /\ 0 <= mNumRetriesLeft s' <= kMaxNumRetries
    /\ Forall (fun ev => isPostFetch ev = false) events
    /\ (delayUs = 0 \/ delayUs = 100000 \/ delayUs = 3000000)
    /\ (delayUs = 3000000 ->
        mFetching s' = true /\ mFinalStatus s' <> OK
        /\ 0 < mNumRetriesLeft s').
Proof.
  intros Hretries Hsusp.
  destruct (onFetch_stages e s Hretries)
    as (s5 & events & Hfetch & Hr5 & Hpost & _).
  rewrite Hsusp in Hfetch.
  exists s5, events, (fetchDelayUs s5).
  split; [exact Hfetch|]. split; [exact Hr5|]. split; [exact Hpost|].
  unfold fetchDelayUs.
  destruct (mFetching s5); [|split; [auto | discriminate]].
  destruct (mFinalStatus s5 =? OK) eqn:Hok; cbn [negb andb];
    [split; [auto | discriminate]|].
  destruct (mNumRetriesLeft s5 >? 0) eqn:Hleft;
    [|split; [auto | discriminate]].
  zbool. split; auto.
Qed.

Lemma onFetch_reposts_witness :
  exists s' events delayUs,
    onFetch (delivers 0 [x6b; x6c]) smallEngine
    = Some (s', events ++ [PostFetch delayUs])
    /\ 0 <= mNumRetriesLeft s' <= kMaxNumRetries.
Proof.
  destruct (onFetch_reposts (delivers 0 [x6b; x6c]) smallEngine)
    as (s' & events & delayUs & Hfetch & Hr & _).
  - cbn. unfold kMaxNumRetries. lia.
  - reflexivity.
  - exists s', events, delayUs. split; [exact Hfetch | exact Hr].
Defined.

(** X11: a suspended engine stops the prefetcher.  With the retries in
    range, an activation on a suspended engine posts no FETCH message; its
    last act is to disconnect the source, it latches [- EAGAIN], and it
    does not reconnect the source on the way. *)
Theorem onFetch_suspended (e : FetchEnv) (s : NuCachedSource2.t) :
  0 <= mNumRetriesLeft s <= kMaxNumRetries ->
  mSuspended s = true ->
  exists s' events,
    onFetch e s = Some (s', events ++ [SourceDisconnect])
    /\ mFinalStatus s' = - EAGAIN
    /\ Forall (fun ev => isPostFetch ev = false) events
    /\ Forall (fun ev => isReconnect ev = false) events.
Proof.
  intros Hretries Hsusp.
  destruct (onFetch_stages e s Hretries)
    as (s5 & events & Hfetch & _ & Hpost & Hrec).
  rewrite Hsusp in Hfetch.
  exists (set_mFinalStatus (- EAGAIN) s5), events.
  split; [exact Hfetch|]. split; [reflexivity|].
  split; [exact Hpost | exact (Hrec Hsusp)].
Qed.

Lemma onFetch_suspended_witness :
  exists s' events,
    onFetch (delivers 0 [])
      (snd (disconnectWhileSuspend smallEngine))
    = Some (s', events ++ [SourceDisconnect])
    /\ mFinalStatus s' = - EAGAIN.
Proof.
  destruct (onFetch_suspended (delivers 0 [])
              (snd (disconnectWhileSuspend smallEngine)))
    as (s' & events & Hfetch & Hfinal & _).
  - cbn. unfold kMaxNumRetries. lia.
  - reflexivity.
  - exists s', events. split; [exact Hfetch | exact Hfinal].
Defined.

(** X12: an exhausted engine is left alone.  When an error is latched and
    no retry is left, an activation asks nothing of the source, leaves the
    cache and the window as they are, puts the prefetcher to rest and
    posts the next activation after 100 ms (a suspended engine disconnects
    instead and latches [- EAGAIN]). *)
Theorem onFetch_exhausted (e : FetchEnv) (s : NuCachedSource2.t) :
  exhausted s = true ->
  onFetch e s
  = Some (if mSuspended s
          then (set_mFinalStatus (- EAGAIN) (set_mFetching false s),
                [SourceDisconnect])
          else (set_mFetching false s, [PostFetch 100000])).
Proof.
  intros Hexh. unfold onFetch. rewrite Hexh.
  pose proof Hexh as Hexh'. unfold exhausted in Hexh'.
  apply andb_prop in Hexh'. destruct Hexh' as [Hstatus Hzero].
  fields. rewrite Hstatus. zbool. rewrite Hzero.
  replace (0 >? 0) with false by reflexivity.
  cbn [andb]. fields.
  apply negb_true_iff in Hstatus. rewrite Hstatus.
  cbn [andb orb negb].
  assert (Hrest :
    restartPrefetcherIfNecessary_l false false (set_mFetching false s)
    = set_mFetching false s).
  { unfold restartPrefetcherIfNecessary_l. fields.
    change (exhausted (set_mFetching false s)) with (exhausted s).
    rewrite Hexh. reflexivity. }
  rewrite Hrest. fields. unfold fetchDelayUs. fields.
  destruct (mSuspended s); reflexivity.
Qed.

Lemma onFetch_exhausted_witness :
  onFetch (delivers 0 fullPage) (endedEngine 737856)
  = Some (set_mFetching false (endedEngine 737856), [PostFetch 100000]).
Proof.
  apply (onFetch_exhausted (delivers 0 fullPage) (endedEngine 737856)).
  reflexivity.
Defined.

(** ** The window under the prefetcher *)

Lemma cachedBytes_length (s : NuCachedSource2.t) :
  windowOk s ->
  Z.of_nat (List.length (cachedBytes s)) = totalSize (mCache s).
Proof.
  intros ((Hpages & Hsum) & _). unfold cachedBytes, totalSize.
  rewrite Hsum. apply pagesBytes_length. exact Hpages.
Qed.

Lemma windowOk_same (s s0 : NuCachedSource2.t) :
  mCache s0 = mCache s -> mCacheOffset s0 = mCacheOffset s ->
  windowOk s -> windowOk s0.
Proof. unfold windowOk. intros -> ->. auto. Qed.

(** One read of the source leaves the window in order and the cached
    bytes in place. *)
Lemma fetchPage_window (e : FetchEnv) (s : NuCachedSource2.t) :
  windowOk s ->
  readResult e <= Z.of_nat (List.length (readBytes e)) ->
  mCacheOffset s + totalSize (mCache s) + readResult e < 2 ^ 63 ->
  windowOk (fst (fetchPage e s))
  /\ mCacheOffset (fst (fetchPage e s)) = mCacheOffset s
  /\ exists appended,
      cachedBytes (fst (fetchPage e s)) = cachedBytes s ++ appended.
Proof.
  intros Hw Hn Hend.
  destruct (mDisconnecting s) eqn:Hdis;
    [|destruct (Z.lt_ge_cases 0 (readResult e)) as [Hpos | Hneg]].
  2:{ destruct (fetchPage_appends e s Hw Hdis) as
        (s' & Hpage & Hw' & Hbytes & _ & Hoff & _); try lia.
      rewrite Hpage. cbn [fst]. eauto. }
  all: unfold fetchPage, acquirePage.
  all: destruct (mFreePages (mCache s)) as [|page rest].
  all: rewrite Hdis, ?orb_true_r.
  all: try (destruct (readResult e =? 0) eqn:Hz; cbn [orb]).
  all: try (replace (readResult e <? 0) with true
              by (symmetry; apply Z.ltb_lt; zbool; lia)).
  all: try destruct ((readResult e =? ERROR_UNSUPPORTED)
                     || (readResult e =? - EPIPE)).
  all: unfold windowOk, cacheOk, cachedBytes in *; fields.
  all: split; [exact Hw|]; split; [reflexivity|].
  all: exists []; symmetry; apply app_nil_r.
Qed.

(** So does [fetchInternal]. *)
Lemma fetchInternal_window (e : FetchEnv) (s : NuCachedSource2.t) :
  windowOk s ->
  mFinalStatus s = OK \/ 0 < mNumRetriesLeft s ->
  readResult e <= Z.of_nat (List.length (readBytes e)) ->
  mCacheOffset s + totalSize (mCache s) + readResult e < 2 ^ 63 ->
  exists s' events,
    fetchInternal e s = Some (s', events)
    /\ windowOk s'
    /\ mCacheOffset s' = mCacheOffset s
    /\ mLastAccessPos s' = mLastAccessPos s
    /\ exists appended, cachedBytes s' = cachedBytes s ++ appended.
Proof.
  intros Hw Hcheck Hn Hend.
  destruct (fetchInternal_step e s Hcheck)
    as (s' & events & Hfetch & Hstep).
  exists s', events. split; [exact Hfetch|].
  destruct Hstep as (Ho & Hl & _).
  assert (Hpage : forall s0,
    mCache s0 = mCache s -> mCacheOffset s0 = mCacheOffset s ->
    windowOk (fst (fetchPage e s0))
    /\ mCacheOffset (fst (fetchPage e s0)) = mCacheOffset s
    /\ exists appended,
        cachedBytes (fst (fetchPage e s0)) = cachedBytes s ++ appended).
  { intros s0 Hc0 Ho0.
    destruct (fetchPage_window e s0) as (H1 & H2 & appended & H3).
    - exact (windowOk_same s s0 Hc0 Ho0 Hw).
    - exact Hn.
    - rewrite Hc0, Ho0. exact Hend.
    - unfold cachedBytes in *. rewrite Hc0, Ho0 in *. eauto. }
  assert (Hsame : forall s0,
    mCache s0 = mCache s -> mCacheOffset s0 = mCacheOffset s ->
    windowOk s0 /\ mCacheOffset s0 = mCacheOffset s
    /\ exists appended, cachedBytes s0 = cachedBytes s ++ appended).
  { intros s0 Hc0 Ho0. split; [exact (windowOk_same s s0 Hc0 Ho0 Hw)|].
    split; [exact Ho0|]. exists []. unfold cachedBytes.
    rewrite Hc0. symmetry. apply app_nil_r. }
  assert (Hgoal :
    windowOk s' /\ mCacheOffset s' = mCacheOffset s
    /\ exists appended, cachedBytes s' = cachedBytes s ++ appended).
  { revert Hfetch. unfold fetchInternal.
    destruct (negb _); [discriminate|].
    destruct (negb (mFinalStatus s =? OK)); cbn [andb].
    2:{ intros [= Hp]. destruct (Hpage s eq_refl eq_refl) as (H1 & H2 & H3).
        rewrite Hp in *. cbn [fst] in *. auto. }
    set (s1 := set_mNumRetriesLeft _ s).
    destruct (mSuspended s1); cbn [negb].
    { intros [= Hp]. destruct (Hpage s1 eq_refl eq_refl) as (H1 & H2 & H3).
      rewrite Hp in *. cbn [fst] in *. auto. }
    match goal with
    | |- context [set_mIsProxyConfigured ?b ?s3] =>
        set (s4 := set_mIsProxyConfigured b s3)
    end.
    assert (H4 : mCache s4 = mCache s /\ mCacheOffset s4 = mCacheOffset s).
    { subst s4 s1. destruct (_ && mDisconnectAtHighwatermark _); fields;
        auto. }
    destruct H4 as [Hc4 Ho4].
    destruct (mDisconnecting s4).
    { intros [= <- _]. apply Hsame; fields; auto. }
    destruct ((reconnectErr e =? ERROR_UNSUPPORTED)
              || (reconnectErr e =? - EPIPE)).
    { intros [= <- _]. apply Hsame; fields; auto. }
    destruct (negb (reconnectErr e =? OK)).
    { intros [= <- _]. apply Hsame; auto. }
    destruct (Hpage s4 Hc4 Ho4) as (H1 & H2 & H3).
    destruct (fetchPage e s4) as [s5 ev5]. cbn [fst] in *.
    intros [= <- _]. auto. }
  destruct Hgoal as (H1 & H2 & H3). auto.
Qed.

(** X13: the prefetcher only trims the front of the cache and appends to
    its back.  On a well-formed window, with the retries in range and a
    source that stores what it returns, an activation goes through and
    leaves a well-formed window; the start of the window does not move
    back, the end does not move back, and every byte that stays cached
    stays what it was: the cached bytes afterwards are those before,
    without [actual] bytes at the front and with the appended ones at the
    back. *)
Theorem onFetch_window (e : FetchEnv) (s : NuCachedSource2.t) :
  windowOk s ->
  0 <= mNumRetriesLeft s <= kMaxNumRetries ->
  mLastAccessPos s < 2 ^ 63 ->
  readResult e <= Z.of_nat (List.length (readBytes e)) ->
  mCacheOffset s + totalSize (mCache s) + readResult e < 2 ^ 63 ->
  exists s' events,
    onFetch e s = Some (s', events)
    /\ windowOk s'
    /\ exists actual appended,
        0 <= actual <= totalSize (mCache s)
        /\ mCacheOffset s' = mCacheOffset s + actual
        /\ cachedBytes s'
           = skipn (Z.to_nat actual) (cachedBytes s) ++ appended
        /\ mCacheOffset s' + totalSize (mCache s')
           = mCacheOffset s + totalSize (mCache s)
             + Z.of_nat (List.length appended).
Proof.
  intros Hw Hretries Hlast Hn Hend.
  pose proof (windowOk_total s Hw) as Htot.
  set (Q := fun s' : NuCachedSource2.t =>
    windowOk s'
    /\ exists actual appended,
        0 <= actual <= totalSize (mCache s)
        /\ mCacheOffset s' = mCacheOffset s + actual
        /\ cachedBytes s'
           = skipn (Z.to_nat actual) (cachedBytes s) ++ appended
        /\ mCacheOffset s' + totalSize (mCache s')
           = mCacheOffset s + totalSize (mCache s)
             + Z.of_nat (List.length appended)).
  change (exists s' events, onFetch e s = Some (s', events) /\ Q s').
  assert (Qsame : forall s5 s6,
    mCache s6 = mCache s5 -> mCacheOffset s6 = mCacheOffset s5 ->
    Q s5 -> Q s6).
  { intros s5 s6 Hc Ho (Hw5 & actual & appended & H1 & H2 & H3 & H4).
    split; [exact (windowOk_same s5 s6 Hc Ho Hw5)|].
    exists actual, appended. unfold cachedBytes in *.
    rewrite Hc, Ho. auto. }
  assert (Hfinish : forall s5 (events : list Event),
    Q s5 ->
    exists s' events',
      (if mSuspended s5
       then Some (set_mFinalStatus (- EAGAIN) s5,
                  events ++ [SourceDisconnect])
       else Some (s5, events ++ [PostFetch (fetchDelayUs s5)]))
      = Some (s', events') /\ Q s').
  { intros s5 events HQ. destruct (mSuspended s5); do 2 eexists;
      (split; [reflexivity|]); [|exact HQ].
    apply (Qsame s5); [reflexivity | reflexivity | exact HQ]. }
  unfold onFetch.
  set (s1 := if exhausted s then set_mFetching false s else s).
  assert (H1 : mCache s1 = mCache s /\ mCacheOffset s1 = mCacheOffset s
               /\ mLastAccessPos s1 = mLastAccessPos s
               /\ mNumRetriesLeft s1 = mNumRetriesLeft s
               /\ mFinalStatus s1 = mFinalStatus s
               /\ (mFetching s1 = true -> exhausted s = false)).
  { subst s1. destruct (exhausted s); fields; repeat split; auto;
      discriminate. }
  destruct H1 as (Hc1 & Ho1 & Hl1 & Hr1 & Hf1 & Hfetch1).
  set (s2 := if (negb (mFinalStatus s1 =? OK) && (mNumRetriesLeft s1 >? 0))
                && mIsProxyConfigured s1
             then set_mQueryAndSetProxy true s1 else s1).
  assert (H2 : mCache s2 = mCache s /\ mCacheOffset s2 = mCacheOffset s
               /\ mLastAccessPos s2 = mLastAccessPos s
               /\ mNumRetriesLeft s2 = mNumRetriesLeft s
               /\ mFinalStatus s2 = mFinalStatus s
               /\ mFetching s2 = mFetching s1).
  { subst s2. destruct (_ && mIsProxyConfigured s1); fields;
      repeat split; auto. }
  destruct H2 as (Hc2 & Ho2 & Hl2 & Hr2 & Hf2 & Hfetch2).
  rewrite <- Hfetch2 in Hfetch1.
  clearbody s2. clear Hc1 Ho1 Hl1 Hr1 Hf1 Hfetch2. clearbody s1.
  assert (Hw2 : windowOk s2) by exact (windowOk_same s s2 Hc2 Ho2 Hw).
  assert (Hb2 : cachedBytes s2 = cachedBytes s)
    by (unfold cachedBytes; rewrite Hc2; reflexivity).
  set (keepAlive := negb (mFetching s2) && _ && _ && _).
  assert (Hkeep : keepAlive = true -> mFinalStatus s = OK).
  { subst keepAlive. rewrite Hf2. intros H.
    apply andb_prop in H. destruct H as [H _].
    apply andb_prop in H. destruct H as [H _].
    apply andb_prop in H. destruct H as [_ H]. zbool. exact H. }
  destruct (mFetching s2 || keepAlive) eqn:Hgo.
  - assert (Hcheck : mFinalStatus s2 = OK \/ 0 < mNumRetriesLeft s2).
    { rewrite Hf2, Hr2. apply orb_prop in Hgo. destruct Hgo as [Hf | Hk].
      - specialize (Hfetch1 Hf). unfold exhausted in Hfetch1.
        destruct (mFinalStatus s =? OK) eqn:Hok; zbool; [left; assumption|].
        right. cbn [negb andb] in Hfetch1. zbool. lia.
      - left. auto. }
    destruct (fetchInternal_window e s2 Hw2 Hcheck Hn)
      as (s3 & events & Hfi & Hw3 & Ho3 & _ & appended & Hb3).
    { rewrite Hc2, Ho2. exact Hend. }
    rewrite Hfi.
    assert (HQ3 : Q s3).
    { split; [exact Hw3|]. exists 0, appended.
      split; [lia|]. split; [lia|].
      split; [rewrite Hb3, Hb2; reflexivity|].
      rewrite <- (cachedBytes_length s3 Hw3), <- (cachedBytes_length s Hw).
      rewrite Hb3, Hb2, length_app. lia. }
    destruct (mFetching (set_mLastFetchTimeUs (nowAfterFetch e) s3)
              && _).
    + destruct (mDisconnectAtHighwatermark _ && sourceIsHTTP e
                && negb (mIsProxyConfigured _)).
      all: apply Hfinish; apply (Qsame s3); auto.
    + apply Hfinish; apply (Qsame s3); auto.
  - apply Hfinish.
    destruct (restartPrefetcherIfNecessary_l_front false false s2 Hw2)
      as (actual & Hactual & Hw' & Hoff & Htotal & Hbytes & _).
    { rewrite Hl2. exact Hlast. }
    split; [exact Hw'|]. exists actual, [].
    unfold totalSize in *. rewrite Hc2, Ho2 in *.
    split; [exact Hactual|]. split; [exact Hoff|].
    split; [rewrite Hbytes, Hb2, app_nil_r; reflexivity|].
    cbn [List.length]. lia.
Qed.

Lemma onFetch_window_witness :
  exists s' events,
    onFetch (delivers 0 [x6b; x6c]) smallEngine = Some (s', events)
    /\ windowOk s'.
Proof.
  destruct (onFetch_window (delivers 0 [x6b; x6c]) smallEngine)
    as (s' & events & Hfetch & Hw & _).
  - exact smallEngine_ok.
  - cbn. unfold kMaxNumRetries. lia.
  - cbn. lia.
  - cbn. lia.
  - cbn. lia.
  - exists s', events. split; [exact Hfetch | exact Hw].
Defined.

(** ** Configuration *)

(** The configuration keeps the low-water mark below the high-water mark
    and the keep-alive period from going negative. *)
Lemma updateCacheParamsFromString_ordered (str : string)
    (s : NuCachedSource2.t) :
  0 <= mLowwaterThresholdBytes s < mHighwaterThresholdBytes s ->
  0 <= mKeepAliveIntervalUs s ->
  0 <= mLowwaterThresholdBytes (updateCacheParamsFromString str s)
  < mHighwaterThresholdBytes (updateCacheParamsFromString str s)
  /\ 0 <= mKeepAliveIntervalUs (updateCacheParamsFromString str s).
Proof.
  intros Hwater Hkeep.
  pose proof (sscanf_zd_zd_d_range str) as Hrange.
  unfold updateCacheParamsFromString.
  destruct (sscanf_zd_zd_d str) as [|lo [|hi [|ka [|x l]]]]; auto.
  destruct (Hrange lo hi ka eq_refl) as (_ & _ & Hka).
  assert (Hhi : kDefaultHighWaterThreshold = 20971520) by reflexivity.
  assert (Hlo : kDefaultLowWaterThreshold = 2097152) by reflexivity.
  assert (Hk : kDefaultKeepAliveIntervalUs = 15000000) by reflexivity.
  pose proof (u64_range (lo * 1024)).
  pose proof (u64_range (hi * 1024)).
  repeat match goal with
         | |- context [if ?b then _ else _] => destruct b eqn:?
         end; fields; zbool; rewrite ?s64_small by lia; lia.
Qed.

(** The parameters the constructor leaves. *)
Lemma new_parameters_sound (persistValue mediaValue : string)
    (cacheConfig : option string)
    (disconnectAtHighwatermark isProxyConfigured : bool) :
  0 <= mLowwaterThresholdBytes
         (fst (NuCachedSource2.new persistValue mediaValue cacheConfig
                 disconnectAtHighwatermark isProxyConfigured))
  < mHighwaterThresholdBytes
      (fst (NuCachedSource2.new persistValue mediaValue cacheConfig
              disconnectAtHighwatermark isProxyConfigured))
  /\ 0 <= mKeepAliveIntervalUs
            (fst (NuCachedSource2.new persistValue mediaValue cacheConfig
                    disconnectAtHighwatermark isProxyConfigured))
  /\ (disconnectAtHighwatermark && negb isProxyConfigured = true ->
      mKeepAliveIntervalUs
        (fst (NuCachedSource2.new persistValue mediaValue cacheConfig
                disconnectAtHighwatermark isProxyConfigured))
      = 0).
Proof.
  unfold NuCachedSource2.new.
  set (s0 := init disconnectAtHighwatermark isProxyConfigured).
  set (s1 := updateCacheParamsFromSystemProperty persistValue mediaValue s0).
  set (s2 := match cacheConfig with
             | Some str => updateCacheParamsFromString str s1
             | None => s1
             end).
  assert (H0 : (0 <= mLowwaterThresholdBytes s0
                < mHighwaterThresholdBytes s0)
               /\ 0 <= mKeepAliveIntervalUs s0).
  { subst s0. unfold init. fields.
    unfold kDefaultLowWaterThreshold, kDefaultHighWaterThreshold,
      kDefaultKeepAliveIntervalUs. lia. }
  assert (H1 : (0 <= mLowwaterThresholdBytes s1
                < mHighwaterThresholdBytes s1)
               /\ 0 <= mKeepAliveIntervalUs s1).
  { subst s1. unfold updateCacheParamsFromSystemProperty.
    destruct H0 as [Hw Hk].
    destruct (0 <? _); [|destruct (0 <? _)];
      auto using updateCacheParamsFromString_ordered. }
  assert (H2 : (0 <= mLowwaterThresholdBytes s2
                < mHighwaterThresholdBytes s2)
               /\ 0 <= mKeepAliveIntervalUs s2).
  { subst s2. destruct H1 as [Hw Hk]. destruct cacheConfig;
      auto using updateCacheParamsFromString_ordered. }
  assert (Hflags : forall str s,
    mDisconnectAtHighwatermark (updateCacheParamsFromString str s)
    = mDisconnectAtHighwatermark s
    /\ mIsProxyConfigured (updateCacheParamsFromString str s)
       = mIsProxyConfigured s).
  { intros str s. unfold updateCacheParamsFromString.
    destruct (sscanf_zd_zd_d str) as [|lo [|hi [|ka [|x l]]]];
      try (split; reflexivity).
    repeat match goal with
           | |- context [if ?b then _ else _] => destruct b
           end; split; reflexivity. }
  assert (F1 : mDisconnectAtHighwatermark s1 = disconnectAtHighwatermark
               /\ mIsProxyConfigured s1 = isProxyConfigured).
  { subst s1. unfold updateCacheParamsFromSystemProperty.
    destruct (0 <? _); [|destruct (0 <? _)]; try (split; reflexivity).
    all: match goal with
         | |- context [updateCacheParamsFromString ?str ?s] =>
             destruct (Hflags str s) as (-> & ->)
         end; split; reflexivity. }
  assert (F2 : mDisconnectAtHighwatermark s2 = disconnectAtHighwatermark
               /\ mIsProxyConfigured s2 = isProxyConfigured).
  { subst s2. destruct cacheConfig as [str|]; [|exact F1].
    destruct (Hflags str s1) as (-> & ->). exact F1. }
  destruct F2 as [-> ->]. destruct H2 as [Hw Hk].
  cbn [fst].
  destruct (disconnectAtHighwatermark && negb isProxyConfigured); fields.
  - repeat split; lia.
  - repeat split; try lia; discriminate.
Qed.

(** X14: whatever the properties and the configuration say, the engine
    starts with sound parameters.  The constructor leaves the low-water
    mark below the high-water mark and the keep-alive period not negative,
    whatever strings it is given; and for a source that is to be
    disconnected at the high-water mark and is read through no proxy, the
    keep-alive is off, whatever period was configured. *)
Theorem new_parameters (persistValue mediaValue : string)
    (cacheConfig : option string)
    (disconnectAtHighwatermark isProxyConfigured : bool) :
  0 <= mLowwaterThresholdBytes
         (fst (NuCachedSource2.new persistValue mediaValue cacheConfig
                 disconnectAtHighwatermark isProxyConfigured))
  < mHighwaterThresholdBytes
      (fst (NuCachedSource2.new persistValue mediaValue cacheConfig
              disconnectAtHighwatermark isProxyConfigured))
  /\ 0 <= mKeepAliveIntervalUs
            (fst (NuCachedSource2.new persistValue mediaValue cacheConfig
                    disconnectAtHighwatermark isProxyConfigured))
  /\ mKeepAliveIntervalUs
       (fst (NuCachedSource2.new persistValue mediaValue cacheConfig
               true false))
     = 0.
Proof.
  destruct (new_parameters_sound persistValue mediaValue cacheConfig
              disconnectAtHighwatermark isProxyConfigured)
    as (Hwater & Hkeep & _).
  destruct (new_parameters_sound persistValue mediaValue cacheConfig
              true false) as (_ & _ & Hoff).
  split; [exact Hwater|]. split; [exact Hkeep|]. apply Hoff. reflexivity.
Qed.

(** ** Headers *)

Lemma headerOf_indexOfKey_none (key : string) (v : KeyedVector) :
  indexOfKey key v = None ->
  headerOf key v = None
  /\ filter (fun item => negb (String.eqb (fst item) key)) v = v.
Proof.
  induction v as [|[k value] rest IH]; cbn [indexOfKey headerOf filter fst].
  - auto.
  - destruct (String.eqb k key); [discriminate|].
    destruct (indexOfKey key rest); [discriminate|].
    intros _. destruct (IH eq_refl) as [H1 H2].
    cbn [negb]. rewrite H2. auto.
Qed.

Lemma indexOfKey_absent (key : string) (v : KeyedVector) :
  ~ In key (map fst v) -> indexOfKey key v = None.
Proof.
  induction v as [|[k value] rest IH]; cbn [indexOfKey map fst In].
  - reflexivity.
  - intros Hnot. destruct (String.eqb_spec k key) as [-> | Hne].
    + exfalso. apply Hnot. left. reflexivity.
    + rewrite IH; [reflexivity|]. intros Hin. apply Hnot. right. exact Hin.
Qed.

(** With keys that occur once, removing the item at the index of a key
    removes every item with that key. *)
Lemma removeItemsAt_indexOfKey (key : string) (v : KeyedVector)
    (index : nat) :
  NoDup (map fst v) -> indexOfKey key v = Some index ->
  headerOf key v = Some (valueAt index v)
  /\ removeItemsAt index v
     = filter (fun item => negb (String.eqb (fst item) key)) v.
Proof.
  revert index.
  induction v as [|[k value] rest IH]; intros index Hnodup;
    cbn [indexOfKey headerOf filter fst removeItemsAt map] in *.
  - discriminate.
  - inversion Hnodup as [|? ? Hnotin Hrest]; subst.
    destruct (String.eqb_spec k key) as [-> | Hne].
    + intros [= <-]. cbn [negb]. split; [reflexivity|].
      pose proof (indexOfKey_absent key rest Hnotin) as Habsent.
      destruct (headerOf_indexOfKey_none key rest Habsent) as [_ ->].
      reflexivity.
    + destruct (indexOfKey key rest) as [index'|] eqn:Hidx; [|discriminate].
      intros [= <-]. destruct (IH index' Hrest eq_refl) as [H1 H2].
      cbn [negb]. rewrite <- H2. split; [exact H1 | reflexivity].
Qed.

Lemma headerOf_filter (key key' : string) (v : KeyedVector) :
  key <> key' ->
  headerOf key
    (filter (fun item => negb (String.eqb (fst item) key')) v)
  = headerOf key v.
Proof.
  intros Hne.
  induction v as [|[k value] rest IH]; cbn [headerOf filter fst].
  - reflexivity.
  - destruct (String.eqb_spec k key') as [-> | Hk]; cbn [negb headerOf].
    + destruct (String.eqb_spec key' key) as [Heq | _];
        [congruence | exact IH].
    + rewrite IH. reflexivity.
Qed.

Lemma NoDup_keys_filter (f : string * string -> bool) (v : KeyedVector) :
  NoDup (map fst v) -> NoDup (map fst (filter f v)).
Proof.
  induction v as [|item rest IH]; cbn [filter map]; [auto|].
  intros Hnodup. inversion Hnodup as [|? ? Hnotin Hrest]; subst.
  destruct (f item); cbn [map]; [|auto].
  constructor; [|auto].
  intros Hin. apply Hnotin.
  apply in_map_iff in Hin. destruct Hin as (x & Hx & Hin).
  apply filter_In in Hin. destruct Hin as [Hin _].
  apply in_map_iff. exists x. auto.
Qed.

Lemma filter_twice (f g : string * string -> bool) (v : KeyedVector) :
  filter g (filter f v) = filter (fun item => f item && g item) v.
Proof.
  induction v as [|item rest IH]; cbn [filter]; [reflexivity|].
  destruct (f item); cbn [filter andb]; [|exact IH].
  destruct (g item); rewrite IH; reflexivity.
Qed.

(** X15: [RemoveCacheSpecificHeaders] takes its two headers out and lets
    the others pass.  For headers whose keys occur once, the headers
    afterwards are those before without [x-cache-config] and
    [x-disconnect-at-highwatermark], in their order; [cacheConfig] is the
    value of [x-cache-config], or empty when that header is missing; and
    [disconnectAtHighwatermark] says whether the other header was
    there. *)
Theorem RemoveCacheSpecificHeaders_spec (headers : KeyedVector) :
  NoDup (map fst headers) ->
  RemoveCacheSpecificHeaders (Some headers)
  = (Some (filter passesThrough headers),
     match headerOf "x-cache-config" headers with
     | Some value => value
     | None => EmptyString
     end,
     match headerOf "x-disconnect-at-highwatermark" headers with
     | Some _ => true
     | None => false
     end).
Proof.
  intros Hnodup. unfold RemoveCacheSpecificHeaders.
  set (k1 := "x-cache-config"%string).
  set (k2 := "x-disconnect-at-highwatermark"%string).
  assert (Hne : k2 <> k1) by discriminate.
  assert (H1 : exists h1,
    h1 = filter (fun item => negb (String.eqb (fst item) k1)) headers
    /\ (let (h, cacheConfig) :=
          match indexOfKey k1 headers with
          | Some index => (removeItemsAt index headers, valueAt index headers)
          | None => (headers, EmptyString)
          end in (h, cacheConfig))
       = (h1, match headerOf k1 headers with
              | Some value => value
              | None => EmptyString
              end)).
  { eexists. split; [reflexivity|].
    destruct (indexOfKey k1 headers) as [index|] eqn:Hidx.
    - destruct (removeItemsAt_indexOfKey k1 headers index Hnodup Hidx)
        as [-> ->]. reflexivity.
    - destruct (headerOf_indexOfKey_none k1 headers Hidx) as [-> ->].
      reflexivity. }
  destruct H1 as (h1 & Hh1 & Hfirst).
  destruct (match indexOfKey k1 headers with
            | Some index => (removeItemsAt index headers, valueAt index headers)
            | None => (headers, EmptyString)
            end) as [h cacheConfig].
  injection Hfirst as -> ->.
  assert (Hnodup1 : NoDup (map fst h1))
    by (rewrite Hh1; apply NoDup_keys_filter; exact Hnodup).
  assert (Hhead : headerOf k2 h1 = headerOf k2 headers)
    by (rewrite Hh1; apply headerOf_filter; exact Hne).
  assert (Hpass :
    filter (fun item => negb (String.eqb (fst item) k2)) h1
    = filter passesThrough headers).
  { rewrite Hh1, filter_twice. reflexivity. }
  destruct (indexOfKey k2 h1) as [index|] eqn:Hidx.
  - destruct (removeItemsAt_indexOfKey k2 h1 index Hnodup1 Hidx)
      as [Hvalue ->].
    rewrite Hpass, <- Hhead, Hvalue. reflexivity.
  - destruct (headerOf_indexOfKey_none k2 h1 Hidx) as [Hnone Hsame].
    rewrite <- Hhead, Hnone, <- Hpass, Hsame. reflexivity.
Qed.

Lemma RemoveCacheSpecificHeaders_spec_witness :
  RemoveCacheSpecificHeaders
    (Some [("accept", "*/*"); ("x-cache-config", "1/2/1");
           ("x-disconnect-at-highwatermark", "1"); ("x-extra", "y")]%string)
  = (Some [("accept", "*/*"); ("x-extra", "y")]%string, "1/2/1"%string,
     true).
Proof.
  apply (RemoveCacheSpecificHeaders_spec
           [("accept", "*/*"); ("x-cache-config", "1/2/1");
            ("x-disconnect-at-highwatermark", "1"); ("x-extra", "y")]%string).
  repeat constructor; cbn; intuition discriminate.
Defined.

(** ** Flags *)

Lemma u32_testbit (x i : Z) :
  Z.testbit (u32 x) i = (i <? 32) && Z.testbit x i.
Proof.
  unfold u32. destruct (Z.ltb_spec i 32) as [Hlt | Hge]; cbn [andb].
  - destruct (Z.neg_nonneg_cases i) as [Hneg | Hpos].
    + rewrite !Z.testbit_neg_r by lia. reflexivity.
    + apply Z.mod_pow2_bits_low. lia.
  - apply Z.mod_pow2_bits_high. lia.
Qed.

(** X16: what [flags] reports.  When the three enumerators are single
    bits, the one for caching apart from the other two, [flags] never
    reports the source as wanting prefetching or as HTTP based, always
    reports it as caching, and passes every other flag of the source on
    as it is. *)
Theorem flags_bits (wants caching http sourceFlags : Z) :
  0 <= wants < 31 -> 0 <= caching < 31 -> 0 <= http < 31 ->
  caching <> wants -> caching <> http ->
  0 <= sourceFlags < 2 ^ 32 ->
  Z.testbit (flags (2 ^ wants) (2 ^ caching) (2 ^ http) sourceFlags) wants
  = false
  /\ Z.testbit (flags (2 ^ wants) (2 ^ caching) (2 ^ http) sourceFlags) http
     = false
  /\ Z.testbit (flags (2 ^ wants) (2 ^ caching) (2 ^ http) sourceFlags)
       caching
     = true
  /\ forall i,
      i <> wants -> i <> http -> i <> caching ->
      Z.testbit (flags (2 ^ wants) (2 ^ caching) (2 ^ http) sourceFlags) i
      = Z.testbit sourceFlags i.
Proof.
  intros Hw Hc Hh Hcw Hch Hflags.
  assert (Hbit : forall i,
    Z.testbit (flags (2 ^ wants) (2 ^ caching) (2 ^ http) sourceFlags) i
    = (Z.testbit sourceFlags i
       && ((i <? 32) && (0 <=? i)
           && negb ((wants =? i) || (http =? i))))
      || ((i <? 32) && (caching =? i))).
  { intros i. unfold flags.
    rewrite Z.lor_spec, Z.land_spec, !u32_testbit.
    destruct (Z.neg_nonneg_cases i) as [Hneg | Hpos].
    - rewrite !Z.testbit_neg_r by lia.
      replace (caching =? i) with false by (symmetry; apply Z.eqb_neq; lia).
      rewrite !andb_false_r. reflexivity.
    - rewrite Z.lnot_spec, Z.lor_spec, !Z.pow2_bits_eqb by lia.
      replace (0 <=? i) with true by (symmetry; apply Z.leb_le; lia).
      rewrite andb_true_r. reflexivity. }
  assert (Hhigh : forall i, 32 <= i -> Z.testbit sourceFlags i = false).
  { intros i Hi. apply Z.bits_above_log2; [lia|].
    destruct (Z.eq_dec sourceFlags 0) as [-> | Hnz]; [cbn; lia|].
    assert (Z.log2 sourceFlags < 32) by (apply Z.log2_lt_pow2; lia).
    lia. }
  repeat split.
  - rewrite Hbit, !Z.eqb_refl.
    replace (caching =? wants) with false
      by (symmetry; apply Z.eqb_neq; exact Hcw).
    cbn [orb negb]. rewrite !andb_false_r. reflexivity.
  - rewrite Hbit, !Z.eqb_refl.
    replace (caching =? http) with false
      by (symmetry; apply Z.eqb_neq; exact Hch).
    rewrite orb_true_r. cbn [negb]. rewrite !andb_false_r. reflexivity.
  - rewrite Hbit, Z.eqb_refl.
    replace (caching <? 32) with true by (symmetry; apply Z.ltb_lt; lia).
    cbn [andb]. apply orb_true_r.
  - intros i Hiw Hih Hic. rewrite Hbit.
    replace (wants =? i) with false by (symmetry; apply Z.eqb_neq; lia).
    replace (http =? i) with false by (symmetry; apply Z.eqb_neq; lia).
    replace (caching =? i) with false by (symmetry; apply Z.eqb_neq; lia).
    cbn [orb negb]. rewrite !andb_false_r, !andb_true_r, orb_false_r.
    destruct (Z.ltb_spec i 32) as [Hlt | Hge].
    + destruct (Z.leb_spec 0 i) as [Hpos | Hneg]; cbn [andb].
      * apply andb_true_r.
      * rewrite Z.testbit_neg_r by lia. reflexivity.
    + cbn [andb]. rewrite andb_false_r. symmetry. apply Hhigh. exact Hge.
Qed.

Lemma flags_bits_witness :
  Z.testbit (flags (2 ^ 0) (2 ^ 2) (2 ^ 3) 11) 0 = false
  /\ Z.testbit (flags (2 ^ 0) (2 ^ 2) (2 ^ 3) 11) 3 = false
  /\ Z.testbit (flags (2 ^ 0) (2 ^ 2) (2 ^ 3) 11) 2 = true
  /\ Z.testbit (flags (2 ^ 0) (2 ^ 2) (2 ^ 3) 11) 1 = Z.testbit 11 1.
Proof.
  assert (Hrange : 0 <= 11 < 2 ^ 32) by (cbn; lia).
  destruct (flags_bits 0 2 3 11) as (H0 & H3 & H2 & Hother);
    [lia | lia | lia | lia | lia | exact Hrange |].
  split; [exact H0|]. split; [exact H3|]. split; [exact H2|].
  apply Hother; lia.
Defined.

(** ** Fetches that fail *)

(** X17: a read of the source that fails costs no cached byte.  With no
    error latched, when the source returns nothing, an error, or the engine
    is disconnecting, [fetchInternal] leaves the window and its pages as
    they are, returns the page to the free list and latches a status other
    than [OK]: end of stream with no retry left when the source returned
    [0] or the engine is disconnecting, and else the error of the source,
    with no retry left when it is [ERROR_UNSUPPORTED] or [-EPIPE] and with
    the retries untouched otherwise. *)
Theorem fetchInternal_failed_read (e : FetchEnv) (s : NuCachedSource2.t) :
  mFinalStatus s = OK ->
  - 2 ^ 31 <= readResult e ->
  readResult e <= 0 \/ mDisconnecting s = true ->
  exists s' at_,
    fetchInternal e s = Some (s', [SourceRead at_ kPageSize])
    /\ mCacheOffset s' = mCacheOffset s
    /\ mActivePages (mCache s') = mActivePages (mCache s)
    /\ totalSize (mCache s') = totalSize (mCache s)
    /\ List.length (mFreePages (mCache s'))
       = Nat.max 1 (List.length (mFreePages (mCache s)))
    /\ mFinalStatus s' <> OK
    /\ (readResult e = 0 \/ mDisconnecting s = true ->
        mFinalStatus s' = ERROR_END_OF_STREAM /\ mNumRetriesLeft s' = 0)
    /\ (readResult e < 0 -> mDisconnecting s = false ->
        mFinalStatus s' = readResult e
        /\ mNumRetriesLeft s'
           = if (readResult e =? ERROR_UNSUPPORTED) || (readResult e =? - EPIPE)
             then 0 else mNumRetriesLeft s).
Proof.
  intros Hok Hmin Hfail.
  unfold fetchInternal. rewrite Hok. cbn [Z.eqb OK orb negb andb].
  unfold fetchPage.
  assert (Hfree : forall page cache,
    acquirePage (mCache s) = (page, cache) ->
    mActivePages cache = mActivePages (mCache s)
    /\ totalSize cache = totalSize (mCache s)
    /\ S (List.length (mFreePages cache))
       = Nat.max 1 (List.length (mFreePages (mCache s)))).
  { unfold acquirePage. intros page cache.
    destruct (mFreePages (mCache s)) as [|p rest] eqn:Hf.
    - intros [= <- <-]. rewrite Hf. auto.
    - intros [= <- <-]. cbn. auto. }
  destruct (acquirePage (mCache s)) as [page0 cache] eqn:Hacq.
  destruct (Hfree page0 cache eq_refl) as (Hact & Htot & Hlen).
  assert (Hrel : forall page,
    List.length (mFreePages (releasePage page cache))
    = Nat.max 1 (List.length (mFreePages (mCache s)))).
  { intros page. unfold releasePage. cbn [mFreePages].
    rewrite length_app, <- Hlen. cbn. lia. }
  destruct ((readResult e =? 0) || mDisconnecting s) eqn:Heos.
  - do 2 eexists. split; [reflexivity|]. fields.
    repeat apply conj; auto; try discriminate.
    intros Hneg Hdis. rewrite Hdis, orb_false_r in Heos. zbool. lia.
  - apply orb_false_iff in Heos. destruct Heos as [Hnz Hdis]. zbool.
    assert (Hneg : readResult e < 0)
      by (destruct Hfail as [H | H]; [lia | congruence]).
    replace (readResult e <? 0) with true
      by (symmetry; apply Z.ltb_lt; exact Hneg).
    assert (Hs32 : s32 (readResult e) = readResult e)
      by (apply s32_small; lia).
    do 2 eexists. split; [reflexivity|].
    destruct ((readResult e =? ERROR_UNSUPPORTED) || (readResult e =? - EPIPE));
      fields; rewrite Hs32; repeat apply conj; auto.
    all: try (unfold OK; lia).
    all: intros [H | H]; [lia | congruence].
Qed.

Lemma fetchInternal_failed_read_witness :
  exists s' at_,
    fetchInternal (mkFetchEnv 0 0 true OK false (-5) []) smallEngine
    = Some (s', [SourceRead at_ kPageSize])
    /\ cachedBytes s' = cachedBytes smallEngine
    /\ mFinalStatus s' = -5
    /\ mNumRetriesLeft s' = kMaxNumRetries.
Proof.
  destruct (fetchInternal_failed_read
              (mkFetchEnv 0 0 true OK false (-5) []) smallEngine)
    as (s' & at_ & Hfetch & _ & Hact & _ & _ & _ & _ & Herr).
  - reflexivity.
  - cbn. lia.
  - left. cbn. lia.
  - exists s', at_. split; [exact Hfetch|].
    split; [unfold cachedBytes; rewrite Hact; reflexivity|].
    apply Herr; [cbn; lia | reflexivity].
Defined.

(** X18: a reconnect that fails spends a retry and reads nothing.  With
    an error latched and a retry left, on an engine neither suspended nor
    disconnecting, when [reconnectAtOffset] fails [fetchInternal] asks the
    source for the reconnect at the end of the window and for nothing
    else; the cache and the latched status stay as they are, and the
    retries drop by one, or to none when the error is [ERROR_UNSUPPORTED]
    or [-EPIPE]. *)
Theorem fetchInternal_failed_reconnect (e : FetchEnv)
    (s : NuCachedSource2.t) :
  windowOk s ->
  mFinalStatus s <> OK -> 0 < mNumRetriesLeft s <= kMaxNumRetries ->
  mSuspended s = false -> mDisconnecting s = false ->
  reconnectErr e <> OK ->
  exists s',
    fetchInternal e s
    = Some (s', [SourceReconnect (mCacheOffset s + totalSize (mCache s))])
    /\ mCache s' = mCache s
    /\ mCacheOffset s' = mCacheOffset s
    /\ mFinalStatus s' = mFinalStatus s
    /\ mNumRetriesLeft s'
       = (if (reconnectErr e =? ERROR_UNSUPPORTED)
             || (reconnectErr e =? - EPIPE)
          then 0 else mNumRetriesLeft s - 1)
    /\ 0 <= mNumRetriesLeft s' < mNumRetriesLeft s.
Proof.
  intros Hw Hlatched Hretries Hsusp Hdis Herr.
  pose proof (windowOk_total s Hw) as Htot.
  destruct Hw as (_ & Hlo & Hhi).
  assert (Hmax : kMaxNumRetries = 10) by reflexivity.
  unfold fetchInternal.
  replace (mFinalStatus s =? OK) with false
    by (symmetry; apply Z.eqb_neq; exact Hlatched).
  replace (mNumRetriesLeft s >? 0) with true
    by (symmetry; rewrite Z.gtb_ltb; apply Z.ltb_lt; lia).
  cbn [orb negb andb]. fields. rewrite Hsusp. cbn [negb].
  rewrite s64_u64, s64_small by lia.
  rewrite s32_small by lia.
  replace (reconnectErr e =? OK) with false
    by (symmetry; apply Z.eqb_neq; exact Herr).
  cbn [negb].
  destruct (mIsProxyConfigured s && negb (reconnectProxy e)
            && mDisconnectAtHighwatermark s);
    fields; rewrite Hdis;
    destruct ((reconnectErr e =? ERROR_UNSUPPORTED)
              || (reconnectErr e =? - EPIPE));
    eexists; (split; [reflexivity|]); fields;
    repeat apply conj; auto; lia.
Qed.

Lemma fetchInternal_failed_reconnect_witness :
  exists s',
    fetchInternal (mkFetchEnv 0 0 true (-5) false 0 [])
      (set_mFinalStatus (-5) smallEngine)
    = Some (s', [SourceReconnect 10])
    /\ mNumRetriesLeft s' = 9.
Proof.
  destruct (fetchInternal_failed_reconnect
              (mkFetchEnv 0 0 true (-5) false 0 [])
              (set_mFinalStatus (-5) smallEngine))
    as (s' & Hfetch & _ & _ & _ & Hleft & _).
  - exact smallEngine_ok.
  - discriminate.
  - change (0 < 10 <= 10). lia.
  - reflexivity.
  - reflexivity.
  - discriminate.
  - exists s'. split; [exact Hfetch | exact Hleft].
Defined.

(** ** Recovery *)

(** A reconnect that succeeds is followed by the read, and the read
    appends. *)
Lemma fetchInternal_reconnect_read (e : FetchEnv) (s : NuCachedSource2.t) :
  windowOk s ->
  mFinalStatus s <> OK -> 0 < mNumRetriesLeft s ->
  mSuspended s = false -> mDisconnecting s = false ->
  reconnectErr e = OK ->
  0 < readResult e <= Z.of_nat (List.length (readBytes e)) ->
  mCacheOffset s + totalSize (mCache s) + readResult e < 2 ^ 63 ->
  exists s',
    fetchInternal e s
    = Some (s',
            [SourceReconnect (mCacheOffset s + totalSize (mCache s));
             SourceRead (mCacheOffset s + totalSize (mCache s)) kPageSize])
    /\ windowOk s'
    /\ cachedBytes s'
       = cachedBytes s ++ firstn (Z.to_nat (readResult e)) (readBytes e)
    /\ mCacheOffset s' = mCacheOffset s
    /\ mFinalStatus s' = OK
    /\ mNumRetriesLeft s' = kMaxNumRetries.
Proof.
  intros Hw Hlatched Hretries Hsusp Hdis Herr Hn Hend.
  pose proof (windowOk_total s Hw) as Htot.
  assert (Hlo : 0 <= mCacheOffset s) by (destruct Hw as (_ & H & _); exact H).
  unfold fetchInternal.
  replace (mFinalStatus s =? OK) with false
    by (symmetry; apply Z.eqb_neq; exact Hlatched).
  replace (mNumRetriesLeft s >? 0) with true
    by (symmetry; rewrite Z.gtb_ltb; apply Z.ltb_lt; lia).
  cbn [orb negb andb].
  set (s1 := set_mNumRetriesLeft _ s).
  change (mSuspended s1) with (mSuspended s). rewrite Hsusp. cbn [negb].
  match goal with
  | |- context [set_mIsProxyConfigured ?b ?s3] =>
      set (s4 := set_mIsProxyConfigured b s3)
  end.
  assert (H4 : mCache s4 = mCache s /\ mCacheOffset s4 = mCacheOffset s
               /\ mDisconnecting s4 = mDisconnecting s).
  { subst s4 s1. destruct (_ && mDisconnectAtHighwatermark _); fields; auto. }
  destruct H4 as (Hc4 & Ho4 & Hd4).
  change (mCacheOffset s1) with (mCacheOffset s).
  change (mCache s1) with (mCache s).
  rewrite s64_u64, s64_small by lia.
  rewrite Hd4, Hdis, Herr. cbn [Z.eqb OK ERROR_UNSUPPORTED EPIPE Z.opp orb negb].
  destruct (fetchPage_appends e s4) as (s' & Hpage & Hw' & Hbytes & _ & Hoff
                                        & _ & Hfinal & Hleft & _).
  - exact (windowOk_same s s4 Hc4 Ho4 Hw).
  - rewrite Hd4. exact Hdis.
  - exact Hn.
  - rewrite Hc4, Ho4. exact Hend.
  - rewrite Hpage, Hc4, Ho4. exists s'.
    split; [reflexivity|]. split; [exact Hw'|].
    split; [rewrite Hbytes; unfold cachedBytes; rewrite Hc4; reflexivity|].
    split; [rewrite Hoff; exact Ho4|]. split; assumption.
Qed.

(** X19: the prefetcher recovers from a latched error.  With an error
    latched and a retry left, on an engine neither suspended nor
    disconnecting, when the reconnect succeeds and the source then returns
    [n > 0] bytes, [fetchInternal] reconnects at the end of the window,
    reads one page there and appends the bytes to the cached ones; the
    status is [OK] again and the retries are back at [kMaxNumRetries]. *)
Theorem fetchInternal_recovers (e : FetchEnv) (s : NuCachedSource2.t) :
  windowOk s ->
  mFinalStatus s <> OK -> 0 < mNumRetriesLeft s ->
  mSuspended s = false -> mDisconnecting s = false ->
  reconnectErr e = OK ->
  0 < readResult e <= Z.of_nat (List.length (readBytes e)) ->
  mCacheOffset s + totalSize (mCache s) + readResult e < 2 ^ 63 ->
  exists s',
    fetchInternal e s
    = Some (s',
            [SourceReconnect (mCacheOffset s + totalSize (mCache s));
             SourceRead (mCacheOffset s + totalSize (mCache s)) kPageSize])
    /\ windowOk s'
    /\ cachedBytes s'
       = cachedBytes s ++ firstn (Z.to_nat (readResult e)) (readBytes e)
    /\ mCacheOffset s' = mCacheOffset s
    /\ mFinalStatus s' = OK
    /\ mNumRetriesLeft s' = kMaxNumRetries.
Proof. exact (fetchInternal_reconnect_read e s). Qed.

Lemma fetchInternal_recovers_witness :
  exists s',
    fetchInternal (delivers 0 [x6b; x6c]) (set_mFinalStatus (-5) smallEngine)
    = Some (s', [SourceReconnect 10; SourceRead 10 kPageSize])
    /\ cachedBytes s' = cachedBytes smallEngine ++ [x6b; x6c]
    /\ mFinalStatus s' = OK.
Proof.
  destruct (fetchInternal_recovers (delivers 0 [x6b; x6c])
              (set_mFinalStatus (-5) smallEngine))
    as (s' & Hfetch & _ & Hbytes & _ & Hfinal & _).
  - exact smallEngine_ok.
  - discriminate.
  - change (0 < 10). lia.
  - reflexivity.
  - reflexivity.
  - reflexivity.
  - cbn. lia.
  - cbn. lia.
  - exists s'. split; [exact Hfetch|]. split; [exact Hbytes | exact Hfinal].
Defined.

(** X20: suspending and resuming loses no cached byte.
    [disconnectWhileSuspend] followed by [connectWhileResume] returns [OK]
    twice and posts one fetch; with a retry left, a reconnect that succeeds
    and a source that returns [n > 0] bytes, the fetch that follows
    reconnects at the end of the window the engine had when it was
    suspended and appends to the bytes it had cached then, and the engine
    is no longer suspended and its status is [OK]. *)
Theorem connectWhileResume_refetches (e : FetchEnv)
    (s : NuCachedSource2.t) :
  windowOk s ->
  0 < mNumRetriesLeft s -> mDisconnecting s = false ->
  reconnectErr e = OK ->
  0 < readResult e <= Z.of_nat (List.length (readBytes e)) ->
  mCacheOffset s + totalSize (mCache s) + readResult e < 2 ^ 63 ->
  exists resumed s',
    fst (disconnectWhileSuspend s) = OK
    /\ connectWhileResume (snd (disconnectWhileSuspend s))
       = (OK, resumed, [PostFetch 0])
    /\ fetchInternal e resumed
       = Some (s',
               [SourceReconnect (mCacheOffset s + totalSize (mCache s));
                SourceRead (mCacheOffset s + totalSize (mCache s)) kPageSize])
    /\ cachedBytes s'
       = cachedBytes s ++ firstn (Z.to_nat (readResult e)) (readBytes e)
    /\ mCacheOffset s' = mCacheOffset s
    /\ mSuspended s' = false
    /\ mFinalStatus s' = OK.
Proof.
  intros Hw Hretries Hdis Herr Hn Hend.
  set (resumed := set_mSuspended false
                    (set_mSuspended true (set_mFinalStatus (- EAGAIN) s))).
  destruct (fetchInternal_reconnect_read e resumed)
    as (s' & Hfetch & _ & Hbytes & Hoff & Hfinal & _).
  - exact (windowOk_same s resumed eq_refl eq_refl Hw).
  - subst resumed. fields. discriminate.
  - exact Hretries.
  - reflexivity.
  - exact Hdis.
  - exact Herr.
  - exact Hn.
  - exact Hend.
  - exists resumed, s'. split; [reflexivity|]. split; [reflexivity|].
    split; [exact Hfetch|]. split; [exact Hbytes|]. split; [exact Hoff|].
    split; [|exact Hfinal].
    destruct (fetchInternal_asks _ _ _ _ Hfetch) as (Hs & _).
    rewrite Hs. reflexivity.
Qed.

Lemma connectWhileResume_refetches_witness :
  exists resumed s',
    connectWhileResume (snd (disconnectWhileSuspend smallEngine))
    = (OK, resumed, [PostFetch 0])
    /\ fetchInternal (delivers 0 [x6b; x6c]) resumed
       = Some (s', [SourceReconnect 10; SourceRead 10 kPageSize])
    /\ cachedBytes s' = cachedBytes smallEngine ++ [x6b; x6c].
Proof.
  destruct (connectWhileResume_refetches (delivers 0 [x6b; x6c]) smallEngine)
    as (resumed & s' & _ & Hresume & Hfetch & Hbytes & _).
  - exact smallEngine_ok.
  - change (0 < 10). lia.
  - reflexivity.
  - reflexivity.
  - cbn. lia.
  - cbn. lia.
  - exists resumed, s'. split; [exact Hresume|].
    split; [exact Hfetch | exact Hbytes].
Defined.

(** * The high-water mark *)

(** What [releaseFromStart] leaves when no page holds more than
    [kPageSize] bytes: such pages again, and either none of them or less
    than a page of its budget. *)
Lemma releaseFromStart_kept (c : PageCache.t) (maxBytes : Z) :
  cacheOk c -> mTotalSize c < 2 ^ 64 -> 0 <= maxBytes < 2 ^ 64 ->
  Forall (fun page => mSize page <= kPageSize) (mActivePages c) ->
  Forall (fun page => mSize page <= kPageSize)
    (mActivePages (snd (releaseFromStart maxBytes c)))
  /\ (totalSize (snd (releaseFromStart maxBytes c)) = 0
      \/ maxBytes - fst (releaseFromStart maxBytes c) < kPageSize).
Proof.
  intros [Hok Htotal] Hlt Hmax Hsmall. unfold releaseFromStart.
  destruct (releaseLoop_pages (mActivePages c) (mFreePages c) maxBytes 0 Hok)
    as (gone & kept & Hsplit & Hloop & Hle & Hstop); try lia.
  rewrite Hloop, Z.add_0_l. cbn [fst snd mActivePages totalSize mTotalSize].
  rewrite Hsplit in Hok, Hsmall.
  apply Forall_app in Hok. destruct Hok as [Hg Hk].
  apply Forall_app in Hsmall. destruct Hsmall as [_ Hks].
  pose proof (sumSizes_nonneg gone Hg) as Hgn.
  pose proof (sumSizes_nonneg kept Hk) as Hkn.
  assert (Hsum : mTotalSize c = sumSizes gone + sumSizes kept)
    by (rewrite Htotal, Hsplit; apply sumSizes_app).
  split; [exact Hks|].
  rewrite u64_small by lia.
  destruct kept as [|page rest].
  - left. cbn [sumSizes] in Hsum. simpl in Hsum. lia.
  - right. inversion Hks as [|? ? Hp _]; subst.
    assert (0 < kPageSize) by reflexivity.
    destruct Hstop as [Hz | Hlt']; lia.
Qed.

(** What no restart of the prefetcher touches. *)
Lemma restartPrefetcherIfNecessary_l_params
    (ignoreLowWaterThreshold force : bool) (s : NuCachedSource2.t) :
  mLowwaterThresholdBytes
    (restartPrefetcherIfNecessary_l ignoreLowWaterThreshold force s)
  = mLowwaterThresholdBytes s
  /\ mHighwaterThresholdBytes
       (restartPrefetcherIfNecessary_l ignoreLowWaterThreshold force s)
     = mHighwaterThresholdBytes s
  /\ mKeepAliveIntervalUs
       (restartPrefetcherIfNecessary_l ignoreLowWaterThreshold force s)
     = mKeepAliveIntervalUs s
  /\ mNumRetriesLeft
       (restartPrefetcherIfNecessary_l ignoreLowWaterThreshold force s)
     = mNumRetriesLeft s
  /\ mLastAccessPos
       (restartPrefetcherIfNecessary_l ignoreLowWaterThreshold force s)
     = mLastAccessPos s.
Proof.
  unfold restartPrefetcherIfNecessary_l.
  destruct (mFetching s || exhausted s); [auto|].
  destruct (negb ignoreLowWaterThreshold && negb force && _); [auto|].
  destruct (negb force && _); [auto|].
  destruct (releaseFromStart _ (mCache s)) as [actual cache].
  fields. auto.
Qed.

(** With the watermarks far enough apart, the restart that [onFetch] asks
    for sets the prefetcher running only below the high-water mark: it
    comes after an eviction that leaves less than the low-water mark
    ahead of the reader, and less than [kGrayArea] and a page behind. *)
Lemma restartPrefetcherIfNecessary_l_spaced (s : NuCachedSource2.t) :
  windowOk s ->
  Forall (fun page => mSize page <= kPageSize) (mActivePages (mCache s)) ->
  mCacheOffset s <= mLastAccessPos s < 2 ^ 63 ->
  0 <= mLowwaterThresholdBytes s ->
  mLowwaterThresholdBytes s + kGrayArea + kPageSize
  <= mHighwaterThresholdBytes s ->
  windowOk (restartPrefetcherIfNecessary_l false false s)
  /\ Forall (fun page => mSize page <= kPageSize)
       (mActivePages (mCache (restartPrefetcherIfNecessary_l false false s)))
  /\ mCacheOffset s
     <= mCacheOffset (restartPrefetcherIfNecessary_l false false s)
     <= mLastAccessPos s
  /\ mCacheOffset (restartPrefetcherIfNecessary_l false false s)
     + totalSize (mCache (restartPrefetcherIfNecessary_l false false s))
     = mCacheOffset s + totalSize (mCache s)
  /\ (mFetching (restartPrefetcherIfNecessary_l false false s) = true ->
      mFetching s = true
      \/ totalSize (mCache (restartPrefetcherIfNecessary_l false false s))
         < mHighwaterThresholdBytes s).
Proof.
  intros Hw Hsmall Hlast Hlow Hspace.
  pose proof (windowOk_total s Hw) as Htot.
  assert (Hgray : kGrayArea = 1048576) by reflexivity.
  assert (Hpage : kPageSize = 65536) by reflexivity.
  assert (Hsame :
    windowOk s
    /\ Forall (fun page => mSize page <= kPageSize) (mActivePages (mCache s))
    /\ mCacheOffset s <= mCacheOffset s <= mLastAccessPos s
    /\ mCacheOffset s + totalSize (mCache s)
       = mCacheOffset s + totalSize (mCache s)
    /\ (mFetching s = true ->
        mFetching s = true
        \/ totalSize (mCache s) < mHighwaterThresholdBytes s)).
  { split; [exact Hw|]. split; [exact Hsmall|]. split; [lia|].
    split; [reflexivity|]. intros H. left. exact H. }
  destruct Hw as (Hc & Hlo & Hhi).
  assert (Hbehind : u64 (mLastAccessPos s - mCacheOffset s)
                    = mLastAccessPos s - mCacheOffset s)
    by (apply u64_small; lia).
  unfold restartPrefetcherIfNecessary_l.
  destruct (mFetching s || exhausted s); [exact Hsame|].
  cbn [negb andb].
  destruct (u64 (mCacheOffset s + totalSize (mCache s) - mLastAccessPos s)
            >=? mLowwaterThresholdBytes s) eqn:Hahead; [exact Hsame|].
  rewrite Hbehind.
  destruct (mLastAccessPos s - mCacheOffset s <? kGrayArea) eqn:Hnear;
    [exact Hsame|].
  clear Hsame. zbool.
  assert (Hbudget : u64 (mLastAccessPos s - mCacheOffset s - kGrayArea)
                    = mLastAccessPos s - mCacheOffset s - kGrayArea)
    by (apply u64_small; lia).
  rewrite Hbudget.
  set (maxBytes := mLastAccessPos s - mCacheOffset s - kGrayArea).
  assert (Hahead' :
    mCacheOffset s + totalSize (mCache s) - mLastAccessPos s
    < mLowwaterThresholdBytes s).
  { destruct (Z.le_gt_cases (mLastAccessPos s)
                (mCacheOffset s + totalSize (mCache s))) as [Hin | Hout].
    - rewrite u64_small in Hahead by lia. exact Hahead.
    - lia. }
  destruct (releaseFromStart_window s maxBytes)
    as (cache & actual & Hrel & Hn & Hle & Htotal & _ & Hoff & Hw' & _);
    [exact (conj Hc (conj Hlo Hhi)) | subst maxBytes; lia |].
  destruct (releaseFromStart_kept (mCache s) maxBytes Hc)
    as (Hkept & Hstop);
    [unfold totalSize in Htot; lia | subst maxBytes; lia | exact Hsmall |].
  rewrite Hrel in Hkept, Hstop. cbn [fst snd] in Hkept, Hstop.
  rewrite Hrel, Hoff. fields.
  split; [exact Hw'|]. split; [exact Hkept|].
  split; [subst maxBytes; lia|]. split; [lia|].
  intros _. right. rewrite Htotal.
  destruct Hstop as [Hzero | Hless].
  - rewrite Htotal in Hzero. lia.
  - subst maxBytes. lia.
Qed.

(** One read of the source touches no watermark and appends no page
    larger than the one it asked for. *)
Lemma fetchPage_pages (e : FetchEnv) (s : NuCachedSource2.t) :
  readResult e <= kPageSize ->
  Forall (fun page => mSize page <= kPageSize) (mActivePages (mCache s)) ->
  Forall (fun page => mSize page <= kPageSize)
    (mActivePages (mCache (fst (fetchPage e s))))
  /\ mLowwaterThresholdBytes (fst (fetchPage e s))
     = mLowwaterThresholdBytes s.
Proof.
  intros Hread Hsmall.
  assert (Hpage : kPageSize = 65536) by reflexivity.
  unfold fetchPage, acquirePage.
  destruct (mFreePages (mCache s)) as [|page rest].
  all: destruct ((readResult e =? 0) || mDisconnecting s) eqn:Heos.
  all: try destruct (readResult e <? 0) eqn:Hneg.
  all: try destruct ((readResult e =? ERROR_UNSUPPORTED)
                     || (readResult e =? - EPIPE)).
  all: fields; split; [|reflexivity]; try exact Hsmall.
  all: apply Forall_app; split; [exact Hsmall|].
  all: constructor; [|constructor].
  all: apply orb_false_iff in Heos; destruct Heos as [Hz _]; zbool.
  all: cbn [mSize]; rewrite u64_small; lia.
Qed.

Lemma fetchInternal_pages (e : FetchEnv) (s s' : NuCachedSource2.t)
    (events : list Event) :
  readResult e <= kPageSize ->
  Forall (fun page => mSize page <= kPageSize) (mActivePages (mCache s)) ->
  fetchInternal e s = Some (s', events) ->
  Forall (fun page => mSize page <= kPageSize) (mActivePages (mCache s'))
  /\ mLowwaterThresholdBytes s' = mLowwaterThresholdBytes s.
Proof.
  intros Hread Hsmall.
  assert (Hpage : forall s0,
    mCache s0 = mCache s ->
    mLowwaterThresholdBytes s0 = mLowwaterThresholdBytes s ->
    Forall (fun page => mSize page <= kPageSize)
      (mActivePages (mCache (fst (fetchPage e s0))))
    /\ mLowwaterThresholdBytes (fst (fetchPage e s0))
       = mLowwaterThresholdBytes s).
  { intros s0 Hc Hl.
    destruct (fetchPage_pages e s0 Hread) as (H1 & H2).
    - rewrite Hc. exact Hsmall.
    - rewrite H2, Hl. auto. }
  unfold fetchInternal.
  destruct (negb _); [discriminate|].
  destruct (negb (mFinalStatus s =? OK)); cbn [andb].
  2:{ intros [= Hp]. destruct (Hpage s eq_refl eq_refl) as (H1 & H2).
      rewrite Hp in *. cbn [fst] in *. auto. }
  set (s1 := set_mNumRetriesLeft _ s).
  destruct (mSuspended s1); cbn [negb].
  { intros [= Hp]. destruct (Hpage s1 eq_refl eq_refl) as (H1 & H2).
    rewrite Hp in *. cbn [fst] in *. auto. }
  match goal with
  | |- context [set_mIsProxyConfigured ?b ?s3] =>
      set (s4 := set_mIsProxyConfigured b s3)
  end.
  assert (H4 : mCache s4 = mCache s
               /\ mLowwaterThresholdBytes s4 = mLowwaterThresholdBytes s).
  { subst s4 s1. destruct (_ && mDisconnectAtHighwatermark _); fields; auto. }
  destruct H4 as [Hc4 Hl4].
  destruct (mDisconnecting s4).
  { intros [= <- <-]. fields. rewrite Hc4, Hl4. auto. }
  destruct ((reconnectErr e =? ERROR_UNSUPPORTED)
            || (reconnectErr e =? - EPIPE)).
  { intros [= <- <-]. fields. rewrite Hc4, Hl4. auto. }
  destruct (negb (reconnectErr e =? OK)).
  { intros [= <- <-]. rewrite Hc4, Hl4. auto. }
  destruct (Hpage s4 Hc4 Hl4) as (H1 & H2).
  destruct (fetchPage e s4) as [s5 ev5]. cbn [fst] in *.
  intros [= <- <-]. auto.
Qed.

(** Every time [fetchInternal] releases the lock, the cache is the one it
    found or the one it leaves. *)
Lemma fetchInternalUnlocks_cache (e : FetchEnv) (s s' : NuCachedSource2.t)
    (events : list Event) :
  fetchInternal e s = Some (s', events) ->
  Forall (fun u => mCache u = mCache s \/ mCache u = mCache s')
    (fetchInternalUnlocks e s).
Proof.
  unfold fetchInternal, fetchInternalUnlocks.
  destruct (negb _); [discriminate|].
  destruct (negb (mFinalStatus s =? OK)); cbn [andb].
  2:{ intros [= Hp]. rewrite Hp. cbn [fst].
      constructor; [left; reflexivity|].
      constructor; [right; reflexivity | constructor]. }
  set (s1 := set_mNumRetriesLeft _ s).
  destruct (mSuspended s1); cbn [negb].
  { intros [= Hp]. rewrite Hp. cbn [fst].
    constructor; [left; reflexivity|].
    constructor; [right; reflexivity | constructor]. }
  match goal with
  | |- context [set_mIsProxyConfigured ?b ?s3] =>
      set (s4 := set_mIsProxyConfigured b s3)
  end.
  assert (Hc4 : mCache s4 = mCache s).
  { subst s4 s1. destruct (_ && mDisconnectAtHighwatermark _); reflexivity. }
  destruct (mDisconnecting s4).
  { intros _. constructor; [left; reflexivity|].
    constructor; [left; exact Hc4 | constructor]. }
  destruct ((reconnectErr e =? ERROR_UNSUPPORTED)
            || (reconnectErr e =? - EPIPE)).
  { intros _. constructor; [left; reflexivity|].
    constructor; [left; exact Hc4 | constructor]. }
  destruct (negb (reconnectErr e =? OK)).
  { intros _. constructor; [left; reflexivity|].
    constructor; [left; exact Hc4 | constructor]. }
  destruct (fetchPage e s4) as [s5 ev5]. cbn [fst].
  intros [= <- <-]. constructor; [left; reflexivity|].
  constructor; [left; exact Hc4|].
  constructor; [right; reflexivity | constructor].
Qed.

(** [fetchInvariant] looks at the window, the watermarks, the keep-alive
    period, the retries and [mFetching] only. *)
Lemma fetchInvariant_same (s s0 : NuCachedSource2.t) :
  mCache s0 = mCache s -> mCacheOffset s0 = mCacheOffset s ->
  mLastAccessPos s0 = mLastAccessPos s ->
  mKeepAliveIntervalUs s0 = mKeepAliveIntervalUs s ->
  mNumRetriesLeft s0 = mNumRetriesLeft s ->
  mLowwaterThresholdBytes s0 = mLowwaterThresholdBytes s ->
  mHighwaterThresholdBytes s0 = mHighwaterThresholdBytes s ->
  (mFetching s0 = true -> mFetching s = true) ->
  fetchInvariant s -> fetchInvariant s0.
Proof.
  unfold fetchInvariant, windowOk.
  intros -> -> -> -> -> -> -> Hf (H1 & H2 & H3 & H4 & H5 & H6 & H7).
  auto 10.
Qed.

(** One activation keeps [fetchInvariant], also at each release of the
    lock, provided the source returns no more than the page it was asked
    for, stores what it returns, and the end of the window stays in
    [off64_t]. *)
Lemma onFetch_invariant (e : FetchEnv) (s : NuCachedSource2.t) :
  fetchInvariant s ->
  readResult e <= kPageSize ->
  readResult e <= Z.of_nat (List.length (readBytes e)) ->
  mCacheOffset s + totalSize (mCache s) + kPageSize < 2 ^ 63 ->
  exists s' events,
    onFetch e s = Some (s', events)
    /\ fetchInvariant s'
    /\ mHighwaterThresholdBytes s' = mHighwaterThresholdBytes s
    /\ mCacheOffset s' + totalSize (mCache s')
       <= mCacheOffset s + totalSize (mCache s) + kPageSize
    /\ Forall (fun u => totalSize (mCache u)
                        <= mHighwaterThresholdBytes s + kPageSize)
         (onFetchUnlocks e s).
Proof.
  intros Hinv Hread Hstored Hend.
  assert (Hpage : kPageSize = 65536) by reflexivity.
  unfold onFetch, onFetchUnlocks.
  set (s1 := if exhausted s then set_mFetching false s else s).
  assert (H1 :
    mCache s1 = mCache s
    /\ mCacheOffset s1 = mCacheOffset s
    /\ mLastAccessPos s1 = mLastAccessPos s
    /\ mKeepAliveIntervalUs s1 = mKeepAliveIntervalUs s
    /\ mNumRetriesLeft s1 = mNumRetriesLeft s
    /\ mLowwaterThresholdBytes s1 = mLowwaterThresholdBytes s
    /\ mHighwaterThresholdBytes s1 = mHighwaterThresholdBytes s
    /\ mFinalStatus s1 = mFinalStatus s
    /\ (mFetching s1 = true -> mFetching s = true /\ exhausted s = false)).
  { subst s1. destruct (exhausted s) eqn:Hexh; fields;
      repeat apply conj; auto; discriminate. }
  destruct H1 as (Hc1 & Ho1 & Hl1 & Hk1 & Hr1 & Hlo1 & Hh1 & Hf1 & Hfetch1).
  set (s2 := if (negb (mFinalStatus s1 =? OK) && (mNumRetriesLeft s1 >? 0))
                && mIsProxyConfigured s1
             then set_mQueryAndSetProxy true s1 else s1).
  assert (H2 :
    mCache s2 = mCache s
    /\ mCacheOffset s2 = mCacheOffset s
    /\ mLastAccessPos s2 = mLastAccessPos s
    /\ mKeepAliveIntervalUs s2 = mKeepAliveIntervalUs s
    /\ mNumRetriesLeft s2 = mNumRetriesLeft s
    /\ mLowwaterThresholdBytes s2 = mLowwaterThresholdBytes s
    /\ mHighwaterThresholdBytes s2 = mHighwaterThresholdBytes s
    /\ mFinalStatus s2 = mFinalStatus s
    /\ (mFetching s2 = true -> mFetching s = true /\ exhausted s = false)).
  { subst s2. destruct (_ && mIsProxyConfigured s1); fields;
      rewrite ?Hc1, ?Ho1, ?Hl1, ?Hk1, ?Hr1, ?Hlo1, ?Hh1, ?Hf1;
      repeat apply conj; auto. }
  destruct H2 as (Hc2 & Ho2 & Hl2 & Hk2 & Hr2 & Hlo2 & Hh2 & Hf2 & Hfetch2).
  clearbody s2. clear Hc1 Ho1 Hl1 Hk1 Hr1 Hlo1 Hh1 Hf1 Hfetch1. clearbody s1.
  assert (Hinv2 : fetchInvariant s2).
  { apply (fetchInvariant_same s s2); auto. intros H.
    destruct (Hfetch2 H) as [H' _]. exact H'. }
  destruct Hinv as (Hw & Hsmall & Hka & Hretries & Hbelow & Hbound & Hpaced).
  pose proof (windowOk_total s Hw) as Htot.
  assert (Hlo : 0 <= mCacheOffset s) by (destruct Hw as (_ & H & _); exact H).
  rewrite Hk2.
  replace (mKeepAliveIntervalUs s >? 0) with false
    by (symmetry; rewrite Z.gtb_ltb; apply Z.ltb_ge; lia).
  rewrite andb_false_r. cbn [andb]. rewrite orb_false_r.
  assert (Hfinish : forall s6 events unlocks,
    fetchInvariant s6
    /\ mHighwaterThresholdBytes s6 = mHighwaterThresholdBytes s
    /\ mCacheOffset s6 + totalSize (mCache s6)
       <= mCacheOffset s + totalSize (mCache s) + kPageSize ->
    Forall (fun u => totalSize (mCache u)
                     <= mHighwaterThresholdBytes s + kPageSize) unlocks ->
    exists s' events',
      (if mSuspended s6
       then Some (set_mFinalStatus (- EAGAIN) s6,
                  events ++ [SourceDisconnect])
       else Some (s6, events ++ [PostFetch (fetchDelayUs s6)]))
      = Some (s', events')
      /\ fetchInvariant s'
      /\ mHighwaterThresholdBytes s' = mHighwaterThresholdBytes s
      /\ mCacheOffset s' + totalSize (mCache s')
         <= mCacheOffset s + totalSize (mCache s) + kPageSize
      /\ Forall (fun u => totalSize (mCache u)
                          <= mHighwaterThresholdBytes s + kPageSize)
           unlocks).
  { intros s6 events unlocks (Hinv6 & Hh6 & Hend6) Hall.
    destruct (mSuspended s6); do 2 eexists;
      (split; [reflexivity|]).
    - split; [|split; [exact Hh6 | split; [exact Hend6 | exact Hall]]].
      apply (fetchInvariant_same s6); auto.
    - split; [exact Hinv6|].
      split; [exact Hh6 | split; [exact Hend6 | exact Hall]]. }
  destruct (mFetching s2) eqn:Hfetching.
  - (* the prefetcher runs: one read of the source *)
    destruct (Hfetch2 eq_refl) as [Hfs Hexh].
    specialize (Hbelow Hfs).
    assert (Hcheck : mFinalStatus s2 = OK \/ 0 < mNumRetriesLeft s2).
    { rewrite Hf2, Hr2. unfold exhausted in Hexh.
      destruct (mFinalStatus s =? OK) eqn:Hok; zbool; [left; assumption|].
      right. cbn [negb andb] in Hexh. zbool. lia. }
    destruct (fetchInternal_step e s2 Hcheck) as (s3 & events & Hfi & Hstep).
    destruct (fetchInternal_window e s2) as (s3' & events' & Hfi' & Hw3 & _);
      [destruct Hinv2 as (H & _); exact H | exact Hcheck | exact Hstored
       | rewrite Hc2, Ho2; lia |].
    rewrite Hfi in Hfi'. injection Hfi' as <- <-.
    destruct (fetchInternal_pages e s2 s3 events Hread) as (Hsmall3 & Hlo3);
      [rewrite Hc2; exact Hsmall | exact Hfi |].
    pose proof (fetchInternalUnlocks_cache e s2 s3 events Hfi) as Hunlocks.
    rewrite Hfi.
    destruct Hstep as (Ho3 & Hl3 & Hf3 & Hh3 & Hk3 & Hr3 & Ht3).
    rewrite Ho2, Hl2, Hh2, Hk2, Hr2, Hc2, Hfetching in *.
    assert (Ht3' : totalSize (mCache s)
                   <= totalSize (mCache s3)
                   < mHighwaterThresholdBytes s + kPageSize
                   /\ totalSize (mCache s3)
                      <= totalSize (mCache s) + kPageSize).
    { destruct Ht3 as [Ht3 | [Hn Ht3]]; rewrite Ht3; [lia|].
      rewrite (u64_small (readResult e)) by lia.
      rewrite u64_small by lia. lia. }
    assert (Hk3' : mKeepAliveIntervalUs s3 <= 0)
      by (destruct Hk3 as [-> | ->]; lia).
    assert (Hclose : forall s6,
      mCache s6 = mCache s3 -> mCacheOffset s6 = mCacheOffset s3 ->
      mLastAccessPos s6 = mLastAccessPos s3 ->
      mKeepAliveIntervalUs s6 = mKeepAliveIntervalUs s3 ->
      mNumRetriesLeft s6 = mNumRetriesLeft s3 ->
      mLowwaterThresholdBytes s6 = mLowwaterThresholdBytes s3 ->
      mHighwaterThresholdBytes s6 = mHighwaterThresholdBytes s3 ->
      (mFetching s6 = true ->
       totalSize (mCache s3) < mHighwaterThresholdBytes s) ->
      fetchInvariant s6
      /\ mHighwaterThresholdBytes s6 = mHighwaterThresholdBytes s
      /\ mCacheOffset s6 + totalSize (mCache s6)
         <= mCacheOffset s + totalSize (mCache s) + kPageSize).
    { intros s6 Hc6 Ho6 Hl6 Hk6 Hr6 Hlo6 Hh6 Hf6.
      split; [|split; [congruence | rewrite Hc6, Ho6, Ho3; lia]].
      unfold fetchInvariant.
      rewrite Hc6, Hl6, Hk6, Hr6, Hlo6, Hh6, Hh3, Hl3, Hlo3, Hlo2.
      split; [apply (windowOk_same s3 s6 Hc6 Ho6 Hw3)|].
      split; [exact Hsmall3|]. split; [exact Hk3'|].
      split; [apply Hr3; exact Hretries|].
      split; [exact Hf6|]. split; [lia|].
      rewrite Ho6, Ho3. exact Hpaced. }
    assert (Hall :
      Forall (fun u => totalSize (mCache u)
                       <= mHighwaterThresholdBytes s + kPageSize)
        (fetchInternalUnlocks e s2)).
    { eapply Forall_impl; [|exact Hunlocks].
      intros u [Hu | Hu]; rewrite Hu; lia. }
    destruct (mFetching (set_mLastFetchTimeUs (nowAfterFetch e) s3)
              && (totalSize (mCache (set_mLastFetchTimeUs (nowAfterFetch e) s3))
                  >=? mHighwaterThresholdBytes
                        (set_mLastFetchTimeUs (nowAfterFetch e) s3)))
      eqn:Hfull.
    + destruct (mDisconnectAtHighwatermark _ && sourceIsHTTP e
                && negb (mIsProxyConfigured _)).
      all: apply Hfinish; [|exact Hall].
      all: apply Hclose; try reflexivity.
      all: fields; discriminate.
    + apply Hfinish; [|exact Hall].
      apply Hclose; try reflexivity.
      fields. rewrite Hf3. intros _.
      cbn [mFetching mCache mHighwaterThresholdBytes set_mLastFetchTimeUs]
        in Hfull.
      rewrite Hf3, Hh3 in Hfull. cbn [andb] in Hfull. zbool. lia.
  - (* the prefetcher is at rest: a restart, if any *)
    set (r := restartPrefetcherIfNecessary_l false false s2).
    assert (Hr :
      fetchInvariant r
      /\ mHighwaterThresholdBytes r = mHighwaterThresholdBytes s
      /\ mCacheOffset r + totalSize (mCache r)
         <= mCacheOffset s + totalSize (mCache s) + kPageSize).
    { destruct Hpaced as [Hgray | (Hlast & Hlow & Hspace)].
      - subst r.
        rewrite restartPrefetcherIfNecessary_l_gray
          by (rewrite Ho2, Hl2; exact Hgray).
        split; [exact Hinv2|]. split; [exact Hh2|].
        rewrite Hc2, Ho2. lia.
      - destruct (restartPrefetcherIfNecessary_l_params false false s2)
          as (Hlo_r & Hh_r & Hk_r & Hr_r & Hl_r).
        destruct (restartPrefetcherIfNecessary_l_spaced s2)
          as (Hw_r & Hsmall_r & Hoff_r & Hend_r & Hf_r).
        + destruct Hinv2 as (H & _). exact H.
        + rewrite Hc2. exact Hsmall.
        + rewrite Ho2, Hl2. exact Hlast.
        + rewrite Hlo2. exact Hlow.
        + rewrite Hlo2, Hh2. exact Hspace.
        + fold r in Hlo_r, Hh_r, Hk_r, Hr_r, Hl_r, Hw_r, Hsmall_r, Hoff_r,
            Hend_r, Hf_r.
          rewrite Hc2, Ho2, Hl2, ?Hh2 in *.
          split; [|split; [congruence | lia]].
          unfold fetchInvariant.
          rewrite Hlo_r, Hh_r, Hk_r, Hr_r, Hl_r, ?Hlo2, ?Hh2, ?Hk2, ?Hr2.
          split; [exact Hw_r|]. split; [exact Hsmall_r|].
          split; [exact Hka|]. split; [exact Hretries|].
          split.
          { intros Hf. destruct (Hf_r Hf) as [Hcontra | Hlt];
              [rewrite Hfetching in Hcontra; discriminate | exact Hlt]. }
          split; [lia|].
          right. split; [lia|]. split; [exact Hlow | exact Hspace]. }
    apply Hfinish; [exact Hr|].
    constructor; [|constructor].
    destruct Hr as (_ & _ & Hend_r).
    destruct Hpaced as [Hgray | (Hlast & Hlow & Hspace)].
    + subst r.
      rewrite restartPrefetcherIfNecessary_l_gray
        by (rewrite Ho2, Hl2; exact Hgray).
      rewrite Hc2. exact Hbound.
    + destruct (restartPrefetcherIfNecessary_l_spaced s2)
        as (_ & _ & Hoff_r & Hend_r' & _).
      * destruct Hinv2 as (H & _). exact H.
      * rewrite Hc2. exact Hsmall.
      * rewrite Ho2, Hl2. exact Hlast.
      * rewrite Hlo2. exact Hlow.
      * rewrite Hlo2, Hh2. exact Hspace.
      * fold r in Hoff_r, Hend_r'. rewrite Hc2, Ho2 in *. lia.
Qed.

(** The engine the constructor builds for a source that is to be
    disconnected at the high-water mark, with no proxy, starts within
    [fetchInvariant]: its keep-alive is off, its cache is empty and
    nothing has been read. *)
Lemma new_fetchInvariant (persistValue mediaValue : string)
    (cacheConfig : option string) :
  fetchInvariant
    (fst (NuCachedSource2.new persistValue mediaValue cacheConfig
            true false)).
Proof.
  unfold NuCachedSource2.new.
  set (s0 := init true false).
  set (s1 := updateCacheParamsFromSystemProperty persistValue mediaValue s0).
  set (s2 := match cacheConfig with
             | Some str => updateCacheParamsFromString str s1
             | None => s1
             end).
  assert (H0 : 0 < mHighwaterThresholdBytes s0) by reflexivity.
  assert (H1 : 0 < mHighwaterThresholdBytes s1).
  { subst s1. unfold updateCacheParamsFromSystemProperty.
    destruct (0 <? _); [|destruct (0 <? _)];
      auto using updateCacheParamsFromString_highwater. }
  assert (H2 : 0 < mHighwaterThresholdBytes s2).
  { subst s2. destruct cacheConfig;
      auto using updateCacheParamsFromString_highwater. }
  assert (Hkeep : forall str s,
    mCache (updateCacheParamsFromString str s) = mCache s
    /\ mCacheOffset (updateCacheParamsFromString str s) = mCacheOffset s
    /\ mLastAccessPos (updateCacheParamsFromString str s) = mLastAccessPos s
    /\ mNumRetriesLeft (updateCacheParamsFromString str s)
       = mNumRetriesLeft s
    /\ mDisconnectAtHighwatermark (updateCacheParamsFromString str s)
       = mDisconnectAtHighwatermark s
    /\ mIsProxyConfigured (updateCacheParamsFromString str s)
       = mIsProxyConfigured s).
  { intros str s. unfold updateCacheParamsFromString.
    destruct (sscanf_zd_zd_d str) as [|lo [|hi [|ka [|x l]]]];
      repeat apply conj; try reflexivity.
    all: repeat match goal with
                | |- context [if ?b then _ else _] => destruct b
                end; reflexivity. }
  assert (K1 :
    mCache s1 = mCache s0 /\ mCacheOffset s1 = 0 /\ mLastAccessPos s1 = 0
    /\ mNumRetriesLeft s1 = kMaxNumRetries
    /\ mDisconnectAtHighwatermark s1 = true
    /\ mIsProxyConfigured s1 = false).
  { subst s1. unfold updateCacheParamsFromSystemProperty.
    destruct (0 <? _); [|destruct (0 <? _)];
      try (repeat apply conj; reflexivity).
    all: match goal with
         | |- context [updateCacheParamsFromString ?str ?s] =>
             destruct (Hkeep str s) as (-> & -> & -> & -> & -> & ->)
         end.
    all: repeat apply conj; reflexivity. }
  destruct K1 as (Kc & Ko & Kl & Kr & Kd & Kp).
  assert (K2 :
    mCache s2 = mCache s0 /\ mCacheOffset s2 = 0 /\ mLastAccessPos s2 = 0
    /\ mNumRetriesLeft s2 = kMaxNumRetries
    /\ mDisconnectAtHighwatermark s2 = true
    /\ mIsProxyConfigured s2 = false).
  { subst s2. destruct cacheConfig as [str|]; [|repeat apply conj; auto].
    destruct (Hkeep str s1) as (-> & -> & -> & -> & -> & ->).
    repeat apply conj; auto. }
  destruct K2 as (Kc2 & Ko2 & Kl2 & Kr2 & Kd2 & Kp2).
  rewrite Kd2, Kp2. cbn [negb andb fst].
  unfold fetchInvariant, windowOk, cacheOk. fields.
  rewrite Kc2, Ko2, Kl2, Kr2. subst s0.
  cbn [init mCache PageCache.new mActivePages mTotalSize totalSize sumSizes].
  assert (Hpage : kPageSize = 65536) by reflexivity.
  assert (Hmax : kMaxNumRetries = 10) by reflexivity.
  split; [split; [split; [constructor | reflexivity] | lia]|].
  split; [constructor|]. split; [lia|]. split; [lia|].
  split; [intros _; exact H2|]. split; [lia|].
  left. reflexivity.
Qed.

(** C1, as stated, fails in three ways.  Through keep-alive: with the
    configuration ["1/2/1"] (high water 2 KiB, keep-alive 1 s) the first
    activation appends a full page and stops the prefetcher; one second
    later a keep-alive activation, taken while [mFetching] is false,
    appends a second page, and the cache holds more than the high-water
    mark plus a page.  Through the restart in [onFetch], with keep-alive
    off: with the configuration ["1087/1088/0"], seventeen activations and
    a read from the cache that leaves less than the low-water mark ahead,
    the prefetcher is at rest with the high-water mark cached; the next
    activation restarts it without an eviction, and after four
    activations the cache is two pages past the mark.  Through a READ,
    with keep-alive off and nothing read from the cache: after one
    activation, the restart forced by a READ sets the prefetcher running
    with more than the high-water mark cached, and the next activation
    appends a second page. *)
Lemma onFetch_highwater_counterexample :
  (mFetching
     (afterFetches [delivers 0 fullPage]
        (fst (NuCachedSource2.new "" "" (Some "1/2/1"%string) false false)))
   = false
   /\ mHighwaterThresholdBytes
        (afterFetches [delivers 0 fullPage; delivers 1000000 fullPage]
           (fst (NuCachedSource2.new "" "" (Some "1/2/1"%string)
                   false false)))
      + kPageSize
      < totalSize
          (mCache
             (afterFetches [delivers 0 fullPage; delivers 1000000 fullPage]
                (fst (NuCachedSource2.new "" "" (Some "1/2/1"%string)
                        false false)))))
  /\ match
       readAt 1048576 1024
         (afterFetches (repeat (delivers 0 fullPage) 17)
            (fst (NuCachedSource2.new "" "" (Some "1087/1088/0"%string)
                    false false)))
     with
     | Returned _ _ s =>
         mKeepAliveIntervalUs s = 0
         /\ mFetching s = false
         /\ totalSize (mCache s) = mHighwaterThresholdBytes s
         /\ mHighwaterThresholdBytes s + kPageSize
            < totalSize
                (mCache (afterFetches (repeat (delivers 0 fullPage) 4) s))
     | _ => False
     end
  /\ match
       onRead 65530 16
         (afterFetches [delivers 0 fullPage]
            (fst (NuCachedSource2.new "" "" (Some "1/2/1"%string)
                    true false)))
     with
     | Some (_, s, _) =>
         mKeepAliveIntervalUs s = 0
         /\ mLastAccessPos s - mCacheOffset s < kGrayArea
         /\ totalSize (mCache s) = kPageSize
         /\ mHighwaterThresholdBytes s = 2048
         /\ mFetching s = true
         /\ mHighwaterThresholdBytes s + kPageSize
            < totalSize (mCache (afterFetches [delivers 0 fullPage] s))
     | None => False
     end.
Proof. vm_compute. repeat split. Qed.

(** C1, amended: with keep-alive off, from an engine whose prefetcher, if
    it runs, has less than the high-water mark cached, whose cache holds
    the mark plus a page at most, and whose reader is less than
    [kGrayArea] past the start of the cache or whose watermarks are at
    least [kGrayArea] and a page apart, every run of activations of the
    prefetcher goes through, and the cache holds the high-water mark plus
    a page at most each time the lock is released and after each
    activation.  The window is well formed with pages of [kPageSize] at
    most, the retries are in range, the reads of the source return a page
    at most and store what they return, and the offsets stay in
    [off64_t]. *)
Theorem runFetches_highwater (envs : list FetchEnv) :
  forall s : NuCachedSource2.t,
    fetchInvariant s ->
    Forall (fun e => readResult e <= kPageSize
                     /\ readResult e <= Z.of_nat (List.length (readBytes e)))
      envs ->
    mCacheOffset s + totalSize (mCache s)
    + kPageSize * Z.of_nat (List.length envs) < 2 ^ 63 ->
    exists s',
      runFetches envs s = Some s'
      /\ fetchInvariant s'
      /\ mHighwaterThresholdBytes s' = mHighwaterThresholdBytes s
      /\ totalSize (mCache s') <= mHighwaterThresholdBytes s + kPageSize
      /\ Forall (fun u => totalSize (mCache u)
                          <= mHighwaterThresholdBytes s + kPageSize)
           (runUnlocks envs s).
Proof.
  assert (Hpage : kPageSize = 65536) by reflexivity.
  induction envs as [|e rest IH]; intros s Hinv Hreads Hend.
  - exists s. cbn [runFetches runUnlocks].
    split; [reflexivity|]. split; [exact Hinv|]. split; [reflexivity|].
    split; [|constructor].
    destruct Hinv as (_ & _ & _ & _ & _ & Hbound & _). exact Hbound.
  - inversion Hreads as [|? ? [Hread Hstored] Hrest]; subst.
    cbn [List.length] in Hend.
    destruct (onFetch_invariant e s Hinv Hread Hstored)
      as (s1 & events & Hfetch & Hinv1 & Hh1 & Hend1 & Hunlocks); [lia|].
    destruct (IH s1 Hinv1 Hrest)
      as (s' & Hrun & Hinv' & Hh' & Hbound & Hall); [lia|].
    exists s'. cbn [runFetches runUnlocks]. rewrite Hfetch.
    split; [exact Hrun|]. split; [exact Hinv'|].
    split; [congruence|]. rewrite <- Hh1.
    split; [exact Hbound|].
    apply Forall_app. split; [rewrite Hh1; exact Hunlocks | exact Hall].
Qed.

Lemma runFetches_highwater_witness :
  (exists s',
      runFetches [delivers 0 fullPage; delivers 0 fullPage]
        (fst (NuCachedSource2.new "" "" (Some "1/2/1"%string) true false))
      = Some s'
      /\ totalSize (mCache s') <= 2048 + kPageSize)
  /\ (exists s',
      runFetches [delivers 0 [x6b; x6c]]
        (set_mLastAccessPos 2097152
           (set_mKeepAliveIntervalUs 0 smallEngine))
      = Some s'
      /\ totalSize (mCache s') <= kDefaultHighWaterThreshold + kPageSize).
Proof.
  split.
  - destruct (runFetches_highwater
                [delivers 0 fullPage; delivers 0 fullPage]
                (fst (NuCachedSource2.new "" "" (Some "1/2/1"%string)
                        true false)))
      as (s' & Hrun & _ & _ & Hbound & _).
    + apply new_fetchInvariant.
    + repeat constructor; vm_compute; discriminate.
    + vm_compute. reflexivity.
    + exists s'. split; [exact Hrun | exact Hbound].
  - destruct (runFetches_highwater [delivers 0 [x6b; x6c]]
                (set_mLastAccessPos 2097152
                   (set_mKeepAliveIntervalUs 0 smallEngine)))
      as (s' & Hrun & _ & _ & Hbound & _).
    + split; [exact smallEngine_ok|].
      split; [repeat constructor; vm_compute; discriminate|].
      split; [cbn; lia|].
      split; [vm_compute; split; discriminate|].
      split; [intros _; vm_compute; reflexivity|].
      split; [vm_compute; discriminate|].
      right. vm_compute. repeat split; discriminate.
    + repeat constructor; vm_compute; discriminate.
    + vm_compute. reflexivity.
    + exists s'. split; [exact Hrun | exact Hbound].
Defined.
